(** * cloudflare-pages-direct-uploader: a shallow embedding of [src/index.ts]

    The development follows the source file top-down: the content hasher
    ([computeHash], [computeHashB64]), the request client ([doRequest],
    [doRequestWithRetries]), the remote index operations, the token
    cache ([JWTCache.get]), and the two entry points ([deployDirectory],
    [deployFiles]).

    Effects are explicit.  Every asynchronous function of the source is a
    computation in the monad [M]: it threads the state of the outside world
    (the remote service and the clock) together with the one mutable cell of
    the program (the [jwt] field of the [JWTCache] object), may throw, and
    emits the ordered list of events it performs.

    Numbers are the doubles of the language ([Js], over [SpecFloat]): the
    delays of the retry wrapper and the [concurrency] option are computed
    as the engine computes them, [Math.pow] being the engine's own.  The
    reals appear only where a delay is compared with the exact value of the
    formula. *)

From Stdlib Require Import List String Ascii Bool Arith ZArith NArith Lia.
From Stdlib Require Import Reals Lra.
From Stdlib Require Import Floats.SpecFloat.
From Stdlib.Strings Require Byte.
Import ListNotations.

Local Open Scope list_scope.
Local Open Scope string_scope.

(* ================================================================== *)
(** * Strings and buffers *)
(* ================================================================== *)

Module Str.

(** [s.substring(1)]: the string without its first character. *)
Definition substring1 (s : string) : string :=
  match s with
  | EmptyString => EmptyString
  | String _ r => r
  end.

(** [s.substring(n)] for a natural [n]. *)
Fixpoint substring_from (n : nat) (s : string) : string :=
  match n, s with
  | O, _ => s
  | S n', EmptyString => EmptyString
  | S n', String _ r => substring_from n' r
  end.

(** [s.slice(0, n)]: the first [n] characters (all of [s] when shorter). *)
Fixpoint slice0 (n : nat) (s : string) : string :=
  match n, s with
  | O, _ => EmptyString
  | S _, EmptyString => EmptyString
  | S n', String c r => String c (slice0 n' r)
  end.

(** The suffix of [s] after the last occurrence of [sep], if [sep] occurs. *)
Fixpoint after_last (sep : ascii) (s : string) : option string :=
  match s with
  | EmptyString => None
  | String c r =>
      match after_last sep r with
      | Some t => Some t
      | None => if Ascii.eqb c sep then Some r else None
      end
  end.

(** [hay.includes(needle)]. *)
Fixpoint includes (needle hay : string) : bool :=
  String.prefix needle hay
  || match hay with
     | EmptyString => false
     | String _ r => includes needle r
     end.

(** [s.split('.')]: the pieces between the occurrences of [sep]
    (always at least one piece). *)
Fixpoint split (sep : ascii) (s : string) : list string :=
  match s with
  | EmptyString => [EmptyString]
  | String c r =>
      if Ascii.eqb c sep then EmptyString :: split sep r
      else match split sep r with
           | [] => [String c EmptyString]
           | p :: ps => String c p :: ps
           end
  end.

(** No character of [s] is [c]. *)
Fixpoint lacks (c : ascii) (s : string) : bool :=
  match s with
  | EmptyString => true
  | String d r => negb (Ascii.eqb d c) && lacks c r
  end.

(** A JavaScript string is falsy exactly when it is empty. *)
Definition truthy (s : string) : bool :=
  match s with
  | EmptyString => false
  | String _ _ => true
  end.

End Str.

Module Path.

(** Modelled from the spec: Node's [path.basename] is not part of the
    repository.  The spec speaks of the "base name" of a forward-slash
    separated path: the part after the last [/]. *)
Definition basename (p : string) : string :=
  match Str.after_last "/" p with
  | Some b => b
  | None => p
  end.

(** Modelled from the spec: Node's [path.extname] is not part of the
    repository.  The spec: "the filename's suffix after the last [.] in its
    base name (empty if none)"; [extname] keeps the dot, which the caller
    strips with [substring(1)].  (The wording is followed for every base
    name, also for one that starts with its only dot.) *)
Definition extname (b : string) : string :=
  match Str.after_last "." b with
  | Some e => String "." e
  | None => EmptyString
  end.

(** [resolve(dir, name)] as [readDirRecursive] calls it: [dir] is an
    absolute, normalized path (what [resolve] itself returns) and [name] a
    plain entry name.  The root is the one directory whose path ends with
    the separator. *)
Definition resolve (dir name : string) : string :=
  if String.eqb dir "/" then "/" ++ name else dir ++ "/" ++ name.

(** An absolute path other than the root: [/] and at least one more
    character. *)
Definition nonroot (dir : string) : bool :=
  match dir with
  | String c (String _ _) => Ascii.eqb c "/"
  | _ => false
  end.

End Path.

Module Buffer.

Definition t := list Byte.byte.

Definition hex_digit (n : N) : ascii :=
  match String.get (N.to_nat n) "0123456789abcdef" with
  | Some c => c
  | None => "0"%char
  end.

(** [buf.toString('hex')]: two lowercase digits per byte. *)
Fixpoint toHex (b : t) : string :=
  match b with
  | [] => EmptyString
  | x :: r =>
      let n := Byte.to_N x in
      String (hex_digit (N.shiftr n 4))
             (String (hex_digit (N.land n 15)) (toHex r))
  end.

Definition b64_digit (n : N) : ascii :=
  match String.get (N.to_nat n)
          "ABCDEFGHIJKLMNOPQRSTUVWXYZabcdefghijklmnopqrstuvwxyz0123456789+/" with
  | Some c => c
  | None => "="%char
  end.

(** [buf.toString('base64')]: three bytes give four digits, the tail is
    padded with [=]. *)
Fixpoint toBase64 (b : t) : string :=
  match b with
  | [] => EmptyString
  | [x] =>
      let n := Byte.to_N x in
      String (b64_digit (N.shiftr n 2))
        (String (b64_digit (N.shiftl (N.land n 3) 4)) "==")
  | [x; y] =>
      let n := Byte.to_N x in
      let m := Byte.to_N y in
      String (b64_digit (N.shiftr n 2))
        (String (b64_digit (N.lor (N.shiftl (N.land n 3) 4) (N.shiftr m 4)))
           (String (b64_digit (N.shiftl (N.land m 15) 2)) "="))
  | x :: y :: z :: r =>
      let n := Byte.to_N x in
      let m := Byte.to_N y in
      let k := Byte.to_N z in
      String (b64_digit (N.shiftr n 2))
        (String (b64_digit (N.lor (N.shiftl (N.land n 3) 4) (N.shiftr m 4)))
           (String (b64_digit (N.lor (N.shiftl (N.land m 15) 2) (N.shiftr k 6)))
              (String (b64_digit (N.land k 63)) (toBase64 r))))
  end.

(** [Buffer.from(s)]: the bytes of a string. *)
Definition of_string (s : string) : t := list_byte_of_string s.

End Buffer.

(* ================================================================== *)
(** * The hash function *)
(* ================================================================== *)

(** Modelled from the spec: the package [blake3-wasm] is not part of the
    repository; the spec names the function, Blake3.  This is BLAKE3 in its
    default mode with 32 bytes of output: 32-bit words are integers reduced
    modulo [2^32], a chunk is 1024 bytes, a block 64 bytes.  The content
    hasher below does not depend on it: it takes the hash function as a
    parameter. *)
Module Blake3.

Local Open Scope Z_scope.

Definition word := Z.

Definition wrap (x : Z) : word := x mod 4294967296.

Definition add (a b : word) : word := wrap (a + b).

Definition rotr (x : word) (n : Z) : word :=
  Z.lor (Z.shiftr x n) (wrap (Z.shiftl x (32 - n))).

Definition IV : list word :=
  [0x6A09E667; 0xBB67AE85; 0x3C6EF372; 0xA54FF53A;
   0x510E527F; 0x9B05688C; 0x1F83D9AB; 0x5BE0CD19].

Definition MSG_PERMUTATION : list nat :=
  [2; 6; 3; 10; 7; 0; 4; 13; 1; 11; 12; 5; 9; 14; 15; 8]%nat.

Definition CHUNK_START : Z := 1.
Definition CHUNK_END : Z := 2.
Definition PARENT : Z := 4.
Definition ROOT : Z := 8.

Definition get (l : list word) (i : nat) : word := nth i l 0.

Fixpoint set (l : list word) (i : nat) (v : word) : list word :=
  match l, i with
  | [], _ => []
  | _ :: r, O => v :: r
  | x :: r, S i' => x :: set r i' v
  end.

(** The quarter round, on the words [a], [b], [c], [d] of the state. *)
Definition g (state : list word) (a b c d : nat) (mx my : word) : list word :=
  let va := add (add (get state a) (get state b)) mx in
  let vd := rotr (Z.lxor (get state d) va) 16 in
  let vc := add (get state c) vd in
  let vb := rotr (Z.lxor (get state b) vc) 12 in
  let va := add (add va vb) my in
  let vd := rotr (Z.lxor vd va) 8 in
  let vc := add vc vd in
  let vb := rotr (Z.lxor vb vc) 7 in
  set (set (set (set state a va) b vb) c vc) d vd.

(** One round: the four columns, then the four diagonals. *)
Definition round (state m : list word) : list word :=
  let s := g state 0 4 8 12 (get m 0) (get m 1) in
  let s := g s 1 5 9 13 (get m 2) (get m 3) in
  let s := g s 2 6 10 14 (get m 4) (get m 5) in
  let s := g s 3 7 11 15 (get m 6) (get m 7) in
  let s := g s 0 5 10 15 (get m 8) (get m 9) in
  let s := g s 1 6 11 12 (get m 10) (get m 11) in
  let s := g s 2 7 8 13 (get m 12) (get m 13) in
  g s 3 4 9 14 (get m 14) (get m 15).

Definition permute (m : list word) : list word :=
  map (fun i => get m i) MSG_PERMUTATION.

(** [n] rounds, the message words permuted between two rounds. *)
Fixpoint rounds (n : nat) (state m : list word) : list word :=
  match n with
  | O => state
  | S O => round state m
  | S n' => rounds n' (round state m) (permute m)
  end.

(** The compression function: its 16 output words. *)
Definition compress (cv block : list word) (counter block_len flags : Z)
    : list word :=
  let state :=
    (cv ++ firstn 4 IV
        ++ [wrap counter; wrap (Z.shiftr counter 32); block_len; flags])%list in
  let s := rounds 7 state block in
  (map (fun i => Z.lxor (get s i) (get s (i + 8))) (seq 0 8)
   ++ map (fun i => Z.lxor (get s (i + 8)) (get cv i)) (seq 0 8))%list.

(** The 16 little-endian words of a block of at most 64 bytes, padded with
    zeros. *)
Definition words_of_block (bs : list Z) : list word :=
  map (fun i =>
         nth (4 * i) bs 0
         + Z.shiftl (nth (4 * i + 1) bs 0) 8
         + Z.shiftl (nth (4 * i + 2) bs 0) 16
         + Z.shiftl (nth (4 * i + 3) bs 0) 24)
      (seq 0 16).

(** [bs] cut in pieces of [size] bytes, the last one possibly shorter; an
    empty input is one empty piece. *)
Fixpoint pieces (fuel size : nat) (bs : list Z) : list (list Z) :=
  match fuel with
  | O => [bs]
  | S fuel' =>
      if (List.length bs <=? size)%nat then [bs]
      else firstn size bs :: pieces fuel' size (skipn size bs)
  end.

(** An output still to be computed: the arguments of a last compression. *)
Record Output := {
  input_cv : list word;
  block_words : list word;
  counter : Z;
  block_len : Z;
  flags : Z
}.

Definition chaining_value (o : Output) : list word :=
  firstn 8 (compress (input_cv o) (block_words o) (counter o) (block_len o)
              (flags o)).

Definition root_words (o : Output) : list word :=
  firstn 8 (compress (input_cv o) (block_words o) (counter o) (block_len o)
              (flags o + ROOT)).

(** The blocks of a chunk, compressed in turn; the last one is left to the
    output. *)
Fixpoint chunk_blocks (cv : list word) (chunk_counter : Z) (first : bool)
    (blocks : list (list Z)) : Output :=
  let start := if first then CHUNK_START else 0 in
  match blocks with
  | [] =>
      {| input_cv := cv; block_words := words_of_block [];
         counter := chunk_counter; block_len := 0;
         flags := start + CHUNK_END |}
  | [b] =>
      {| input_cv := cv; block_words := words_of_block b;
         counter := chunk_counter; block_len := Z.of_nat (List.length b);
         flags := start + CHUNK_END |}
  | b :: r =>
      chunk_blocks
        (firstn 8 (compress cv (words_of_block b) chunk_counter 64 start))
        chunk_counter false r
  end.

Definition chunk_output (chunk : list Z) (chunk_counter : Z) : Output :=
  chunk_blocks IV chunk_counter true (pieces 16 64 chunk).

Definition parent_output (left right : list word) : Output :=
  {| input_cv := IV; block_words := (left ++ right)%list;
     counter := 0; block_len := 64; flags := PARENT |}.

(** The largest power of two strictly below [n], for [n] at least 2. *)
Fixpoint left_len (fuel p n : nat) : nat :=
  match fuel with
  | O => p
  | S fuel' => if (2 * p <? n)%nat then left_len fuel' (2 * p) n else p
  end.

(** The output of the subtree over the chunks [cs], the first of which has
    the index [chunk_counter]. *)
Fixpoint subtree (fuel : nat) (cs : list (list Z)) (chunk_counter : Z)
    : Output :=
  match fuel with
  | O => chunk_output (hd [] cs) chunk_counter
  | S fuel' =>
      match cs with
      | [] => chunk_output [] chunk_counter
      | [c] => chunk_output c chunk_counter
      | _ =>
          let n := List.length cs in
          let k := left_len n 1 n in
          parent_output
            (chaining_value (subtree fuel' (firstn k cs) chunk_counter))
            (chaining_value
               (subtree fuel' (skipn k cs) (chunk_counter + Z.of_nat k)))
      end
  end.

Definition le_bytes (w : word) : list Z :=
  [Z.land w 255; Z.land (Z.shiftr w 8) 255; Z.land (Z.shiftr w 16) 255;
   Z.shiftr w 24].

(** The 32 bytes of the hash of [bs]. *)
Definition hash_bytes (bs : list Z) : list Z :=
  let cs := pieces (List.length bs) 1024 bs in
  flat_map le_bytes (root_words (subtree (List.length cs) cs 0)).

Definition byte_of (z : Z) : Byte.byte :=
  match Byte.of_N (Z.to_N z) with
  | Some b => b
  | None => Byte.x00
  end.

(** [hash(input)] for a string: the hash of its bytes, as a buffer. *)
Definition hash (input : string) : Buffer.t :=
  map byte_of
    (hash_bytes (map (fun b => Z.of_N (Byte.to_N b)) (list_byte_of_string input))).

End Blake3.

(* ================================================================== *)
(** * Content hasher: [computeHash], [computeHashB64] *)
(* ================================================================== *)

Section Hasher.

(** [hash] of [blake3-wasm]: an external library, taken as a parameter. *)
Variable blake3hash : string -> Buffer.t.

(** [extname(basename(filename)).substring(1)] *)
Definition extension (filename : string) : string :=
  Str.substring1 (Path.extname (Path.basename filename)).

(** The string handed to [blake3hash]: [b64 + extension]. *)
Definition hashInput (b64 filename : string) : string :=
  b64 ++ extension filename.

Definition computeHashB64 (b64 filename : string) : string :=
  Str.slice0 32 (Buffer.toHex (blake3hash (hashInput b64 filename))).

Definition computeHash (content : Buffer.t) (filename : string) : string :=
  computeHashB64 (Buffer.toBase64 content) filename.

End Hasher.

(* ================================================================== *)
(** * Numbers *)
(* ================================================================== *)

(** A JavaScript number is an IEEE 754 binary64 value: a signed zero, an
    infinity, NaN, or a finite [(-1)^s * m * 2^e].  [SpecFloat] gives the
    operations on them, rounding to nearest, ties to even. *)
Module Js.

Definition number : Type := spec_float.

Definition prec : Z := 53.
Definition emax : Z := 1024.

(** An integer literal, or an integer counter, as a number. *)
Definition of_Z (z : Z) : number := binary_normalize prec emax z 0 false.

Definition of_nat (n : nat) : number := of_Z (Z.of_nat n).

(** The literal [2.5] *)
Definition two_and_a_half : number := binary_normalize prec emax 5 (-1) false.

Definition nan : number := S754_nan.

(** [a < b] and [a <= b]: false as soon as one side is NaN. *)
Definition lt (a b : number) : bool := SFltb a b.
Definition le (a b : number) : bool := SFleb a b.

(** [a * b] *)
Definition mul (a b : number) : number := SFmul prec emax a b.

(** [Math.sqrt(a)] *)
Definition sqrt (a : number) : number := SFsqrt prec emax a.

(** [Math.min(a, b)]: NaN as soon as one argument is NaN, and [-0] counts
    as smaller than [+0]. *)
Definition min (a b : number) : number :=
  match SFcompare a b with
  | None => nan
  | Some Lt => a
  | Some Gt => b
  | Some Eq => match a with
               | S754_zero true => a
               | _ => b
               end
  end.

(** The real number a finite number stands for. *)
Definition real_value (x : number) : option R :=
  match x with
  | S754_zero _ => Some 0%R
  | S754_finite s m e =>
      Some ((if s then - IZR (Zpos m) else IZR (Zpos m)) * powerRZ 2 e)%R
  | _ => None
  end.

End Js.

(* ================================================================== *)
(** * Values exchanged with the outside world *)
(* ================================================================== *)

(** [{ code: number, message: string }] *)
Record ApiError := { code : Z; message : string }.

(** The envelope [doRequest] returns:
    [{ result: T, success: true } | { success: false, errors: ... }]. *)
Inductive ApiResult (T : Type) : Type :=
| Success (result : T)
| Failure (errors : list ApiError).
Arguments Success {T} result.
Arguments Failure {T} errors.

(** What the source throws.  [new Error(prefix + JSON.stringify(...))] keeps
    the stringified value as structured data. *)
Inductive Thrown : Type :=
| Rejected (reason : string)               (* [fetch] or [res.text()] rejected *)
| ExpectingJson (txt : string)             (* 'expecting json ' + txt *)
| SyntaxError (txt : string)               (* [JSON.parse] *)
| CouldntGetJwt (errors : list ApiError)   (* 'couldnt get jwt ' + ... *)
| FailedCheckMissing (errors : list ApiError)  (* 'failed... ' + ... *)
| FailedToUpload (errors : list ApiError)  (* 'failed to upload....' + ... *)
| FailedToUpsert (errors : list ApiError)  (* 'failed to upsert....' + ... *)
| FailedToDeploy (errors : list ApiError)  (* 'failed to deploy...' + ... *)
| TypeError (what : string)                (* a use of [undefined], a call of a non-function *)
| ThrownUndefined.                         (* [throw lastError], never assigned *)

(** A JavaScript object used as an ordered string-keyed record: assigning an
    existing key keeps its place, a new key goes last. *)
Module Obj.

Definition t := list (string * string).

Fixpoint set (k v : string) (o : t) : t :=
  match o with
  | [] => [(k, v)]
  | (k', v') :: r =>
      if String.eqb k' k then (k, v) :: r else (k', v') :: set k v r
  end.

(** [{ ...o, ...extra }] *)
Definition spread (o extra : t) : t :=
  fold_left (fun acc kv => set (fst kv) (snd kv) acc) extra o.

(** [Object.fromEntries(entries)] *)
Definition fromEntries (entries : list (string * string)) : t :=
  spread [] entries.

End Obj.

(** One part of a multipart form: [formData.append(name, value)] or
    [formData.append(name, new Blob([text]), filename)]. *)
Inductive FormPart : Type :=
| Field (name value : string)
| BlobPart (name text filename : string).

Definition FormData := list FormPart.

(** [body?: any]: the callers pass a string or a [FormData]. *)
Inductive Body : Type :=
| StringBody (s : string)
| FormBody (f : FormData).

Inductive Method : Type := GET | POST.

(** The arguments of one [fetch]. *)
Record Request := {
  req_url : string;
  req_headers : Obj.t;
  req_method : Method;
  req_body : option Body
}.

(** What the program reads of a response: [res.headers.get('content-type')]
    and [await res.text()]. *)
Record Response := {
  content_type : option string;
  text : string
}.

(** [interface FileWithHash] *)
Record FileWithHash := {
  fwh_contentBase64 : string;
  fwh_hash : string;
  fwh_contentType : string
}.

(** The operations of the remote index, as the program enters them. *)
Inductive Call : Type :=
| CallGetJwt
| CallCheckMissing (hashes : list string)
| CallUpload (files : list FileWithHash)
| CallUpsert (hashes : list string)
| CallCreateDeployment (body : FormData).

(** Everything the program does that is visible from outside, in order. *)
Inductive Event : Type :=
| Fetch (r : Request)            (* [fetch(url, { headers, method, body })] *)
| Sleep (ms : Js.number)         (* [await setTimeout(delay)] *)
| LogRetry (url : string) (delay : Js.number) (e : Thrown)
                                 (* the message of [doRequestWithRetries] *)
| Log (msg : string)             (* [log(msg)] *)
| Clock (now : Z)                (* [new Date()] *)
| Enter (c : Call)               (* one of the index operations starts *)
| Missing (hashes : list string) (* [getMissingHashes] returns this list *).

(** What the program runs in.  The outside world is a state machine that
    answers each [fetch] (with a rejection or a response) and each reading
    of the clock (milliseconds since the epoch); the engine brings its
    [Math.pow], which the language leaves "implementation-approximated": no
    rounding is prescribed for it, and engines differ in the last digit. *)
Record Environment := {
  EnvState : Type;
  env_fetch : Request -> EnvState -> (Thrown + Response) * EnvState;
  env_now : EnvState -> Z * EnvState;
  env_pow : Js.number -> Js.number -> Js.number
}.

(** The JavaScript runtime and the npm packages the source imports. *)
Record Platform := {
  (** [hash] of [blake3-wasm] *)
  blake3hash : string -> Buffer.t;
  (** [getType] of [mime] *)
  getType : string -> option string;
  (** [JSON.stringify({ hashes })] *)
  stringify_hashes : list string -> string;
  (** [JSON.stringify(payload)] in [uploadFile] *)
  stringify_payload : list FileWithHash -> string;
  (** [JSON.stringify(manifest)] *)
  stringify_manifest : Obj.t -> string;
  (** [Buffer.from(segment, 'base64').toString()] *)
  base64_to_utf8 : string -> string;
  (** [readFile(file, 'utf8')] on a file that holds these bytes: the text
      Node's decoder gives (an invalid sequence becomes U+FFFD) *)
  utf8 : Buffer.t -> string;
  (** [JSON.parse(json) as { exp: number }], [None] when it throws *)
  parse_claims : string -> option Z;
  (** [JSON.parse(txt)] at each result type [T] of [doRequest<T>],
      [None] when it throws *)
  parse_jwt : string -> option (ApiResult string);
  parse_hashes : string -> option (ApiResult (list string));
  parse_unknown : string -> option (ApiResult unit);
  parse_deployment : string -> option (ApiResult (string * string))
}.

(* ================================================================== *)
(** * The monad of asynchronous computations *)
(* ================================================================== *)

(** [interface CloudflarePagesDirectUploaderOptions] *)
Record Config := {
  apiKey : string;
  accountId : string;
  projectName : string
}.

(** The value of the private field [jwt] of a [JWTCache], once defined. *)
Record CachedJwt := {
  cached_jwt : string;
  cached_expiry : Z   (* the [Date], in milliseconds since the epoch *)
}.

Section Monad.

Variable E : Environment.

(** The state a computation threads: the outside world and the [jwt] field
    of the [JWTCache] object of the running deployment. *)
Record World := {
  outside : EnvState E;
  jwt_field : option CachedJwt
}.

Definition Outcome (A : Type) : Type := (Thrown + A) * World * list Event.

Definition M (A : Type) : Type := World -> Outcome A.

Definition ret {A} (a : A) : M A := fun w => (inr a, w, []).

Definition throw {A} (e : Thrown) : M A := fun w => (inl e, w, []).

Definition bind {A B} (m : M A) (k : A -> M B) : M B :=
  fun w =>
    match m w with
    | (inl e, w1, t1) => (inl e, w1, t1)
    | (inr a, w1, t1) =>
        match k a w1 with
        | (r, w2, t2) => (r, w2, (t1 ++ t2)%list)
        end
    end.

(** [try { m } catch (e) { handler e }] *)
Definition try_catch {A} (m : M A) (handler : Thrown -> M A) : M A :=
  fun w =>
    match m w with
    | (inl e, w1, t1) =>
        match handler e w1 with
        | (r, w2, t2) => (r, w2, (t1 ++ t2)%list)
        end
    | (inr a, w1, t1) => (inr a, w1, t1)
    end.

Definition emit (ev : Event) : M unit := fun w => (inr tt, w, [ev]).

(** [await fetch(...)], then [await res.text()] and the content type. *)
Definition fetch (r : Request) : M Response :=
  fun w =>
    match env_fetch E r (outside w) with
    | (inl e, o) =>
        (inl e, {| outside := o; jwt_field := jwt_field w |}, [Fetch r])
    | (inr res, o) =>
        (inr res, {| outside := o; jwt_field := jwt_field w |}, [Fetch r])
    end.

(** [new Date()] *)
Definition newDate : M Z :=
  fun w =>
    match env_now E (outside w) with
    | (now, o) =>
        (inr now, {| outside := o; jwt_field := jwt_field w |}, [Clock now])
    end.

Definition read_jwt_field : M (option CachedJwt) :=
  fun w => (inr (jwt_field w), w, []).

Definition write_jwt_field (c : option CachedJwt) : M unit :=
  fun w => (inr tt, {| outside := outside w; jwt_field := c |}, []).

Definition result_of {A} (o : Outcome A) : Thrown + A := fst (fst o).
Definition world_of {A} (o : Outcome A) : World := snd (fst o).
Definition trace_of {A} (o : Outcome A) : list Event := snd o.

End Monad.

Arguments ret {E A} a.
Arguments throw {E A} e.
Arguments bind {E A B} m k.
Arguments try_catch {E A} m handler.
Arguments emit {E} ev.
Arguments fetch {E} r.
Arguments newDate {E}.
Arguments read_jwt_field {E}.
Arguments write_jwt_field {E} c.
Arguments result_of {E A} o.
Arguments world_of {E A} o.
Arguments trace_of {E A} o.
Arguments outside {E} w.
Arguments jwt_field {E} w.

Declare Scope monad_scope.
Delimit Scope monad_scope with monad.
Notation "x <- m ;; k" := (bind m (fun x => k))
  (at level 61, m at next level, right associativity) : monad_scope.
Notation "m ;; k" := (bind m (fun _ => k))
  (at level 61, right associativity) : monad_scope.
Local Open Scope monad_scope.

(* ================================================================== *)
(** * Request client: [doRequest], [doRequestWithRetries] *)
(* ================================================================== *)

Definition BASE_URL : string := "https://api.cloudflare.com/client/v4".

(** [interface RequestOptions]; [log] records whether a callback is given. *)
Record RequestOptions := {
  ro_headers : Obj.t;
  ro_body : option Body;
  ro_log : bool
}.

(** [options.body] is truthy. *)
Definition body_truthy (b : option Body) : bool :=
  match b with
  | None => false
  | Some (StringBody s) => Str.truthy s
  | Some (FormBody _) => true
  end.

(** [options.body && typeof options.body === 'string'] *)
Definition body_truthy_string (b : option Body) : bool :=
  match b with
  | Some (StringBody s) => Str.truthy s
  | _ => false
  end.

(** [!type || !type.includes('application/json')] *)
Definition not_json (type : option string) : bool :=
  match type with
  | None => true
  | Some ty => negb (Str.truthy ty) || negb (Str.includes "application/json" ty)
  end.

Section Client.

Variable E : Environment.

(** The type argument [T] comes with the reading of [JSON.parse(txt)] at
    the envelope type, [parse]. *)
Definition doRequest {T} (parse : string -> option (ApiResult T))
    (url apiKey : string) (options : RequestOptions) : M E (ApiResult T) :=
  let url := BASE_URL ++ url in
  let headers :=
    Obj.spread
      [("Authorization", "Bearer " ++ apiKey);
       ("User-Agent", "@adamburgess/cloudflare-pages-direct-upload@0.0.1")]
      (ro_headers options) in
  let headers :=
    if body_truthy_string (ro_body options)
    then Obj.set "Content-Type" "application/json" headers
    else headers in
  res <- fetch {| req_url := url;
                  req_headers := headers;
                  req_method := if body_truthy (ro_body options) then POST else GET;
                  req_body := ro_body options |} ;;
  if not_json (content_type res)
  then throw (ExpectingJson (text res))
  else match parse (text res) with
       | Some r => ret r
       | None => throw (SyntaxError (text res))
       end.

(** [Math.min(Math.pow(retryCount, 2.5), 60) * 1000] *)
Definition backoff_delay (retryCount : nat) : Js.number :=
  Js.mul
    (Js.min (env_pow E (Js.of_nat retryCount) Js.two_and_a_half) (Js.of_Z 60))
    (Js.of_Z 1000).

(** The [while (retryCount++ !== retries)] loop, entered with [remaining]
    iterations left ([retries - retryCount]), the counter and [lastError]. *)
Fixpoint retry_loop {T} (parse : string -> option (ApiResult T))
    (url apiKey : string) (options : RequestOptions)
    (remaining retryCount : nat) (lastError : Thrown) : M E (ApiResult T) :=
  match remaining with
  | O => throw lastError
  | S remaining' =>
      let retryCount := S retryCount in
      try_catch (doRequest parse url apiKey options)
        (fun e =>
           let delay := backoff_delay retryCount in
           (if ro_log options then emit (LogRetry url delay e) else ret tt) ;;
           emit (Sleep delay) ;;
           retry_loop parse url apiKey options remaining' retryCount e)
  end.

Definition default_retries : nat := 5.

Definition doRequestWithRetries {T} (parse : string -> option (ApiResult T))
    (url apiKey : string) (options : RequestOptions) (retries : nat)
    : M E (ApiResult T) :=
  retry_loop parse url apiKey options retries 0 ThrownUndefined.

End Client.

Arguments doRequest {E T} parse url apiKey options.
Arguments retry_loop {E T} parse url apiKey options remaining retryCount lastError.
Arguments doRequestWithRetries {E T} parse url apiKey options retries.

(* ================================================================== *)
(** * Remote index operations and the token cache *)
(* ================================================================== *)

Definition no_options : RequestOptions :=
  {| ro_headers := []; ro_body := None; ro_log := false |}.

(** [{ headers: { 'Authorization': `Bearer ${token}` }, body }] *)
Definition bearer_options (token body : string) : RequestOptions :=
  {| ro_headers := [("Authorization", "Bearer " ++ token)];
     ro_body := Some (StringBody body);
     ro_log := false |}.

Section Index.

Variable P : Platform.
Variable E : Environment.

Definition getJwt (options : Config) : M E string :=
  emit (Enter CallGetJwt) ;;
  res <- doRequestWithRetries (parse_jwt P)
           ("/accounts/" ++ accountId options ++ "/pages/projects/"
              ++ projectName options ++ "/upload-token")
           (apiKey options) no_options default_retries ;;
  match res with
  | Success jwt => ret jwt
  | Failure errors => throw (CouldntGetJwt errors)
  end.

(** [JWTCache.get] *)
Definition JWTCache_get (options : Config) : M E string :=
  cached <- read_jwt_field ;;
  stale <- match cached with
           | None => ret true                 (* [this.jwt === undefined] *)
           | Some c => now <- newDate ;;      (* [this.jwt.expiry < new Date()] *)
                       ret (cached_expiry c <? now)%Z
           end ;;
  if (stale : bool) then
    jwt <- getJwt options ;;
    match nth_error (Str.split "." jwt) 1 with
    | None => throw (TypeError "Buffer.from(undefined)")
    | Some segment =>
        let json := base64_to_utf8 P segment in
        match parse_claims P json with
        | None => throw (SyntaxError json)
        | Some exp =>
            write_jwt_field
              (Some {| cached_jwt := jwt;
                       cached_expiry := exp * 1000 - 60000 |}) ;;
            ret jwt
        end
    end
  else
    match cached with
    | Some c => ret (cached_jwt c)
    | None => throw (TypeError "this.jwt is undefined")
    end.

Definition getMissingHashes (hashes : list string) (options : Config)
    : M E (list string) :=
  emit (Enter (CallCheckMissing hashes)) ;;
  token <- JWTCache_get options ;;
  res <- doRequestWithRetries (parse_hashes P) "/pages/assets/check-missing"
           (apiKey options)
           (bearer_options token (stringify_hashes P hashes))
           default_retries ;;
  match res with
  | Success result => emit (Missing result) ;; ret result
  | Failure errors => throw (FailedCheckMissing errors)
  end.

Definition uploadFile (files : list FileWithHash) (options : Config)
    : M E unit :=
  emit (Enter (CallUpload files)) ;;
  let json := stringify_payload P files in
  token <- JWTCache_get options ;;
  res <- doRequestWithRetries (parse_unknown P) "/pages/assets/upload"
           (apiKey options) (bearer_options token json) default_retries ;;
  match res with
  | Success _ => ret tt
  | Failure errors => throw (FailedToUpload errors)
  end.

Definition upsertHashes (hashes : list string) (options : Config)
    : M E unit :=
  emit (Enter (CallUpsert hashes)) ;;
  token <- JWTCache_get options ;;
  res <- doRequestWithRetries (parse_unknown P) "/pages/assets/upsert-hashes"
           (apiKey options)
           (bearer_options token (stringify_hashes P hashes))
           default_retries ;;
  match res with
  | Success _ => ret tt
  | Failure errors => throw (FailedToUpsert errors)
  end.

(** The result is [{ url, id }], here the pair [(url, id)]. *)
Definition createDeployment (body : FormData) (options : Config)
    : M E (string * string) :=
  emit (Enter (CallCreateDeployment body)) ;;
  res <- doRequestWithRetries (parse_deployment P)
           ("/accounts/" ++ accountId options ++ "/pages/projects/"
              ++ projectName options ++ "/deployments")
           (apiKey options)
           {| ro_headers := []; ro_body := Some (FormBody body); ro_log := false |}
           default_retries ;;
  match res with
  | Success result => ret result
  | Failure errors => throw (FailedToDeploy errors)
  end.

End Index.

(* ================================================================== *)
(** * The uploader: [deployFiles], [deployDirectory] *)
(* ================================================================== *)

(** [content: Buffer | (() => Promise<Buffer>)]; the promise of a producer
    resolves to a buffer or rejects. *)
Inductive Content : Type :=
| Buf (b : Buffer.t)
| Producer (p : Thrown + Buffer.t).

(** [interface DeploymentFile] *)
Record DeploymentFile := {
  filename : string;
  content : Content;
  contentType : option string;
  hash : option string
}.

(** [type DeploymentFileWithHash]: the file once the first loop of
    [deployFiles] has visited it. *)
Record DeploymentFileWithHash := {
  wh_file : DeploymentFile;
  wh_hash : string;
  wh_contentBase64 : option string
}.

(** [interface DeploymentOptions]; [concurrency] is a number, any double,
    and [log] records whether a callback is given. *)
Record DeploymentOptions := {
  branch : option string;
  commitMessage : option string;
  commitHash : option string;
  headers : option string;
  redirects : option string;
  worker : option string;
  concurrency : option Js.number;
  log : bool
}.

(** [interface Deployment] *)
Record Deployment := {
  id : string;
  url : string;
  hashes : Obj.t
}.

(** An optional string is truthy when present and not empty. *)
Definition truthy_opt (o : option string) : bool :=
  match o with
  | Some s => Str.truthy s
  | None => false
  end.

(** Modelled from the spec: [groupBy] of [@adamburgess/linq] is not part of
    the repository.  The keys of [from(xs).groupBy(key).toArray()] are "the
    set of distinct fingerprints across all input files": each distinct key
    once, here in the order of its first occurrence. *)
Fixpoint distinct (keys : list string) : list string :=
  match keys with
  | [] => []
  | k :: r => k :: filter (fun k' => negb (String.eqb k' k)) (distinct r)
  end.

(** [options?.concurrency ?? 4] *)
Definition requested_concurrency (options : option DeploymentOptions)
    : Js.number :=
  match options with
  | Some o => match concurrency o with
              | Some c => c
              | None => Js.of_Z 4
              end
  | None => Js.of_Z 4
  end.

(** [const concurrency = Math.min(options?.concurrency ?? 4, 1)] *)
Definition effective_concurrency (options : option DeploymentOptions)
    : Js.number :=
  Js.min (requested_concurrency options) (Js.of_Z 1).

(** The turns of [for (let i = 0; i < concurrency; i++) promises.push(...)]
    from the value [i] of the counter on, at most [fuel] of them: the number
    of promises pushed. *)
Fixpoint push_workers (fuel i : nat) (concurrency : Js.number) : nat :=
  match fuel with
  | O => O
  | S fuel' =>
      if Js.lt (Js.of_nat i) concurrency
      then S (push_workers fuel' (S i) concurrency)
      else O
  end.

(** The length of [promises] after the loop.  Two turns are all there can
    be: after [Math.min(..., 1)] the test [1 < concurrency] fails, so that
    more fuel changes nothing ([spawned_workers_fuel]). *)
Definition spawned_workers (options : option DeploymentOptions) : nat :=
  push_workers 2 0 (effective_concurrency options).

(** [formData.append(name, value)] under [if (value)]. *)
Definition append_field (name : string) (value : option string) (f : FormData)
    : FormData :=
  match value with
  | Some v => if Str.truthy v then (f ++ [Field name v])%list else f
  | None => f
  end.

(** [formData.append(name, new Blob([value]), name)] under [if (value)]. *)
Definition append_blob (name : string) (value : option string) (f : FormData)
    : FormData :=
  match value with
  | Some v => if Str.truthy v then (f ++ [BlobPart name v name])%list else f
  | None => f
  end.

Definition option_of {A} (options : option DeploymentOptions)
    (field : DeploymentOptions -> option A) : option A :=
  match options with
  | Some o => field o
  | None => None
  end.

(** [options?.log ?? (msg => undefined)]: whether the messages are seen. *)
Definition logging_of (options : option DeploymentOptions) : bool :=
  match options with
  | Some o => log o
  | None => false
  end.

Section Uploader.

Variable P : Platform.
Variable E : Environment.
Variable config : Config.

Definition log_with (enabled : bool) (msg : string) : M E unit :=
  if enabled then emit (Log msg) else ret tt.

(** [await file.content()] or [file.content], by [typeof file.content]. *)
Definition materialize (c : Content) : M E Buffer.t :=
  match c with
  | Buf b => ret b
  | Producer (inr b) => ret b
  | Producer (inl e) => throw e
  end.

(** The body of the first loop of [deployFiles], for one file: a file
    whose [hash] is truthy keeps it, any other file is read and hashed. *)
Definition hash_file (file : DeploymentFile) : M E DeploymentFileWithHash :=
  let compute :=
    buf <- materialize (content file) ;;
    let content := Buffer.toBase64 buf in
    ret {| wh_file := file;
           wh_hash := computeHashB64 (blake3hash P) content (filename file);
           wh_contentBase64 := Some content |} in
  match hash file with
  | Some h =>
      if Str.truthy h
      then ret {| wh_file := file; wh_hash := h; wh_contentBase64 := None |}
      else compute
  | None => compute
  end.

Fixpoint hash_files (files : list DeploymentFile)
    : M E (list DeploymentFileWithHash) :=
  match files with
  | [] => ret []
  | file :: rest =>
      f <- hash_file file ;;
      fs <- hash_files rest ;;
      ret (f :: fs)
  end.

Section Scheduler.

Variable filesWithHash : list DeploymentFileWithHash.
Variable logging : bool.

(** The body of the [while] loop of a worker, after the [pop]. *)
Definition upload_missing (missingHash : string) : M E unit :=
  match find (fun x => String.eqb (wh_hash x) missingHash) filesWithHash with
  | None => throw (TypeError "file is undefined")
  | Some file =>
      let name := filename (wh_file file) in
      log_with logging
        ("file " ++ name ++ "/" ++ wh_hash file ++ " missing, uploading.") ;;
      contentBase64 <-
        match wh_contentBase64 file with
        | Some c => ret c
        | None =>
            match content (wh_file file) with
            | Producer p =>
                buf <- materialize (Producer p) ;;
                ret (Buffer.toBase64 buf)
            | Buf _ => throw (TypeError "file.content is not a function")
            end
        end ;;
      let contentType :=
        match contentType (wh_file file) with
        | Some t => t
        | None => match getType P name with
                  | Some t => t
                  | None => "application/octet-stream"
                  end
        end in
      uploadFile P E
        [{| fwh_contentBase64 := contentBase64;
            fwh_hash := wh_hash file;
            fwh_contentType := contentType |}] config ;;
      log_with logging ("uploaded file " ++ name ++ "/" ++ wh_hash file)
  end.

(** One worker.  [hashesToUpload] is held as a stack, top first: the top
    is the last element of the array, the one [pop] removes.  The worker
    returns the array it leaves behind. *)
Fixpoint upload_worker (hashesToUpload : list string) : M E (list string) :=
  match hashesToUpload with
  | [] => ret []
  | missingHash :: rest =>
      upload_missing missingHash ;;
      upload_worker rest
  end.

(** [await Promise.all(promises)] for [n] workers sharing
    [hashesToUpload].  Workers run one after the other here, which is
    what happens with at most one worker; [spawned_workers] never
    exceeds one. *)
Fixpoint run_workers (n : nat) (hashesToUpload : list string)
    : M E (list string) :=
  match n with
  | O => ret hashesToUpload
  | S n' =>
      left <- upload_worker hashesToUpload ;;
      run_workers n' left
  end.

End Scheduler.

Definition manifest_of (filesWithHash : list DeploymentFileWithHash) : Obj.t :=
  Obj.fromEntries
    (map (fun f => ("/" ++ filename (wh_file f), wh_hash f)) filesWithHash).

Definition form_of (filesWithHash : list DeploymentFileWithHash)
    (options : option DeploymentOptions) : FormData :=
  let f := [Field "manifest" (stringify_manifest P (manifest_of filesWithHash))] in
  let f := append_field "branch" (option_of options branch) f in
  let f := append_field "commit_message" (option_of options commitMessage) f in
  let f := append_field "commit_hash" (option_of options commitHash) f in
  let f := append_blob "_headers" (option_of options headers) f in
  let f := append_blob "_redirects" (option_of options redirects) f in
  append_blob "_worker.js" (option_of options worker) f.

(** Modelled from the spec: [toObject] of [@adamburgess/linq] is not part of
    the repository; the result holds "filename -> fingerprint for every
    input file". *)
Definition hashes_of (filesWithHash : list DeploymentFileWithHash) : Obj.t :=
  Obj.fromEntries
    (map (fun f => (filename (wh_file f), wh_hash f)) filesWithHash).

(** [if (missingHashes.length) { await upsertHashes(...) }] *)
Definition upsert_phase (missingHashes grouped : list string) : M E unit :=
  if (0 <? List.length missingHashes)%nat
  then upsertHashes P E grouped config
  else ret tt.

Definition deployFiles (files : list DeploymentFile)
    (options : option DeploymentOptions) : M E Deployment :=
  write_jwt_field None ;;                      (* [new JWTCache()] *)
  let logging := logging_of options in
  filesWithHash <- hash_files files ;;
  let grouped := distinct (map wh_hash filesWithHash) in
  missingHashes <- getMissingHashes P E grouped config ;;
  let hashesToUpload := rev missingHashes in   (* [slice()], top first *)
  run_workers filesWithHash logging (spawned_workers options) hashesToUpload ;;
  upsert_phase missingHashes grouped ;;
  deployment <- createDeployment P E (form_of filesWithHash options) config ;;
  ret {| id := snd deployment;
         url := fst deployment;
         hashes := hashes_of filesWithHash |}.

End Uploader.

(** A directory entry: a file with its bytes, or a directory.  The tree is
    a snapshot of the file system: [readdir] and [readFile] do not fail on
    it. *)
#[warnings="-register-all"]
Inductive Dirent : Type :=
| FileEntry (name : string) (data : Buffer.t)
| DirEntry (name : string) (entries : list Dirent).

(** [readDirRecursive]: the absolute paths of the files under [path], in
    the order of the listing, each with the bytes [readFile] gives. *)
Fixpoint readDirEntry (path : string) (dirent : Dirent)
    : list (string * Buffer.t) :=
  match dirent with
  | FileEntry name data => [(Path.resolve path name, data)]
  | DirEntry name entries =>
      flat_map (readDirEntry (Path.resolve path name)) entries
  end.

Definition readDirRecursive (path : string) (dirents : list Dirent)
    : list (string * Buffer.t) :=
  flat_map (readDirEntry path) dirents.

Definition empty_options : DeploymentOptions :=
  {| branch := None; commitMessage := None; commitHash := None;
     headers := None; redirects := None; worker := None;
     concurrency := None; log := false |}.

Definition set_headers (o : DeploymentOptions) (v : string) : DeploymentOptions :=
  {| branch := branch o; commitMessage := commitMessage o;
     commitHash := commitHash o; headers := Some v; redirects := redirects o;
     worker := worker o; concurrency := concurrency o; log := log o |}.

Definition set_redirects (o : DeploymentOptions) (v : string) : DeploymentOptions :=
  {| branch := branch o; commitMessage := commitMessage o;
     commitHash := commitHash o; headers := headers o; redirects := Some v;
     worker := worker o; concurrency := concurrency o; log := log o |}.

Definition set_worker (o : DeploymentOptions) (v : string) : DeploymentOptions :=
  {| branch := branch o; commitMessage := commitMessage o;
     commitHash := commitHash o; headers := headers o; redirects := redirects o;
     worker := Some v; concurrency := concurrency o; log := log o |}.

(** [file.substring(base.length + 1)] *)
Definition relative_to (base file : string) : string :=
  Str.substring_from (String.length base + 1) file.

(** The [for await] loop of [deployDirectory]: the options it leaves and the
    [files] it pushes, as [(file, relative, data)]. *)
Fixpoint collect (P : Platform) (base : string)
    (yielded : list (string * Buffer.t))
    (options : DeploymentOptions)
    : DeploymentOptions * list (string * string * Buffer.t) :=
  match yielded with
  | [] => (options, [])
  | (file, data) :: rest =>
      let relative := relative_to base file in
      if String.eqb relative "_headers" then
        collect P base rest
          (if negb (truthy_opt (headers options))
           then set_headers options (utf8 P data) else options)
      else if String.eqb relative "_redirects" then
        collect P base rest
          (if negb (truthy_opt (redirects options))
           then set_redirects options (utf8 P data) else options)
      else if String.eqb relative "_worker.js" then
        collect P base rest
          (if negb (truthy_opt (worker options))
           then set_worker options (utf8 P data) else options)
      else
        match collect P base rest options with
        | (o, files) => (o, (file, relative, data) :: files)
        end
  end.

(** [deployDirectory], with [base = resolve(directoryPath)] and the listing
    [root] of that directory. *)
Definition deployDirectory (P : Platform) (E : Environment) (config : Config)
    (base : string) (root : list Dirent) (options : option DeploymentOptions)
    : M E Deployment :=
  let options := match options with Some o => o | None => empty_options end in
  match collect P base (readDirRecursive base root) options with
  | (options, files) =>
      deployFiles P E config
        (map (fun f =>
                {| filename := snd (fst f);
                   content := Producer (inr (snd f));
                   contentType := None;
                   hash := None |}) files)
        (Some options)
  end.

(* ================================================================== *)
(** * Observations on a run *)
(* ================================================================== *)

(** The requests sent, in order. *)
Definition fetches (t : list Event) : list Request :=
  flat_map (fun e => match e with Fetch r => [r] | _ => [] end) t.

(** The delays waited, in order. *)
Definition sleeps (t : list Event) : list Js.number :=
  flat_map (fun e => match e with Sleep d => [d] | _ => [] end) t.

(** The steps of a deployment: the index operations entered (the token
    fetches left out) and the list [checkMissing] reported.  An upload is
    summarised by the fingerprints of the blobs it carries. *)
Inductive Step : Type :=
| CheckMissing (hashes : list string)
| Reported (missing : list string)
| UploadBlob (keys : list string)
| Upsert (hashes : list string)
| Deploy (body : FormData).

Definition step_of (e : Event) : list Step :=
  match e with
  | Enter (CallCheckMissing hs) => [CheckMissing hs]
  | Enter (CallUpload files) => [UploadBlob (map fwh_hash files)]
  | Enter (CallUpsert hs) => [Upsert hs]
  | Enter (CallCreateDeployment body) => [Deploy body]
  | Missing m => [Reported m]
  | _ => []
  end.

Definition steps (t : list Event) : list Step := flat_map step_of t.

Definition is_upload (s : Step) : Prop :=
  match s with
  | UploadBlob _ => True
  | _ => False
  end.

(** The fingerprints uploaded, one entry per blob, in order. *)
Definition uploaded (t : list Event) : list string :=
  flat_map (fun s => match s with UploadBlob ks => ks | _ => [] end) (steps t).

(** A computation returned (did not throw). *)
Definition returned {A} (r : Thrown + A) : bool :=
  match r with
  | inr _ => true
  | inl _ => false
  end.

(** A computation that takes no step of a deployment. *)
Definition quiet {E A} (m : M E A) : Prop :=
  forall w, steps (trace_of (m w)) = [].

(** The upload of one blob. *)
Definition upload_of (h : string) : Step := UploadBlob [h].

(** The fingerprints the workers take from the list [checkMissing] reported,
    in the order they take them: none without a worker, else last to
    first. *)
Definition scheduled (options : option DeploymentOptions)
    (missing : list string) : list string :=
  match spawned_workers options with
  | O => []
  | S _ => rev missing
  end.

(** The world as [deployFiles] starts in it: [new JWTCache()]. *)
Definition fresh_cache {E} (w : World E) : World E :=
  {| outside := outside w; jwt_field := None |}.

(** The path is one of the three names [deployDirectory] compares with. *)
Definition special (relative : string) : bool :=
  String.eqb relative "_headers" || String.eqb relative "_redirects"
  || String.eqb relative "_worker.js".

(** What one turn of the loop of [deployDirectory] does to the options. *)
Definition capture (P : Platform) (base : string) (fd : string * Buffer.t)
    (options : DeploymentOptions) : DeploymentOptions :=
  let relative := relative_to base (fst fd) in
  if String.eqb relative "_headers" then
    if negb (truthy_opt (headers options))
    then set_headers options (utf8 P (snd fd)) else options
  else if String.eqb relative "_redirects" then
    if negb (truthy_opt (redirects options))
    then set_redirects options (utf8 P (snd fd)) else options
  else if String.eqb relative "_worker.js" then
    if negb (truthy_opt (worker options))
    then set_worker options (utf8 P (snd fd)) else options
  else options.

Section Attempts.

Variable E : Environment.
Context {T : Type}.
Variable parse : string -> option (ApiResult T).
Variables (url key : string) (options : RequestOptions).

(** The world after [k] attempts of the request in a row have thrown, with
    the error of the last one; [None] when one of them returns. *)
Fixpoint after_failures (k : nat) (w : World E) (last : Thrown)
    : option (World E * Thrown) :=
  match k with
  | O => Some (w, last)
  | S k' =>
      match doRequest parse url key options w with
      | (inl e, w1, _) => after_failures k' w1 e
      | (inr _, _, _) => None
      end
  end.

End Attempts.

Arguments after_failures {E T} parse url key options k w last.

(* ================================================================== *)
(** * A concrete platform and a scripted outside world

    Used to run the model on examples. *)
(* ================================================================== *)

Module Scenario.

(** Decimal digits to a number; [None] on any other character. *)
Fixpoint decimal (acc : Z) (s : string) : option Z :=
  match s with
  | EmptyString => Some acc
  | String c r =>
      let d := Z.of_nat (nat_of_ascii c) - 48 in
      if ((0 <=? d) && (d <=? 9))%Z then decimal (acc * 10 + d) r else None
  end%Z.

Definition failure_text (txt : string) : bool := String.prefix "!" txt.

Definition envelope {T} (payload : string -> T) (txt : string)
    : option (ApiResult T) :=
  if String.prefix "?" txt then None
  else if failure_text txt
       then Some (Failure [{| code := 8000000; message := txt |}])
       else Some (Success (payload txt)).

(** A stand-in platform, to run the orchestration: the "hash" is the bytes
    of its input (so the fingerprint of the content ["A"] under the name
    [index.html] is the hexadecimal form of ["QQ==html"]), JSON texts are
    comma-separated lists, a response starting with [!] is a
    [success: false] envelope and one starting with [?] is not JSON. *)
Definition platform : Platform :=
  {| blake3hash := Buffer.of_string;
     getType := fun _ => None;
     stringify_hashes := String.concat ",";
     stringify_payload := fun fs => String.concat "," (map fwh_hash fs);
     stringify_manifest :=
       fun m => String.concat "," (map (fun kv => fst kv ++ "=" ++ snd kv) m);
     base64_to_utf8 := fun s => s;
     utf8 := string_of_list_byte;
     parse_claims := fun s => match s with
                              | EmptyString => None
                              | _ => decimal 0 s
                              end;
     parse_jwt := envelope (fun txt => txt);
     parse_hashes :=
       envelope (fun txt => match txt with
                            | EmptyString => []
                            | _ => Str.split "," txt
                            end);
     parse_unknown := envelope (fun _ => tt);
     parse_deployment := envelope (fun txt => (txt, "deployment-id")) |}.

(** The outside world as a script: the answers to the successive
    [fetch]es, and the successive readings of the clock (the last one
    repeats). *)
Record Script := {
  answers : list (Thrown + Response);
  clock : list Z
}.

(** A power for the one exponent the program uses, correctly rounded:
    [x^2.5] is the square root of [x^5], and [x^5] is exact for the small
    integers that count attempts. *)
Definition pow (x y : Js.number) : Js.number :=
  match SFcompare y Js.two_and_a_half with
  | Some Eq => Js.sqrt (Js.mul x (Js.mul x (Js.mul x (Js.mul x x))))
  | _ => Js.nan
  end.

Definition scripted : Environment :=
  {| EnvState := Script;
     env_fetch := fun _ s =>
       match answers s with
       | [] => (inl (Rejected "no answer"), s)
       | a :: rest => (a, {| answers := rest; clock := clock s |})
       end;
     env_now := fun s =>
       match clock s with
       | [] => (0%Z, s)
       | [t] => (t, s)
       | t :: later => (t, {| answers := answers s; clock := later |})
       end;
     env_pow := pow |}.

Definition json (txt : string) : Thrown + Response :=
  inr {| content_type := Some "application/json; charset=UTF-8"; text := txt |}.

Definition html (txt : string) : Thrown + Response :=
  inr {| content_type := Some "text/html"; text := txt |}.

Definition down : Thrown + Response := inl (Rejected "fetch failed").

Definition start (answers : list (Thrown + Response)) (clock : list Z)
    : World scripted :=
  {| outside := {| answers := answers; clock := clock |} : EnvState scripted;
     jwt_field := None |}.

(** The same, with a token already in the cache. *)
Definition holding (c : CachedJwt) (answers : list (Thrown + Response))
    (clock : list Z) : World scripted :=
  {| outside := {| answers := answers; clock := clock |} : EnvState scripted;
     jwt_field := Some c |}.

Definition cfg : Config :=
  {| apiKey := "key"; accountId := "acct"; projectName := "site" |}.

Definition plain (name data : string) : DeploymentFile :=
  {| filename := name; content := Buf (Buffer.of_string data);
     contentType := None; hash := None |}.

Definition with_number (c : Js.number) : DeploymentOptions :=
  {| branch := None; commitMessage := None; commitHash := None;
     headers := None; redirects := None; worker := None;
     concurrency := Some c; log := false |}.

Definition with_concurrency (c : Z) : DeploymentOptions :=
  with_number (Js.of_Z c).

(** The literal [0.5] *)
Definition half : Js.number := binary_normalize Js.prec Js.emax 1 (-1) false.

End Scenario.

(* ================================================================== *)
(** * Further observations *)
(* ================================================================== *)

(** Every character of [s] satisfies [p]. *)
Fixpoint all_chars (p : ascii -> bool) (s : string) : bool :=
  match s with
  | EmptyString => true
  | String c r => p c && all_chars p r
  end.

(** A lowercase hexadecimal digit. *)
Definition is_hex (c : ascii) : bool :=
  existsb (Ascii.eqb c) (list_ascii_of_string "0123456789abcdef").

(** [o[k]]: the value of the key [k] of an object. *)
Fixpoint lookup (k : string) (o : Obj.t) : option string :=
  match o with
  | [] => None
  | (k', v) :: r => if String.eqb k' k then Some v else lookup k r
  end.

(** The argument of the [fetch] in [doRequest]. *)
Definition request_for (url apiKey : string) (options : RequestOptions)
    : Request :=
  let headers :=
    Obj.spread
      [("Authorization", "Bearer " ++ apiKey);
       ("User-Agent", "@adamburgess/cloudflare-pages-direct-upload@0.0.1")]
      (ro_headers options) in
  {| req_url := BASE_URL ++ url;
     req_headers :=
       if body_truthy_string (ro_body options)
       then Obj.set "Content-Type" "application/json" headers
       else headers;
     req_method := if body_truthy (ro_body options) then POST else GET;
     req_body := ro_body options |}.

(** A computation that leaves the [jwt] field of the cache as it found it. *)
Definition keeps_cache {E A} (m : M E A) : Prop :=
  forall w, jwt_field (world_of (m w)) = jwt_field w.

(** The blobs handed to [uploadFile], in order. *)
Definition payloads (t : list Event) : list FileWithHash :=
  flat_map (fun e => match e with
                     | Enter (CallUpload files) => files
                     | _ => []
                     end) t.

(** [file.contentType ?? getType(file.filename) ?? 'application/octet-stream'] *)
Definition content_type_of (P : Platform) (file : DeploymentFile) : string :=
  match contentType file with
  | Some t => t
  | None => match getType P (filename file) with
            | Some t => t
            | None => "application/octet-stream"
            end
  end.

(** What the first loop of [deployFiles] leaves on a file: a truthy [hash]
    is kept and nothing is cached; any other file gets the fingerprint of
    its content and name, and the content is cached. *)
Definition recorded (P : Platform) (file : DeploymentFile)
    (x : DeploymentFileWithHash) : Prop :=
  wh_file x = file /\
  (truthy_opt (hash file) = false ->
   exists b, (content file = Buf b \/ content file = Producer (inr b)) /\
             wh_contentBase64 x = Some (Buffer.toBase64 b) /\
             wh_hash x = computeHash (blake3hash P) b (filename file)) /\
  (forall h, hash file = Some h -> Str.truthy h = true ->
             wh_hash x = h /\ wh_contentBase64 x = None).

(** A blob on its way: it belongs to one of the files, carries that file's
    fingerprint and content type, and the cached content if there is one. *)
Definition sent_for (P : Platform) (fs : list DeploymentFileWithHash)
    (p : FileWithHash) : Prop :=
  exists x, In x fs /\
            fwh_hash p = wh_hash x /\
            fwh_contentType p = content_type_of P (wh_file x) /\
            (forall c, wh_contentBase64 x = Some c -> fwh_contentBase64 p = c).

(** The requests of a call of an asset endpoint: those of the token cache,
    which come first, and then [k] times the same request, authorised by the
    token the cache returned. *)
Definition asset_requests {E A} (P : Platform) (cfg : Config)
    (path body : string) (w : World E) (run : Outcome E A) : Prop :=
  let token := JWTCache_get P E cfg w in
  match result_of token with
  | inl e =>
      result_of run = inl e /\
      fetches (trace_of run) = fetches (trace_of token)
  | inr jwt =>
      exists k,
        (1 <= k <= default_retries)%nat /\
        fetches (trace_of run)
        = (fetches (trace_of token)
           ++ repeat (request_for path (apiKey cfg) (bearer_options jwt body)) k)%list
  end.

(** The files of a tree with their paths relative to its root, in the order
    of the listing. *)
Fixpoint listEntry (dirent : Dirent) : list (string * Buffer.t) :=
  match dirent with
  | FileEntry name data => [(name, data)]
  | DirEntry name entries =>
      map (fun rd => (name ++ "/" ++ fst rd, snd rd)) (flat_map listEntry entries)
  end.

Definition listing (root : list Dirent) : list (string * Buffer.t) :=
  flat_map listEntry root.

(** [{ filename: relative, content: () => readFile(fn) }] *)
Definition directory_file (rd : string * Buffer.t) : DeploymentFile :=
  {| filename := fst rd;
     content := Producer (inr (snd rd));
     contentType := None;
     hash := None |}.

(** A relative path with its bytes, below [base]. *)
Definition below (base : string) (rd : string * Buffer.t) : string * Buffer.t :=
  (Path.resolve base (fst rd), snd rd).

(** The request [getJwt] sends. *)
Definition token_request (cfg : Config) : Request :=
  request_for
    ("/accounts/" ++ accountId cfg ++ "/pages/projects/" ++ projectName cfg
       ++ "/upload-token")
    (apiKey cfg) no_options.

(** The messages of [doRequestWithRetries] about failed attempts. *)
Definition retry_messages (t : list Event)
    : list (string * Js.number * Thrown) :=
  flat_map (fun ev => match ev with
                      | LogRetry url delay e => [(url, delay, e)]
                      | _ => []
                      end) t.

(** A computation that reports no failed attempt. *)
Definition unlogged {E A} (m : M E A) : Prop :=
  forall w, retry_messages (trace_of (m w)) = [].

(** [n^2.5] correctly rounded: the square root of [n^5], which is exact for
    an attempt number. *)
Definition rounded_power (n : nat) : Js.number :=
  let x := Js.of_nat n in
  Js.sqrt (Js.mul x (Js.mul x (Js.mul x (Js.mul x x)))).

(** An engine whose power, at attempt [n], is accurate to one unit in the
    last place: it returns the correctly rounded double or one of its two
    neighbours. *)
Definition accurate_power (E : Environment) (n : nat) : Prop :=
  let x := env_pow E (Js.of_nat n) Js.two_and_a_half in
  x = SFpred Js.prec Js.emax (rounded_power n) \/
  x = rounded_power n \/
  x = SFsucc Js.prec Js.emax (rounded_power n).

(** The number stands for a real strictly between two bounds. *)
Definition between (lo hi : R) (d : Js.number) : Prop :=
  exists r, Js.real_value d = Some r /\ (lo < r < hi)%R.

(** The sum of the delays of a run, in milliseconds. *)
Definition total_delay (delays : list R) : R := fold_right Rplus 0%R delays.

(* ================================================================== *)
(** * The model on examples *)
(* ================================================================== *)

Example base64_A : Buffer.toBase64 (Buffer.of_string "A") = "QQ==".
Proof. reflexivity. Qed.

Example base64_hello : Buffer.toBase64 (Buffer.of_string "hello!") = "aGVsbG8h".
Proof. reflexivity. Qed.

Example hex_bytes : Buffer.toHex (Buffer.of_string "Az~") = "417a7e".
Proof. reflexivity. Qed.

(** Published test vectors of BLAKE3: the empty input, ["abc"], and the
    inputs [0, 1, ..., 250, 0, 1, ...] of 1024 bytes (one full chunk) and 2049
    bytes (three chunks). *)
Example blake3_empty :
  Buffer.toHex (Blake3.hash EmptyString)
  = "af1349b9f5f9a1a6a0404dea36dcc9499bcb25c9adc112b7cc9a93cae41f3262".
Proof. vm_compute. reflexivity. Qed.

Example blake3_abc :
  Buffer.toHex (Blake3.hash "abc")
  = "6437b3ac38465133ffb63b75273a8db548c558465d79db03fd359c6cd5bd9d85".
Proof. vm_compute. reflexivity. Qed.

Example blake3_one_chunk :
  Buffer.toHex
    (map Blake3.byte_of
       (Blake3.hash_bytes
          (map (fun i => Z.of_nat (i mod 251)) (seq 0 (4 * 256)))))
  = "42214739f095a406f3fc83deb889744ac00df831c10daa55189b5d121c855af7".
Proof. vm_compute. reflexivity. Qed.

Example blake3_three_chunks :
  Buffer.toHex
    (map Blake3.byte_of
       (Blake3.hash_bytes
          (map (fun i => Z.of_nat (i mod 251)) (seq 0 (8 * 256 + 1)))))
  = "5f4d72f40d7a5f82b15ca2b2e44b1de3c2ef86c426c95c1af0b6879522563030".
Proof. vm_compute. reflexivity. Qed.

(** Two files with the same bytes and different extensions. *)
Example fingerprint_index_html :
  computeHash Blake3.hash (Buffer.of_string "A") "index.html"
  = "c07a25635e992768276c4008babb4756".
Proof. vm_compute. reflexivity. Qed.

Example extension_txt : extension "dir/sub.d/a.txt" = "txt".
Proof. reflexivity. Qed.

Example extension_none : extension "dir.d/Makefile" = EmptyString.
Proof. reflexivity. Qed.

Example split_token : Str.split "." "h.claims.sig" = ["h"; "claims"; "sig"].
Proof. reflexivity. Qed.

Example distinct_first_occurrence :
  distinct ["b"; "a"; "b"; "c"; "a"] = ["b"; "a"; "c"].
Proof. reflexivity. Qed.

(* ================================================================== *)
(** * Content hasher *)
(* ================================================================== *)

Lemma lacks_after_last (sep : ascii) (s : string) :
  Str.lacks sep s = true -> Str.after_last sep s = None.
Proof.
  induction s as [|c r IH]; simpl; [reflexivity|].
  intros H. apply andb_true_iff in H as [Hc Hr].
  rewrite (IH Hr). apply negb_true_iff in Hc. now rewrite Hc.
Qed.

Lemma after_last_app (sep : ascii) (a e : string) :
  Str.lacks sep e = true ->
  Str.after_last sep (a ++ e) = option_map (fun t => t ++ e) (Str.after_last sep a).
Proof.
  intros He. induction a as [|c r IH]; simpl.
  - now apply lacks_after_last.
  - rewrite IH. destruct (Str.after_last sep r); simpl; [reflexivity|].
    destruct (Ascii.eqb c sep); reflexivity.
Qed.

Lemma after_last_sep (sep : ascii) (a e : string) :
  Str.lacks sep e = true ->
  Str.after_last sep (a ++ String sep e) = Some e.
Proof.
  intros He. induction a as [|c r IH]; simpl.
  - rewrite (lacks_after_last _ _ He). now rewrite Ascii.eqb_refl.
  - now rewrite IH.
Qed.

(** The extension of [stem.ext] is [ext] as written, whatever directories and
    dots the stem has. *)
Lemma extension_of_path (stem ext : string) :
  Str.lacks "." ext = true -> Str.lacks "/" ext = true ->
  extension (stem ++ "." ++ ext) = ext.
Proof.
  intros Hdot Hslash. unfold extension, Path.basename, Path.extname.
  assert (Hl : Str.lacks "/" ("." ++ ext) = true) by (simpl; exact Hslash).
  rewrite (after_last_app "/" stem ("." ++ ext) Hl).
  destruct (Str.after_last "/" stem) as [b|]; simpl option_map; cbv iota.
  - change (b ++ "." ++ ext) with (b ++ String "." ext).
    now rewrite (after_last_sep "." b ext Hdot).
  - change (stem ++ "." ++ ext) with (stem ++ String "." ext).
    now rewrite (after_last_sep "." stem ext Hdot).
Qed.

(** C2.  The fingerprint of a content depends on the filename through its
    extension only: two filenames with the same extension, whatever their
    stems and directories, give the same fingerprint. *)
Theorem C2_same_extension_same_fingerprint
    (blake3hash : string -> Buffer.t) (content : Buffer.t) (f1 f2 : string) :
  extension f1 = extension f2 ->
  computeHash blake3hash content f1 = computeHash blake3hash content f2.
Proof.
  intros Hext. unfold computeHash, computeHashB64, hashInput.
  now rewrite Hext.
Qed.

Lemma C2_witness :
  extension "a.txt" = extension "assets/v1.2/b.txt" /\
  computeHash Blake3.hash (Buffer.of_string "A") "a.txt"
  = computeHash Blake3.hash (Buffer.of_string "A") "assets/v1.2/b.txt".
Proof.
  split; [reflexivity|].
  apply (C2_same_extension_same_fingerprint
           Blake3.hash (Buffer.of_string "A") "a.txt" "assets/v1.2/b.txt").
  reflexivity.
Defined.

(** The instance the specification names. *)
Corollary fingerprint_a_txt_b_txt
    (blake3hash : string -> Buffer.t) (content : Buffer.t) :
  computeHash blake3hash content "a.txt" = computeHash blake3hash content "b.txt".
Proof. reflexivity. Qed.

(** Same directory-independence, for names given by their parts. *)
Corollary fingerprint_of_parts
    (blake3hash : string -> Buffer.t) (content : Buffer.t)
    (stem1 stem2 ext : string) :
  Str.lacks "." ext = true -> Str.lacks "/" ext = true ->
  computeHash blake3hash content (stem1 ++ "." ++ ext)
  = computeHash blake3hash content (stem2 ++ "." ++ ext).
Proof.
  intros Hd Hs. unfold computeHash, computeHashB64, hashInput.
  now rewrite !extension_of_path.
Qed.

(** C3, as stated, fails: nothing lowers the case of the extension, and the
    BLAKE3 fingerprints of the content ["A"] under the names [x.TXT] and
    [x.txt] differ. *)
Lemma C3_counterexample :
  computeHash Blake3.hash (Buffer.of_string "A") "x.TXT"
  = "60ca47c01d9b0af217c9ca4c672399d8"
  /\ computeHash Blake3.hash (Buffer.of_string "A") "x.txt"
     = "42f8fed80a10e56fb584724a8ea0e156"
  /\ computeHash Blake3.hash (Buffer.of_string "A") "x.TXT"
     <> computeHash Blake3.hash (Buffer.of_string "A") "x.txt".
Proof. vm_compute. repeat split. discriminate. Qed.

Lemma append_cancel_l (a x y : string) : a ++ x = a ++ y -> x = y.
Proof.
  induction a as [|c r IH]; simpl; intros H; [exact H|].
  injection H as H. now apply IH.
Qed.

(** C3, amended.  The fingerprint is the first 32 hexadecimal digits of the
    hash of the base64 content followed by the extension exactly as the
    filename writes it; the strings hashed for [x.TXT] and [x.txt] differ for
    every content. *)
Theorem C3_extension_case_kept
    (blake3hash : string -> Buffer.t) (content : Buffer.t) (stem ext : string) :
  Str.lacks "." ext = true -> Str.lacks "/" ext = true ->
  computeHash blake3hash content (stem ++ "." ++ ext)
  = Str.slice0 32 (Buffer.toHex (blake3hash (Buffer.toBase64 content ++ ext)))
  /\ hashInput (Buffer.toBase64 content) "x.TXT" = Buffer.toBase64 content ++ "TXT"
  /\ hashInput (Buffer.toBase64 content) "x.txt" = Buffer.toBase64 content ++ "txt"
  /\ hashInput (Buffer.toBase64 content) "x.TXT"
     <> hashInput (Buffer.toBase64 content) "x.txt".
Proof.
  intros Hd Hs. repeat split.
  - unfold computeHash, computeHashB64, hashInput.
    now rewrite extension_of_path.
  - unfold hashInput. intros H. apply append_cancel_l in H. discriminate H.
Qed.

Lemma C3_witness :
  Str.lacks "." "TXT" = true /\ Str.lacks "/" "TXT" = true /\
  computeHash Blake3.hash (Buffer.of_string "A") ("x" ++ "." ++ "TXT")
  = Str.slice0 32
      (Buffer.toHex (Blake3.hash (Buffer.toBase64 (Buffer.of_string "A") ++ "TXT"))).
Proof.
  split; [reflexivity|]. split; [reflexivity|].
  apply (C3_extension_case_kept Blake3.hash (Buffer.of_string "A") "x" "TXT");
    reflexivity.
Defined.

(** ** The shape of a fingerprint *)

Lemma le_bytes_length (ws : list Blake3.word) :
  List.length (flat_map Blake3.le_bytes ws) = (4 * List.length ws)%nat.
Proof. induction ws as [|x r IH]; [reflexivity|]. cbn. rewrite IH. lia. Qed.

Lemma blake3_length (input : string) : List.length (Blake3.hash input) = 32%nat.
Proof.
  unfold Blake3.hash, Blake3.hash_bytes. cbv zeta.
  rewrite length_map, le_bytes_length.
  unfold Blake3.root_words, Blake3.compress. cbv zeta.
  now rewrite length_firstn, length_app, !length_map, !length_seq.
Qed.

Lemma toHex_length (b : Buffer.t) :
  String.length (Buffer.toHex b) = (2 * List.length b)%nat.
Proof. induction b as [|x r IH]; [reflexivity|]. cbn. rewrite IH. lia. Qed.

Lemma slice0_length (n : nat) (s : string) :
  (n <= String.length s)%nat -> String.length (Str.slice0 n s) = n.
Proof.
  revert s. induction n as [|n IH]; intros s H; [reflexivity|].
  destruct s as [|c r]; cbn in *; [lia|]. rewrite IH; lia.
Qed.

(** With BLAKE3, a fingerprint has exactly 32 characters. *)
Lemma fingerprint_length (content : Buffer.t) (filename : string) :
  String.length (computeHash Blake3.hash content filename) = 32%nat.
Proof.
  unfold computeHash, computeHashB64. apply slice0_length.
  rewrite toHex_length, blake3_length. lia.
Qed.

(* ================================================================== *)
(** * Upload scheduler: the number of workers *)
(* ================================================================== *)

Lemma requested_concurrency_default (o : DeploymentOptions) :
  requested_concurrency None = Js.of_Z 4 /\
  (concurrency o = None -> requested_concurrency (Some o) = Js.of_Z 4) /\
  (forall c, concurrency o = Some c -> requested_concurrency (Some o) = c).
Proof.
  unfold requested_concurrency. repeat split.
  - intros H. now rewrite H.
  - intros c H. now rewrite H.
Qed.

Lemma SFcompare_antisym (a b : Js.number) :
  SFcompare b a = option_map CompOpp (SFcompare a b).
Proof.
  destruct a as [sa|sa| |sa ma ea], b as [sb|sb| |sb mb eb]; cbn;
    try reflexivity;
    try (destruct sa; reflexivity); try (destruct sb; reflexivity);
    try (destruct sa, sb; reflexivity).
  destruct sa, sb; try reflexivity;
    rewrite (Z.compare_antisym ea eb); destruct (ea ?= eb)%Z; cbn;
      try reflexivity;
      pose proof (Pos.compare_cont_antisym ma mb Eq) as H; cbn in H;
      rewrite <- H; now destruct (Pos.compare_cont Eq ma mb).
Qed.

(** After [Math.min(..., 1)] the loop test fails at [i = 1]. *)
Lemma min_1_not_above_1 (x : Js.number) :
  Js.lt (Js.of_Z 1) (Js.min x (Js.of_Z 1)) = false.
Proof.
  unfold Js.lt, Js.min, SFltb.
  pose proof (SFcompare_antisym x (Js.of_Z 1)) as Ha.
  destruct (SFcompare x (Js.of_Z 1)) as [[| |]|] eqn:Hc;
    cbn [option_map CompOpp] in Ha.
  - destruct x as [[|]| | |]; try reflexivity; discriminate Hc.
  - now rewrite Ha.
  - reflexivity.
  - reflexivity.
Qed.

(** The test at [i = 0] passes exactly when the request is above 0. *)
Lemma min_1_positive (x : Js.number) :
  Js.lt (Js.of_Z 0) (Js.min x (Js.of_Z 1)) = Js.lt (Js.of_Z 0) x.
Proof.
  unfold Js.lt, Js.min, SFltb.
  destruct x as [s|s| |s m e]; try reflexivity.
  - destruct s; reflexivity.
  - destruct s; [reflexivity|].
    change (Js.of_Z 1) with (S754_finite false 4503599627370496 (-52)).
    cbn [SFcompare].
    destruct (e ?= -52)%Z; try reflexivity.
    destruct (Pos.compare_cont Eq m 4503599627370496); reflexivity.
Qed.

Lemma push_workers_min (fuel : nat) (x : Js.number) :
  push_workers (S (S fuel)) 0 (Js.min x (Js.of_Z 1))
  = if Js.lt (Js.of_Z 0) x then 1%nat else 0%nat.
Proof.
  cbn [push_workers]. change (Js.of_nat 0) with (Js.of_Z 0).
  change (Js.of_nat 1) with (Js.of_Z 1).
  rewrite min_1_positive, min_1_not_above_1. reflexivity.
Qed.

(** Two turns of the loop are enough: more fuel gives the same count. *)
Lemma spawned_workers_fuel (options : option DeploymentOptions) (fuel : nat) :
  push_workers (S (S fuel)) 0 (effective_concurrency options)
  = spawned_workers options.
Proof.
  unfold spawned_workers, effective_concurrency.
  now rewrite (push_workers_min fuel), (push_workers_min 0).
Qed.

Lemma spawned_workers_count (options : option DeploymentOptions) :
  spawned_workers options
  = if Js.lt (Js.of_Z 0) (requested_concurrency options) then 1%nat else 0%nat.
Proof. apply (push_workers_min 0). Qed.

(** At most one worker is ever spawned. *)
Lemma spawned_workers_le_1 (options : option DeploymentOptions) :
  (spawned_workers options <= 1)%nat.
Proof.
  rewrite spawned_workers_count.
  destruct (Js.lt (Js.of_Z 0) (requested_concurrency options)); lia.
Qed.

Lemma spawned_workers_one (options : option DeploymentOptions) :
  Js.lt (Js.of_Z 0) (requested_concurrency options) = true ->
  spawned_workers options = 1%nat.
Proof. intros H. now rewrite spawned_workers_count, H. Qed.

Lemma spawned_workers_zero (options : option DeploymentOptions) :
  Js.lt (Js.of_Z 0) (requested_concurrency options) = false ->
  spawned_workers options = 0%nat.
Proof. intros H. now rewrite spawned_workers_count, H. Qed.

(** C1, as stated, fails: with [concurrency: 0] no worker is spawned; with a
    negative value, with a fraction or with NaN the number of workers is not
    [min(requested, 1)] either: none for [-3] and for NaN, one for [0.5]. *)
Lemma C1_counterexample :
  spawned_workers (Some (Scenario.with_concurrency 0)) <> 1%nat
  /\ (spawned_workers (Some (Scenario.with_concurrency (-3))) = 0%nat /\
      effective_concurrency (Some (Scenario.with_concurrency (-3)))
      = Js.of_Z (-3))
  /\ (spawned_workers (Some (Scenario.with_number Scenario.half)) = 1%nat /\
      effective_concurrency (Some (Scenario.with_number Scenario.half))
      = Scenario.half)
  /\ (spawned_workers (Some (Scenario.with_number Js.nan)) = 0%nat /\
      effective_concurrency (Some (Scenario.with_number Js.nan)) = Js.nan).
Proof.
  split; [vm_compute; discriminate|].
  split; [|split]; split; vm_compute; reflexivity.
Qed.

(** C1, amended.  The number of workers is 1 when the requested concurrency
    is above 0 and 0 otherwise, the requested concurrency being 4 when the
    option is absent: one worker when the request is absent, at least 1, a
    fraction above 0 or [Infinity]; none when it is 0, negative or NaN.  The
    loop makes two turns at most, and the count never exceeds 1. *)
Theorem C1_worker_count (options : option DeploymentOptions) :
  spawned_workers options
  = (if Js.lt (Js.of_Z 0) (requested_concurrency options) then 1 else 0)%nat
  /\ (forall fuel,
         push_workers (S (S fuel)) 0 (effective_concurrency options)
         = spawned_workers options)
  /\ (spawned_workers options <= 1)%nat
  /\ requested_concurrency None = Js.of_Z 4
  /\ (forall o, options = Some o -> concurrency o = None ->
                requested_concurrency options = Js.of_Z 4)
  /\ (option_of options concurrency = None -> spawned_workers options = 1%nat)
  /\ (Js.lt (Js.of_Z 0) (requested_concurrency options) = true ->
      spawned_workers options = 1%nat)
  /\ (Js.lt (Js.of_Z 0) (requested_concurrency options) = false ->
      spawned_workers options = 0%nat).
Proof.
  split; [apply spawned_workers_count|].
  split; [apply spawned_workers_fuel|].
  split; [apply spawned_workers_le_1|].
  split; [reflexivity|].
  split; [intros o -> H; unfold requested_concurrency; now rewrite H|].
  split.
  { intros H. apply spawned_workers_one.
    unfold requested_concurrency, option_of in *.
    destruct options as [o|]; [rewrite H|]; reflexivity. }
  split; [apply spawned_workers_one | apply spawned_workers_zero].
Qed.

Lemma C1_witness :
  spawned_workers None = 1%nat /\
  spawned_workers (Some (Scenario.with_concurrency 8)) = 1%nat /\
  spawned_workers (Some (Scenario.with_concurrency 0)) = 0%nat /\
  spawned_workers (Some (Scenario.with_number Scenario.half)) = 1%nat /\
  spawned_workers (Some (Scenario.with_number (S754_infinity false))) = 1%nat.
Proof.
  split; [|split; [|split; [|split]]].
  - destruct (C1_worker_count None) as (_ & _ & _ & _ & _ & H & _).
    apply H. reflexivity.
  - destruct (C1_worker_count (Some (Scenario.with_concurrency 8)))
      as (_ & _ & _ & _ & _ & _ & H & _).
    apply H. vm_compute. reflexivity.
  - destruct (C1_worker_count (Some (Scenario.with_concurrency 0)))
      as (_ & _ & _ & _ & _ & _ & _ & H).
    apply H. vm_compute. reflexivity.
  - destruct (C1_worker_count (Some (Scenario.with_number Scenario.half)))
      as (_ & _ & _ & _ & _ & _ & H & _).
    apply H. vm_compute. reflexivity.
  - destruct (C1_worker_count
                (Some (Scenario.with_number (S754_infinity false))))
      as (_ & _ & _ & _ & _ & _ & H & _).
    apply H. vm_compute. reflexivity.
Defined.

(* ================================================================== *)
(** * Directory mode *)
(* ================================================================== *)

Lemma substring_from_app (a b : string) :
  Str.substring_from (String.length a) (a ++ b) = b.
Proof. induction a as [|c r IH]; simpl; [now destruct b | exact IH]. Qed.

Lemma length_snoc (a : string) (c : ascii) :
  String.length (a ++ String c EmptyString) = (String.length a + 1)%nat.
Proof. induction a as [|d r IH]; simpl; [reflexivity | now rewrite IH]. Qed.

Lemma append_assoc (a b c : string) : (a ++ b) ++ c = a ++ (b ++ c).
Proof. induction a as [|d r IH]; simpl; [reflexivity | now rewrite IH]. Qed.

(** Below a directory other than the root, [resolve] joins with one
    separator, and the result is no root either. *)
Lemma nonroot_not_root (dir : string) :
  Path.nonroot dir = true -> String.eqb dir "/" = false.
Proof.
  destruct dir as [|c [|d r]]; try discriminate. intros _. cbn.
  now destruct (Ascii.eqb c "/").
Qed.

Lemma resolve_nonroot (dir name : string) :
  Path.nonroot dir = true -> Path.resolve dir name = dir ++ "/" ++ name.
Proof. intros H. unfold Path.resolve. now rewrite (nonroot_not_root dir H). Qed.

Lemma nonroot_resolve (dir name : string) :
  Path.nonroot dir = true -> Path.nonroot (Path.resolve dir name) = true.
Proof.
  intros H. rewrite (resolve_nonroot dir name H).
  destruct dir as [|c [|d r]]; try discriminate. exact H.
Qed.

(** At the root [resolve] adds no separator, and the relative path loses the
    first character of the name. *)
Lemma relative_at_root (name : string) :
  relative_to "/" (Path.resolve "/" name) = Str.substring1 name.
Proof. now destruct name. Qed.

(** The path of an entry of the root, relative to the root, is its name. *)
Lemma relative_to_resolve (base name : string) :
  Path.nonroot base = true ->
  relative_to base (Path.resolve base name) = name.
Proof.
  intros Hbase. rewrite (resolve_nonroot base name Hbase). unfold relative_to.
  rewrite <- (length_snoc base "/").
  change (base ++ "/" ++ name) with (base ++ ("/" ++ name)).
  rewrite <- (append_assoc base "/" name).
  apply substring_from_app.
Qed.

Lemma lacks_app (c : ascii) (a b : string) :
  Str.lacks c (a ++ b) = Str.lacks c a && Str.lacks c b.
Proof.
  induction a as [|d r IH]; simpl; [reflexivity|].
  rewrite IH. now rewrite andb_assoc.
Qed.

Lemma special_lacks_slash (relative : string) :
  special relative = true -> Str.lacks "/" relative = true.
Proof.
  unfold special. intros H.
  apply orb_true_iff in H as [H|H]; [apply orb_true_iff in H as [H|H]|];
    apply String.eqb_eq in H; subst; reflexivity.
Qed.

(** Every file listed under an entry has a path below [path]. *)
Lemma readDirEntry_below (dirent : Dirent) :
  forall path file data,
    Path.nonroot path = true ->
    In (file, data) (readDirEntry path dirent) ->
    exists suffix, file = Path.resolve path suffix.
Proof.
  revert dirent. fix below 1.
  intros [name d | name entries] path file data Hpath Hin.
  - simpl in Hin. destruct Hin as [Heq|[]]. injection Heq as <- _.
    now exists name.
  - simpl in Hin. revert Hin.
    induction entries as [|e es IH]; simpl; intros Hin; [contradiction|].
    apply in_app_or in Hin as [Hin|Hin].
    + destruct (below e _ _ _ (nonroot_resolve path name Hpath) Hin)
        as [suffix ->].
      exists (name ++ "/" ++ suffix).
      rewrite (resolve_nonroot _ suffix (nonroot_resolve path name Hpath)).
      rewrite !(resolve_nonroot path _ Hpath).
      now rewrite !append_assoc.
    + now apply IH.
Qed.

(** A file below a subdirectory of the root has a [/] in its relative path,
    so it is none of the three special names. *)
Lemma nested_not_special (base name : string) (entries : list Dirent)
    (file : string) (data : Buffer.t) :
  Path.nonroot base = true ->
  In (file, data) (readDirEntry base (DirEntry name entries)) ->
  special (relative_to base file) = false.
Proof.
  intros Hbase Hin. simpl in Hin. apply in_flat_map in Hin as (e & _ & Hin).
  destruct (readDirEntry_below e _ _ _ (nonroot_resolve base name Hbase) Hin)
    as [suffix ->].
  replace (Path.resolve (Path.resolve base name) suffix)
    with (Path.resolve base (name ++ "/" ++ suffix)).
  2:{ rewrite (resolve_nonroot _ suffix (nonroot_resolve base name Hbase)).
      rewrite !(resolve_nonroot base _ Hbase). now rewrite !append_assoc. }
  rewrite (relative_to_resolve base _ Hbase).
  destruct (special (name ++ "/" ++ suffix)) eqn:Hs; [|reflexivity].
  apply special_lacks_slash in Hs. rewrite lacks_app in Hs.
  simpl in Hs. now rewrite andb_false_r in Hs.
Qed.

Lemma collect_options (P : Platform) (base : string)
    (yielded : list (string * Buffer.t)) (options : DeploymentOptions) :
  fst (collect P base yielded options)
  = fold_left (fun o fd => capture P base fd o) yielded options.
Proof.
  revert options. induction yielded as [|[file data] rest IH]; intros o; simpl.
  - reflexivity.
  - unfold capture; simpl fst; simpl snd.
    destruct (String.eqb (relative_to base file) "_headers"); [apply IH|].
    destruct (String.eqb (relative_to base file) "_redirects"); [apply IH|].
    destruct (String.eqb (relative_to base file) "_worker.js"); [apply IH|].
    rewrite <- IH. now destruct (collect P base rest o).
Qed.

(** The files pushed are the files listed whose relative path is none of the
    three names, in the order of the listing. *)
Lemma collect_files (P : Platform) (base : string)
    (yielded : list (string * Buffer.t)) (options : DeploymentOptions) :
  snd (collect P base yielded options)
  = map (fun fd => (fst fd, relative_to base (fst fd), snd fd))
      (filter (fun fd => negb (special (relative_to base (fst fd)))) yielded).
Proof.
  revert options. induction yielded as [|[file data] rest IH]; intros o; simpl.
  - reflexivity.
  - assert (Hs : special (relative_to base file)
                 = (String.eqb (relative_to base file) "_headers"
                    || String.eqb (relative_to base file) "_redirects"
                    || String.eqb (relative_to base file) "_worker.js"))
      by reflexivity.
    rewrite Hs.
    destruct (String.eqb (relative_to base file) "_headers"); [apply IH|].
    destruct (String.eqb (relative_to base file) "_redirects"); [apply IH|].
    destruct (String.eqb (relative_to base file) "_worker.js"); [apply IH|].
    simpl. rewrite <- (IH o). now destruct (collect P base rest o).
Qed.

Section Slot.

(** One of the three special options: the name compared with and the field
    assigned. *)
Variable P : Platform.
Variable name : string.
Variable get : DeploymentOptions -> option string.
Variable base : string.

Hypothesis capture_get : forall fd o,
  get (capture P base fd o)
  = if String.eqb (relative_to base (fst fd)) name && negb (truthy_opt (get o))
    then Some (utf8 P (snd fd)) else get o.

Let scan (l : list (string * Buffer.t)) (o : DeploymentOptions) :=
  fold_left (fun o fd => capture P base fd o) l o.

Lemma slot_kept (l : list (string * Buffer.t)) (o : DeploymentOptions) :
  truthy_opt (get o) = true -> get (scan l o) = get o.
Proof.
  revert o. induction l as [|fd rest IH]; intros o Ht; simpl; [reflexivity|].
  assert (Hstep : get (capture P base fd o) = get o).
  { rewrite capture_get, Ht. simpl. now rewrite andb_false_r. }
  unfold scan in IH. rewrite IH; [exact Hstep | now rewrite Hstep].
Qed.

Lemma slot_untouched (l : list (string * Buffer.t)) (o : DeploymentOptions) :
  existsb (fun fd => String.eqb (relative_to base (fst fd)) name) l = false ->
  get (scan l o) = get o.
Proof.
  revert o. induction l as [|fd rest IH]; intros o Hno; simpl; [reflexivity|].
  simpl in Hno. apply orb_false_iff in Hno as [Hfd Hrest].
  unfold scan in IH. rewrite (IH _ Hrest). rewrite capture_get, Hfd.
  reflexivity.
Qed.

Lemma slot_captured (l : list (string * Buffer.t)) (o : DeploymentOptions) :
  truthy_opt (get o) = false ->
  existsb (fun fd => String.eqb (relative_to base (fst fd)) name) l = true ->
  exists fd, In fd l /\ relative_to base (fst fd) = name
             /\ get (scan l o) = Some (utf8 P (snd fd)).
Proof.
  revert o. induction l as [|fd rest IH]; intros o Hf Hex; simpl in *.
  - discriminate Hex.
  - destruct (String.eqb (relative_to base (fst fd)) name) eqn:Hfd.
    + assert (Hstep : get (capture P base fd o) = Some (utf8 P (snd fd))).
      { rewrite capture_get, Hfd, Hf. reflexivity. }
      destruct (truthy_opt (Some (utf8 P (snd fd)))) eqn:Htr.
      * exists fd. split; [now left|]. split; [now apply String.eqb_eq|].
        fold (scan rest (capture P base fd o)).
        rewrite slot_kept; [exact Hstep | now rewrite Hstep].
      * destruct (existsb
                    (fun fd => String.eqb (relative_to base (fst fd)) name)
                    rest) eqn:Hrest.
        -- destruct (IH (capture P base fd o)) as (fd' & Hin & Hrel & Hget);
             [now rewrite Hstep | reflexivity |].
           exists fd'. split; [now right|]. now split.
        -- exists fd. split; [now left|]. split; [now apply String.eqb_eq|].
           fold (scan rest (capture P base fd o)).
           now rewrite slot_untouched.
    + simpl in Hex.
      destruct (IH (capture P base fd o)) as (fd' & Hin & Hrel & Hget).
      * rewrite capture_get, Hfd. exact Hf.
      * exact Hex.
      * exists fd'. split; [now right|]. now split.
Qed.

End Slot.

Ltac slot_cases :=
  intros [file data] o; unfold capture; simpl fst; simpl snd;
  repeat match goal with
         | |- context [String.eqb ?a ?b] =>
             let H := fresh "Hq" in
             destruct (String.eqb a b) eqn:H;
             [apply String.eqb_eq in H; try rewrite H in *; try discriminate|]
         | |- context [truthy_opt ?x] => destruct (truthy_opt x)
         end;
  simpl; try reflexivity; try congruence.

Lemma capture_headers (P : Platform) (base : string) : forall fd o,
  headers (capture P base fd o)
  = if String.eqb (relative_to base (fst fd)) "_headers"
       && negb (truthy_opt (headers o))
    then Some (utf8 P (snd fd)) else headers o.
Proof. slot_cases. Qed.

Lemma capture_redirects (P : Platform) (base : string) : forall fd o,
  redirects (capture P base fd o)
  = if String.eqb (relative_to base (fst fd)) "_redirects"
       && negb (truthy_opt (redirects o))
    then Some (utf8 P (snd fd)) else redirects o.
Proof. slot_cases. Qed.

Lemma capture_worker (P : Platform) (base : string) : forall fd o,
  worker (capture P base fd o)
  = if String.eqb (relative_to base (fst fd)) "_worker.js"
       && negb (truthy_opt (worker o))
    then Some (utf8 P (snd fd)) else worker o.
Proof. slot_cases. Qed.

Lemma existsb_listed (base name : string) (data : Buffer.t) (root : list Dirent) :
  Path.nonroot base = true ->
  In (FileEntry name data) root ->
  existsb (fun fd => String.eqb (relative_to base (fst fd)) name)
    (readDirRecursive base root) = true.
Proof.
  intros Hbase Hin. apply existsb_exists.
  exists (Path.resolve base name, data). split.
  - unfold readDirRecursive. apply in_flat_map.
    exists (FileEntry name data). split; [exact Hin | now left].
  - simpl. rewrite (relative_to_resolve base name Hbase). apply String.eqb_refl.
Qed.

(** A listed file whose relative path is a special name is an entry of the
    root itself. *)
Lemma special_is_root_entry (base : string) (root : list Dirent)
    (fd : string * Buffer.t) :
  Path.nonroot base = true ->
  In fd (readDirRecursive base root) ->
  special (relative_to base (fst fd)) = true ->
  In (FileEntry (relative_to base (fst fd)) (snd fd)) root.
Proof.
  intros Hbase Hin Hs. unfold readDirRecursive in Hin.
  apply in_flat_map in Hin as (e & He & Hin).
  destruct fd as [file data]. destruct e as [name d | name entries].
  - simpl in Hin. destruct Hin as [Heq|[]]. injection Heq as <- <-.
    simpl. now rewrite (relative_to_resolve base name Hbase).
  - simpl fst in Hs. rewrite (nested_not_special _ _ _ _ _ Hbase Hin) in Hs.
    discriminate Hs.
Qed.

Section Capture.

Variable P : Platform.
Variable name : string.
Variable get : DeploymentOptions -> option string.
Variable base : string.
Hypothesis base_nonroot : Path.nonroot base = true.
Hypothesis name_special : special name = true.
Hypothesis capture_get : forall fd o,
  get (capture P base fd o)
  = if String.eqb (relative_to base (fst fd)) name && negb (truthy_opt (get o))
    then Some (utf8 P (snd fd)) else get o.

Lemma root_entry_captured (root : list Dirent) (o : DeploymentOptions)
    (data : Buffer.t) :
  In (FileEntry name data) root ->
  truthy_opt (get o) = false ->
  exists data',
    In (FileEntry name data') root /\
    get (fst (collect P base (readDirRecursive base root) o)) = Some (utf8 P data').
Proof.
  intros Hin Hf. rewrite collect_options.
  destruct (slot_captured P name get base capture_get
              (readDirRecursive base root) o Hf
              (existsb_listed base name data root base_nonroot Hin))
    as (fd & Hfd & Hrel & Hget).
  exists (snd fd). split; [|exact Hget].
  rewrite <- Hrel. apply special_is_root_entry; [exact base_nonroot | exact Hfd|].
  now rewrite Hrel.
Qed.

Lemma caller_value_kept (root : list Dirent) (o : DeploymentOptions) :
  truthy_opt (get o) = true ->
  get (fst (collect P base (readDirRecursive base root) o)) = get o.
Proof.
  intros Ht. rewrite collect_options.
  now apply (slot_kept P name get base capture_get).
Qed.

End Capture.

(** C4, as stated, fails: a [_headers] file in a subdirectory is deployed as
    an ordinary file and sets no option; and an option the caller supplies as
    the empty string is replaced by the file found. *)
Lemma C4_counterexample :
  (let r := collect Scenario.platform "/site"
              (readDirRecursive "/site"
                 [DirEntry "sub" [FileEntry "_headers" (Buffer.of_string "/* X: 1")]])
              empty_options in
   headers (fst r) = None /\
   snd r = [("/site/sub/_headers", "sub/_headers", Buffer.of_string "/* X: 1")])
  /\
  headers (fst (collect Scenario.platform "/site"
                  (readDirRecursive "/site"
                     [FileEntry "_headers" (Buffer.of_string "from disk")])
                  (set_headers empty_options EmptyString)))
  = Some "from disk".
Proof. vm_compute. repeat split. Qed.

(** At the root of the file system nothing is found under its own name: the
    listing gives [/_headers] and [/index.html], and cutting [base.length + 1]
    characters leaves [headers] and [ndex.html], both deployed. *)
Example at_the_file_system_root :
  let r := collect Scenario.platform "/"
             (readDirRecursive "/"
                [FileEntry "_headers" (Buffer.of_string "/* X: 1");
                 FileEntry "index.html" (Buffer.of_string "A")])
             empty_options in
  headers (fst r) = None /\
  snd r = [("/_headers", "headers", Buffer.of_string "/* X: 1");
           ("/index.html", "ndex.html", Buffer.of_string "A")].
Proof. vm_compute. repeat split. Qed.

(** C4, amended.  In directory mode on a directory other than the root of
    the file system, a file named [_headers], [_redirects] or [_worker.js]
    directly in the directory is captured as the corresponding option, with
    the text [readFile(file, 'utf8')] gives for it, and is not deployed;
    files of these names in subdirectories are deployed as ordinary files;
    and an option the caller supplied with a non-empty value is never
    replaced. *)
Theorem C4_root_level_special_files (P : Platform)
    (base : string) (root : list Dirent) (options : DeploymentOptions) :
  Path.nonroot base = true ->
  let yielded := readDirRecursive base root in
  let options' := fst (collect P base yielded options) in
  let files := snd (collect P base yielded options) in
  (* captured, when the caller gave no non-empty value *)
  (forall data, In (FileEntry "_headers" data) root ->
     truthy_opt (headers options) = false ->
     exists data', In (FileEntry "_headers" data') root /\
                   headers options' = Some (utf8 P data'))
  /\ (forall data, In (FileEntry "_redirects" data) root ->
        truthy_opt (redirects options) = false ->
        exists data', In (FileEntry "_redirects" data') root /\
                      redirects options' = Some (utf8 P data'))
  /\ (forall data, In (FileEntry "_worker.js" data) root ->
        truthy_opt (worker options) = false ->
        exists data', In (FileEntry "_worker.js" data') root /\
                      worker options' = Some (utf8 P data'))
  (* not deployed *)
  /\ (forall file relative data,
        In (file, relative, data) files -> special relative = false)
  (* the caller's non-empty value stays *)
  /\ (truthy_opt (headers options) = true -> headers options' = headers options)
  /\ (truthy_opt (redirects options) = true ->
      redirects options' = redirects options)
  /\ (truthy_opt (worker options) = true -> worker options' = worker options)
  (* below the root, every file is deployed, whatever its name *)
  /\ (forall name entries file data,
        In (DirEntry name entries) root ->
        In (file, data) (readDirEntry base (DirEntry name entries)) ->
        In (file, relative_to base file, data) files).
Proof.
  intros Hbase. cbv zeta. repeat split.
  - intros data. apply (root_entry_captured P "_headers" headers base Hbase
                          eq_refl (capture_headers P base)).
  - intros data. apply (root_entry_captured P "_redirects" redirects base Hbase
                          eq_refl (capture_redirects P base)).
  - intros data. apply (root_entry_captured P "_worker.js" worker base Hbase
                          eq_refl (capture_worker P base)).
  - intros file relative data Hin. rewrite collect_files in Hin.
    apply in_map_iff in Hin as (fd & Heq & Hfd).
    injection Heq as _ <- _.
    apply filter_In in Hfd as [_ Hns]. now apply negb_true_iff in Hns.
  - apply (caller_value_kept P "_headers" headers base (capture_headers P base)).
  - apply (caller_value_kept P "_redirects" redirects base
             (capture_redirects P base)).
  - apply (caller_value_kept P "_worker.js" worker base (capture_worker P base)).
  - intros name entries file data Hroot Hin. rewrite collect_files.
    apply in_map_iff. exists (file, data). split; [reflexivity|].
    apply filter_In. split.
    + unfold readDirRecursive. apply in_flat_map.
      exists (DirEntry name entries). now split.
    + simpl fst. now rewrite (nested_not_special _ _ _ _ _ Hbase Hin).
Qed.

Lemma C4_witness :
  let root := [FileEntry "index.html" (Buffer.of_string "<p>hi</p>");
               FileEntry "_headers" (Buffer.of_string "/* X: 1");
               DirEntry "sub" [FileEntry "_headers" (Buffer.of_string "nested")]] in
  let r := collect Scenario.platform "/site" (readDirRecursive "/site" root)
             empty_options in
  (exists data', In (FileEntry "_headers" data') root /\
                 headers (fst r) = Some (utf8 Scenario.platform data'))
  /\ In ("/site/sub/_headers", "sub/_headers", Buffer.of_string "nested") (snd r).
Proof.
  cbv zeta.
  pose proof (C4_root_level_special_files Scenario.platform "/site"
    [FileEntry "index.html" (Buffer.of_string "<p>hi</p>");
     FileEntry "_headers" (Buffer.of_string "/* X: 1");
     DirEntry "sub" [FileEntry "_headers" (Buffer.of_string "nested")]]
    empty_options eq_refl) as H.
  cbv zeta in H. destruct H as (Hh & _ & _ & _ & _ & _ & _ & Hn).
  split.
  - apply (Hh (Buffer.of_string "/* X: 1")); [right; left; reflexivity | reflexivity].
  - apply (Hn "sub" [FileEntry "_headers" (Buffer.of_string "nested")]
              "/site/sub/_headers" (Buffer.of_string "nested")).
    + right; right; left; reflexivity.
    + left; reflexivity.
Defined.


(* ================================================================== *)
(** * Request client: retries and backoff *)
(* ================================================================== *)

Lemma fetches_app (t1 t2 : list Event) :
  fetches (t1 ++ t2) = (fetches t1 ++ fetches t2)%list.
Proof. apply flat_map_app. Qed.

Lemma sleeps_app (t1 t2 : list Event) :
  sleeps (t1 ++ t2) = (sleeps t1 ++ sleeps t2)%list.
Proof. apply flat_map_app. Qed.

Lemma steps_app (t1 t2 : list Event) :
  steps (t1 ++ t2) = (steps t1 ++ steps t2)%list.
Proof. apply flat_map_app. Qed.

Lemma result_of_mk {E A} (r : Thrown + A) (w : World E) (t : list Event) :
  result_of (r, w, t) = r.
Proof. reflexivity. Qed.

Lemma world_of_mk {E A} (r : Thrown + A) (w : World E) (t : list Event) :
  world_of (r, w, t) = w.
Proof. reflexivity. Qed.

Lemma trace_of_mk {E A} (r : Thrown + A) (w : World E) (t : list Event) :
  trace_of (r, w, t) = t.
Proof. reflexivity. Qed.

Ltac project := rewrite ?result_of_mk, ?world_of_mk, ?trace_of_mk.
Ltac project_in H := rewrite ?result_of_mk, ?world_of_mk, ?trace_of_mk in H.

Section Retry.

Variable E : Environment.
Context {T : Type}.
Variable parse : string -> option (ApiResult T).
Variables (url key : string) (options : RequestOptions).

Let attempt := doRequest (E := E) parse url key options.

(** One attempt sends exactly one request. *)
Lemma doRequest_trace (w : World E) :
  exists req, trace_of (attempt w) = [Fetch req].
Proof.
  unfold attempt, doRequest, bind, fetch.
  match goal with
  | |- context [env_fetch E ?r ?o] =>
      exists r; destruct (env_fetch E r o) as [[e|res] o']
  end; [reflexivity|].
  destruct (not_json (content_type res)); [reflexivity|].
  destruct (parse (text res)); reflexivity.
Qed.

Lemma attempt_cases (w : World E) :
  exists r w' req, attempt w = (r, w', [Fetch req]).
Proof.
  destruct (doRequest_trace w) as [req Hreq].
  destruct (attempt w) as [[r w'] t] eqn:Hrun. simpl in Hreq. subst t.
  now exists r, w', req.
Qed.

(** The [catch] block followed by the rest of the loop. *)
Lemma handler_run {A} (d : Js.number) (e : Thrown) (rest : M E A) (w : World E) :
  ((if ro_log options then emit (LogRetry url d e) else ret tt) ;;
   emit (Sleep d) ;; rest) w
  = (result_of (rest w), world_of (rest w),
     ((if ro_log options then [LogRetry url d e] else [])
        ++ Sleep d :: trace_of (rest w))%list).
Proof.
  unfold bind, emit, ret, result_of, world_of, trace_of.
  destruct (ro_log options); destruct (rest w) as [[r w'] t]; reflexivity.
Qed.

Lemma retry_loop_step (remaining count : nat) (last : Thrown) (w : World E) :
  retry_loop parse url key options (S remaining) count last w
  = match attempt w with
    | (inl e, w1, t1) =>
        let rest := retry_loop parse url key options remaining (S count) e w1 in
        (result_of rest, world_of rest,
         (t1 ++ (if ro_log options
                 then [LogRetry url (backoff_delay E (S count)) e] else [])
             ++ Sleep (backoff_delay E (S count)) :: trace_of rest)%list)
    | (inr a, w1, t1) => (inr a, w1, t1)
    end.
Proof.
  cbn [retry_loop]. unfold try_catch. fold attempt.
  destruct (attempt w) as [[[e|a] w1] t1]; [|reflexivity].
  rewrite handler_run. reflexivity.
Qed.

Lemma sleeps_log (d : Js.number) (e : Thrown) :
  sleeps (if ro_log options then [LogRetry url d e] else []) = [].
Proof. now destruct (ro_log options). Qed.

Lemma fetches_log (d : Js.number) (e : Thrown) :
  fetches (if ro_log options then [LogRetry url d e] else []) = [].
Proof. now destruct (ro_log options). Qed.

Lemma steps_log (d : Js.number) (e : Thrown) :
  steps (if ro_log options then [LogRetry url d e] else []) = [].
Proof. now destruct (ro_log options). Qed.

(** The loop enters no index operation. *)
Lemma retry_loop_steps (remaining count : nat) (last : Thrown) (w : World E) :
  steps (trace_of (retry_loop parse url key options remaining count last w)) = [].
Proof.
  revert count last w.
  induction remaining as [|n IH]; intros count last w; [reflexivity|].
  rewrite retry_loop_step.
  destruct (attempt_cases w) as (r & w1 & req & Hrun). rewrite Hrun.
  destruct r as [e|a]; [|reflexivity].
  cbv zeta. project.
  rewrite !steps_app, steps_log. cbn [steps flat_map step_of app].
  apply IH.
Qed.

(** [k] failed attempts, then a successful one, within the budget. *)
Lemma retry_loop_returns (k : nat) :
  forall (remaining count : nat) (last : Thrown) (w wk : World E)
         (ek : Thrown) (r : ApiResult T) (w' : World E) (t : list Event),
    (k < remaining)%nat ->
    after_failures parse url key options k w last = Some (wk, ek) ->
    attempt wk = (inr r, w', t) ->
    let run := retry_loop parse url key options remaining count last w in
    result_of run = inr r /\ world_of run = w' /\
    List.length (fetches (trace_of run)) = S k /\
    sleeps (trace_of run) = map (backoff_delay E) (seq (S count) k).
Proof.
  induction k as [|k IH];
    intros remaining count last w wk ek r w' t Hlt Hfail Hok;
    destruct remaining as [|n]; try lia; cbv zeta; rewrite retry_loop_step.
  - injection Hfail as <- <-. rewrite Hok.
    destruct (attempt_cases w) as (r0 & w0 & req & Hrun).
    rewrite Hok in Hrun. injection Hrun as _ _ ->. now repeat split.
  - cbn [after_failures] in Hfail. fold attempt in Hfail.
    destruct (attempt_cases w) as (r0 & w1 & req & Hrun).
    rewrite Hrun in Hfail |- *. destruct r0 as [e|a]; [|discriminate Hfail].
    destruct (IH n (S count) e w1 wk ek r w' t ltac:(lia) Hfail Hok)
      as (Hr & Hw & Hf & Hs).
    cbv zeta. project. repeat split; [exact Hr | exact Hw | |].
    + rewrite !fetches_app, fetches_log. cbn [fetches flat_map app].
      cbn [List.length]. fold (fetches (trace_of
        (retry_loop parse url key options n (S count) e w1))).
      now rewrite Hf.
    + rewrite !sleeps_app, sleeps_log. cbn [sleeps flat_map app].
      fold (sleeps (trace_of
        (retry_loop parse url key options n (S count) e w1))).
      rewrite Hs. reflexivity.
Qed.

(** Every attempt of the budget fails. *)
Lemma retry_loop_throws (remaining : nat) :
  forall (count : nat) (last : Thrown) (w wk : World E) (ek : Thrown),
    after_failures parse url key options remaining w last = Some (wk, ek) ->
    let run := retry_loop parse url key options remaining count last w in
    result_of run = inl ek /\ world_of run = wk /\
    List.length (fetches (trace_of run)) = remaining /\
    sleeps (trace_of run) = map (backoff_delay E) (seq (S count) remaining).
Proof.
  induction remaining as [|n IH]; intros count last w wk ek Hfail; cbv zeta.
  - injection Hfail as <- <-. now repeat split.
  - rewrite retry_loop_step.
    cbn [after_failures] in Hfail. fold attempt in Hfail.
    destruct (attempt_cases w) as (r0 & w1 & req & Hrun).
    rewrite Hrun in Hfail |- *. destruct r0 as [e|a]; [|discriminate Hfail].
    destruct (IH (S count) e w1 wk ek Hfail) as (Hr & Hw & Hf & Hs).
    cbv zeta. project. repeat split; [exact Hr | exact Hw | |].
    + rewrite !fetches_app, fetches_log. cbn [fetches flat_map app].
      cbn [List.length]. fold (fetches (trace_of
        (retry_loop parse url key options n (S count) e w1))).
      now rewrite Hf.
    + rewrite !sleeps_app, sleeps_log. cbn [sleeps flat_map app].
      fold (sleeps (trace_of
        (retry_loop parse url key options n (S count) e w1))).
      rewrite Hs. reflexivity.
Qed.

(** Whatever the outside world does: one delay per failed attempt, the
    [n]-th one computed from the attempt number [count + n]. *)
Lemma retry_loop_sleeps (remaining : nat) :
  forall (count : nat) (last : Thrown) (w : World E),
    let run := retry_loop parse url key options remaining count last w in
    let failed := List.length (sleeps (trace_of run)) in
    sleeps (trace_of run) = map (backoff_delay E) (seq (S count) failed) /\
    List.length (fetches (trace_of run))
    = (failed + if returned (result_of run) then 1 else 0)%nat /\
    (failed <= remaining)%nat /\
    (returned (result_of run) = false -> failed = remaining).
Proof.
  induction remaining as [|n IH]; intros count last w; cbv zeta.
  - cbn. split; [|split; [|split]]; try reflexivity; lia.
  - rewrite retry_loop_step.
    destruct (attempt_cases w) as (r0 & w1 & req & Hrun). rewrite Hrun.
    destruct r0 as [e|a].
    + destruct (IH (S count) e w1) as (Hs & Hf & Hle & Hall).
      cbv zeta. project.
      rewrite !sleeps_app, !fetches_app, sleeps_log, fetches_log.
      cbn [fetches sleeps flat_map app List.length].
      fold (fetches (trace_of
        (retry_loop parse url key options n (S count) e w1))).
      fold (sleeps (trace_of
        (retry_loop parse url key options n (S count) e w1))).
      split; [|split; [|split]].
      * cbn [seq map]. f_equal. exact Hs.
      * rewrite Hf. reflexivity.
      * lia.
      * intros H. f_equal. now apply Hall.
    + project. cbn. split; [|split; [|split]];
        try reflexivity; try lia; try discriminate.
Qed.

End Retry.

(** What an attempt does with the answer to its request: a rejection, a
    content type that is not JSON and a text [JSON.parse] refuses are thrown;
    an envelope of either kind is returned. *)
Lemma doRequest_outcome (E : Environment) {T : Type}
    (parse : string -> option (ApiResult T)) (url key : string)
    (options : RequestOptions) (w : World E) :
  exists req,
    trace_of (doRequest parse url key options w) = [Fetch req] /\
    result_of (doRequest parse url key options w)
    = match fst (env_fetch E req (outside w)) with
      | inl e => inl e
      | inr res =>
          if not_json (content_type res) then inl (ExpectingJson (text res))
          else match parse (text res) with
               | Some r => inr r
               | None => inl (SyntaxError (text res))
               end
      end.
Proof.
  unfold doRequest, bind, fetch.
  match goal with
  | |- context [env_fetch E ?r ?o] =>
      exists r; destruct (env_fetch E r o) as [[e|res] o']
  end; [now split|].
  cbn [fst]. destruct (not_json (content_type res)); [now split|].
  destruct (parse (text res)); now split.
Qed.

(** C5.  With the default budget of five attempts, the wrapper invokes the
    request again only after an attempt has thrown: [k < 5] failed attempts
    followed by one that returns give that result after [k + 1] requests (so
    four failures and a success on the fifth return the success); five failed
    attempts re-throw the error of the fifth after exactly five requests; and
    a [success: false] envelope is returned as it is, after a single
    request. *)
Theorem C5_retry_wrapper (E : Environment) {T : Type}
    (parse : string -> option (ApiResult T)) (url key : string)
    (options : RequestOptions) (w : World E) :
  let run := doRequestWithRetries parse url key options default_retries w in
  (forall k wk ek r w' t,
      (k < 5)%nat ->
      after_failures parse url key options k w ThrownUndefined = Some (wk, ek) ->
      doRequest parse url key options wk = (inr r, w', t) ->
      result_of run = inr r /\ world_of run = w' /\
      List.length (fetches (trace_of run)) = S k)
  /\ (forall w5 e5,
        after_failures parse url key options 5 w ThrownUndefined = Some (w5, e5) ->
        result_of run = inl e5 /\ world_of run = w5 /\
        List.length (fetches (trace_of run)) = 5%nat)
  /\ (forall errors w' t,
        doRequest parse url key options w = (inr (Failure errors), w', t) ->
        result_of run = inr (Failure errors) /\ world_of run = w' /\
        List.length (fetches (trace_of run)) = 1%nat).
Proof.
  cbv zeta. unfold doRequestWithRetries, default_retries.
  split; [|split].
  - intros k wk ek r w' t Hk Hfail Hok.
    destruct (retry_loop_returns E parse url key options k 5 0 ThrownUndefined
                w wk ek r w' t Hk Hfail Hok) as (Hr & Hw & Hf & _).
    now repeat split.
  - intros w5 e5 Hfail.
    destruct (retry_loop_throws E parse url key options 5 0 ThrownUndefined
                w w5 e5 Hfail) as (Hr & Hw & Hf & _).
    now repeat split.
  - intros errors w' t Hok.
    destruct (retry_loop_returns E parse url key options 0 5 0 ThrownUndefined
                w w ThrownUndefined (Failure errors) w' t
                ltac:(lia) eq_refl Hok) as (Hr & Hw & Hf & _).
    now repeat split.
Qed.

Lemma C5_witness :
  let request := doRequestWithRetries (E := Scenario.scripted)
                   (parse_unknown Scenario.platform) "/pages/assets/upload" "key"
                   no_options default_retries in
  let flaky := [Scenario.down; Scenario.html "<h1>502</h1>"; Scenario.down;
                Scenario.json "?"; Scenario.json "ok"; Scenario.json "unused"] in
  let dead := [Scenario.down; Scenario.down; Scenario.down; Scenario.down;
               Scenario.html "<h1>502</h1>"; Scenario.json "ok"] in
  let refused := [Scenario.json "!quota"; Scenario.json "ok"] in
  (result_of (request (Scenario.start flaky [])) = inr (Success tt) /\
   List.length (fetches (trace_of (request (Scenario.start flaky [])))) = 5%nat)
  /\ (result_of (request (Scenario.start dead []))
      = inl (ExpectingJson "<h1>502</h1>") /\
      List.length (fetches (trace_of (request (Scenario.start dead [])))) = 5%nat)
  /\ (result_of (request (Scenario.start refused []))
      = inr (Failure [{| code := 8000000; message := "!quota" |}]) /\
      List.length (fetches (trace_of (request (Scenario.start refused [])))) = 1%nat).
Proof.
  cbv zeta. split; [|split].
  - destruct (C5_retry_wrapper Scenario.scripted
                (parse_unknown Scenario.platform) "/pages/assets/upload" "key"
                no_options
                (Scenario.start
                   [Scenario.down; Scenario.html "<h1>502</h1>"; Scenario.down;
                    Scenario.json "?"; Scenario.json "ok"; Scenario.json "unused"]
                   [])) as (H & _ & _).
    edestruct (H 4%nat) as (Hr & _ & Hf);
      [lia | reflexivity | reflexivity |].
    split; [exact Hr | exact Hf].
  - destruct (C5_retry_wrapper Scenario.scripted
                (parse_unknown Scenario.platform) "/pages/assets/upload" "key"
                no_options
                (Scenario.start
                   [Scenario.down; Scenario.down; Scenario.down; Scenario.down;
                    Scenario.html "<h1>502</h1>"; Scenario.json "ok"]
                   [])) as (_ & H & _).
    edestruct H as (Hr & _ & Hf); [reflexivity|].
    split; [exact Hr | exact Hf].
  - destruct (C5_retry_wrapper Scenario.scripted
                (parse_unknown Scenario.platform) "/pages/assets/upload" "key"
                no_options
                (Scenario.start [Scenario.json "!quota"; Scenario.json "ok"] []))
      as (_ & _ & H).
    edestruct H as (Hr & _ & Hf); [reflexivity|].
    split; [exact Hr | exact Hf].
Defined.

(** ** The delays *)

(** The delay is a double, computed from the power the engine returns.  When
    that power is at least 60 the delay is 60000 exactly; below, it is the
    rounded product. *)
Lemma min_capped (x : Js.number) :
  Js.le (Js.of_Z 60) x = true -> Js.min x (Js.of_Z 60) = Js.of_Z 60.
Proof.
  unfold Js.le, SFleb, Js.min. rewrite (SFcompare_antisym x (Js.of_Z 60)).
  destruct (SFcompare x (Js.of_Z 60)) as [[| |]|] eqn:Hc; cbn [option_map CompOpp];
    try discriminate; [|reflexivity].
  intros _. destruct x as [[|]| | |]; try reflexivity; discriminate Hc.
Qed.

Lemma SFcompare_refl (y : Js.number) :
  y <> S754_nan -> SFcompare y y = Some Eq.
Proof.
  destruct y as [s|s| |s m e]; intros H; cbn; try reflexivity;
    [now destruct s | contradiction |].
  destruct s; rewrite Z.compare_refl, Pos.compare_cont_refl; reflexivity.
Qed.

Lemma SFcompare_defined (x y : Js.number) (c : comparison) :
  SFcompare x y = Some c -> y <> S754_nan.
Proof. intros H ->. destruct x; discriminate H. Qed.

Lemma min_at_most (x y : Js.number) :
  Js.min x y = Js.nan \/ Js.le (Js.min x y) y = true.
Proof.
  unfold Js.min, Js.le, SFleb.
  destruct (SFcompare x y) as [c|] eqn:Hc; [right | now left].
  pose proof (SFcompare_refl y (SFcompare_defined x y c Hc)) as Hyy.
  destruct c.
  - destruct x as [[|]| | |]; rewrite ?Hc, ?Hyy; reflexivity.
  - now rewrite Hc.
  - now rewrite Hyy.
Qed.

Lemma backoff_capped (E : Environment) (n : nat) :
  Js.le (Js.of_Z 60) (env_pow E (Js.of_nat n) Js.two_and_a_half) = true ->
  backoff_delay E n = Js.of_Z 60000.
Proof. intros H. unfold backoff_delay. now rewrite (min_capped _ H). Qed.

(** The power over the reals, which the engine approximates. *)
Local Open Scope R_scope.

Lemma Rpower_5_2 (x : R) : 0 < x -> Rpower x (5 / 2) = x * x * sqrt x.
Proof.
  intros Hx. replace (5 / 2) with (INR 2 + / 2) by (simpl; lra).
  rewrite Rpower_plus, Rpower_pow, Rpower_sqrt by exact Hx.
  simpl. ring.
Qed.

Lemma sqrt_4 : sqrt 4 = 2.
Proof. replace 4 with (2 * 2) by lra. apply sqrt_square. lra. Qed.

Lemma Rpower_5_2_at_6 : 60 <= Rpower 6 (5 / 2).
Proof.
  rewrite Rpower_5_2 by lra.
  assert (2 <= sqrt 6) by (rewrite <- sqrt_4; apply sqrt_le_1_alt; lra).
  nra.
Qed.

Lemma Rpower_5_2_at_5 : Rpower 5 (5 / 2) < 60.
Proof.
  rewrite Rpower_5_2 by lra.
  assert (sqrt 5 < 12 / 5).
  { replace (12 / 5) with (sqrt ((12 / 5) * (12 / 5)))
      by (apply sqrt_square; lra).
    apply sqrt_lt_1_alt. lra. }
  nra.
Qed.

Lemma INR_ge_1 (n : nat) : (1 <= n)%nat -> 1 <= INR n.
Proof. intros H. replace 1 with (INR 1) by reflexivity. now apply le_INR. Qed.

Lemma real_power_below_60 (n : nat) :
  (1 <= n <= 5)%nat -> Rpower (INR n) (5 / 2) < 60.
Proof.
  intros [H1 H5].
  apply Rle_lt_trans with (Rpower 5 (5 / 2)); [|exact Rpower_5_2_at_5].
  apply Rle_Rpower_l; [lra|]. split; [pose proof (INR_ge_1 n H1); lra|].
  replace 5 with (INR 5) by (simpl; lra). now apply le_INR.
Qed.

Lemma real_power_from_6 (n : nat) :
  (6 <= n)%nat -> 60 <= Rpower (INR n) (5 / 2).
Proof.
  intros H6.
  apply Rle_trans with (Rpower 6 (5 / 2)); [exact Rpower_5_2_at_6|].
  apply Rle_Rpower_l; [lra|]. split; [lra|].
  replace 6 with (INR 6) by (simpl; lra). now apply le_INR.
Qed.

Lemma real_delay_at_2 : Rmin (Rpower (INR 2) (5 / 2)) 60 * 1000 = 4000 * sqrt 2.
Proof.
  rewrite Rmin_left
    by (left; apply (real_power_below_60 2); split; repeat constructor).
  replace (INR 2) with 2 by (simpl; lra).
  rewrite Rpower_5_2 by lra. ring.
Qed.

Local Close Scope R_scope.

(** No double is [4000 * sqrt 2]: a double is an integer times a power of
    two, and the square root of 2 is irrational. *)
Lemma odd_square (c u v : Z) : (4 * u + 4 * c + 1 <> 2 * v)%Z.
Proof. lia. Qed.

Lemma no_square_root_of_2 (n : nat) :
  forall a b : Z,
    (Z.abs b < Z.of_nat n)%Z -> b <> 0%Z -> (a * a <> 2 * (b * b))%Z.
Proof.
  induction n as [|n IH]; intros a b Hlt Hb Heq; [lia|].
  destruct (Z.Even_or_Odd a) as [[c ->]|[c ->]].
  - destruct (Z.Even_or_Odd b) as [[d ->]|[d ->]].
    + apply (IH c d); [lia | lia | nia].
    + apply (odd_square d (d * d) (c * c)). nia.
  - apply (odd_square c (c * c) (b * b)). nia.
Qed.

Lemma no_rational_root (a b : Z) : b <> 0%Z -> (a * a <> 2 * (b * b))%Z.
Proof.
  intros Hb.
  apply (no_square_root_of_2 (S (Z.to_nat (Z.abs b)))); [lia | exact Hb].
Qed.

Lemma dyadic_not_4000_sqrt2 (z e : Z) :
  (IZR z * powerRZ 2 e <> 4000 * sqrt 2)%R.
Proof.
  intros H.
  assert (Hsq : ((IZR z * powerRZ 2 e) * (IZR z * powerRZ 2 e)
                 = 2 * (4000 * 4000))%R).
  { rewrite H. replace (4000 * sqrt 2 * (4000 * sqrt 2))%R
      with (4000 * 4000 * (sqrt 2 * sqrt 2))%R by ring.
    rewrite sqrt_sqrt by lra. ring. }
  destruct e as [|p|p]; cbn [powerRZ] in Hsq.
  - apply (no_rational_root z 4000); [discriminate|].
    apply eq_IZR. rewrite !mult_IZR. lra.
  - apply (no_rational_root (z * 2 ^ Zpos p) 4000); [discriminate|].
    apply eq_IZR. rewrite !mult_IZR.
    rewrite <- (positive_nat_Z p), <- pow_IZR. lra.
  - apply (no_rational_root z (4000 * 2 ^ Zpos p)).
    { pose proof (Z.pow_pos_nonneg 2 (Zpos p)). lia. }
    apply eq_IZR. rewrite !mult_IZR.
    rewrite <- (positive_nat_Z p), <- pow_IZR.
    assert (Hp : (0 < 2 ^ Pos.to_nat p)%R) by (apply pow_lt; lra).
    set (q := (2 ^ Pos.to_nat p)%R) in *.
    replace (IZR z * / q * (IZR z * / q))%R
      with (IZR z * IZR z / (q * q))%R in Hsq by (field; lra).
    apply (f_equal (fun x => (x * (q * q))%R)) in Hsq.
    unfold Rdiv in Hsq. rewrite Rmult_assoc, Rinv_l, Rmult_1_r in Hsq by nra.
    change (IZR 2) with 2%R. change (IZR 4000) with 4000%R. lra.
Qed.

Lemma no_double_is_4000_sqrt2 (x : Js.number) :
  Js.real_value x <> Some (4000 * sqrt 2)%R.
Proof.
  assert (Hpos : (0 < 4000 * sqrt 2)%R).
  { pose proof (sqrt_lt_R0 2 ltac:(lra)). lra. }
  destruct x as [s|s| |s m e]; cbn; try discriminate.
  - intros H. injection H as H. lra.
  - intros H. injection H as H. destruct s.
    + apply (dyadic_not_4000_sqrt2 (Zneg m) e). rewrite <- H.
      change (IZR (Zneg m)) with (- IZR (Zpos m))%R. reflexivity.
    + now apply (dyadic_not_4000_sqrt2 (Zpos m) e).
Qed.

Lemma powerRZ_neg (p : positive) : powerRZ 2 (Zneg p) = (/ IZR (2 ^ Zpos p))%R.
Proof.
  cbn [powerRZ]. f_equal. rewrite <- (positive_nat_Z p).
  now rewrite <- pow_IZR.
Qed.

(** The delay an accurate engine gives, evaluated and bounded. *)
Ltac bound_delay :=
  let H := fresh "H" in
  unfold accurate_power; cbv zeta; intros [H|[H|H]];
  unfold backoff_delay; rewrite H;
  match goal with
  | |- between _ _ ?d => let v := eval vm_compute in d in change d with v
  end;
  unfold between; eexists; (split; [reflexivity|]);
  rewrite powerRZ_neg;
  match goal with
  | |- context [(2 ^ Zpos ?p)%Z] =>
      let v := eval vm_compute in (2 ^ Zpos p)%Z in
      change (2 ^ Zpos p)%Z with v
  end;
  lra.

Lemma accurate_delay_1 (E : Environment) :
  accurate_power E 1 -> between (999999 / 1000) (1000001 / 1000) (backoff_delay E 1).
Proof. bound_delay. Qed.

Lemma accurate_delay_2 (E : Environment) :
  accurate_power E 2 -> between (5656854 / 1000) (5656855 / 1000) (backoff_delay E 2).
Proof. bound_delay. Qed.

Lemma accurate_delay_3 (E : Environment) :
  accurate_power E 3 -> between (15588457 / 1000) (15588458 / 1000) (backoff_delay E 3).
Proof. bound_delay. Qed.

Lemma accurate_delay_4 (E : Environment) :
  accurate_power E 4 -> between (31999999 / 1000) (32000001 / 1000) (backoff_delay E 4).
Proof. bound_delay. Qed.

Lemma accurate_delay_5 (E : Environment) :
  accurate_power E 5 -> between (55901699 / 1000) (55901700 / 1000) (backoff_delay E 5).
Proof. bound_delay. Qed.

(** The exact value of the formula, for comparison. *)
Lemma sqrt_between (a b x : R) :
  (0 <= a -> 0 <= b -> a * a < x < b * b -> a < sqrt x < b)%R.
Proof.
  intros Ha Hb [Hax Hxb]. split.
  - rewrite <- (sqrt_square a Ha). apply sqrt_lt_1_alt. nra.
  - rewrite <- (sqrt_square b Hb). apply sqrt_lt_1_alt. nra.
Qed.

Lemma real_delay_uncapped (n : nat) :
  (1 <= n <= 5)%nat ->
  (Rmin (Rpower (INR n) (5 / 2)) 60 * 1000
   = INR n * INR n * sqrt (INR n) * 1000)%R.
Proof.
  intros Hn. rewrite Rmin_left by (left; now apply real_power_below_60).
  rewrite Rpower_5_2; [reflexivity|].
  pose proof (INR_ge_1 n (proj1 Hn)). lra.
Qed.

Lemma real_delay_capped (n : nat) :
  (6 <= n)%nat -> (Rmin (Rpower (INR n) (5 / 2)) 60 * 1000 = 60000)%R.
Proof.
  intros Hn. rewrite Rmin_right by now apply real_power_from_6. lra.
Qed.

(** On an engine accurate to one unit in the last place, the delay is the
    formula to within a thousandth of a millisecond. *)
Lemma accurate_delay (E : Environment) (n : nat) :
  (1 <= n <= 5)%nat -> accurate_power E n ->
  exists r,
    Js.real_value (backoff_delay E n) = Some r /\
    (Rabs (r - Rmin (Rpower (INR n) (5 / 2)) 60 * 1000) < 1 / 1000)%R.
Proof.
  intros Hn Hacc. rewrite (real_delay_uncapped n Hn).
  assert (Hcases : n = 1%nat \/ n = 2%nat \/ n = 3%nat \/ n = 4%nat
                   \/ n = 5%nat) by lia.
  destruct Hcases as [->|[->|[->|[->| ->]]]].
  - destruct (accurate_delay_1 E Hacc) as (r & Hr & Hb). exists r.
    split; [exact Hr|]. replace (INR 1) with 1%R by (simpl; lra).
    rewrite sqrt_1. apply Rabs_def1; lra.
  - destruct (accurate_delay_2 E Hacc) as (r & Hr & Hb). exists r.
    split; [exact Hr|]. replace (INR 2) with 2%R by (simpl; lra).
    pose proof (sqrt_between (141421356 / 100000000) (141421357 / 100000000) 2
                  ltac:(lra) ltac:(lra) ltac:(lra)).
    apply Rabs_def1; lra.
  - destruct (accurate_delay_3 E Hacc) as (r & Hr & Hb). exists r.
    split; [exact Hr|]. replace (INR 3) with 3%R by (simpl; lra).
    pose proof (sqrt_between (173205080 / 100000000) (173205081 / 100000000) 3
                  ltac:(lra) ltac:(lra) ltac:(lra)).
    apply Rabs_def1; lra.
  - destruct (accurate_delay_4 E Hacc) as (r & Hr & Hb). exists r.
    split; [exact Hr|]. replace (INR 4) with 4%R by (simpl; lra).
    rewrite sqrt_4. apply Rabs_def1; lra.
  - destruct (accurate_delay_5 E Hacc) as (r & Hr & Hb). exists r.
    split; [exact Hr|]. replace (INR 5) with 5%R by (simpl; lra).
    pose proof (sqrt_between (223606797 / 100000000) (223606798 / 100000000) 5
                  ltac:(lra) ltac:(lra) ltac:(lra)).
    apply Rabs_def1; lra.
Qed.

(** C6, as stated, fails: the delay is a double, and after the second failed
    attempt no double is [min(2^2.5, 60) * 1000], which is [4000 * sqrt 2].
    An engine that rounds the power correctly waits
    [6219777023950950 * 2^-40] ms (5656.85424949238); one whose power is the
    double just below, [6369051672525772 * 2^-50], waits
    [6219777023950949 * 2^-40] ms (5656.8542494923795). *)
Lemma C6_counterexample :
  backoff_delay Scenario.scripted 2 = S754_finite false 6219777023950950 (-40)
  /\ (forall E : Environment,
         env_pow E (Js.of_nat 2) Js.two_and_a_half
         = S754_finite false 6369051672525772 (-50) ->
         backoff_delay E 2 = S754_finite false 6219777023950949 (-40))
  /\ (forall E : Environment,
         Js.real_value (backoff_delay E 2)
         <> Some (Rmin (Rpower (INR 2) (5 / 2)) 60 * 1000)%R).
Proof.
  split; [vm_compute; reflexivity|]. split.
  - intros E H. unfold backoff_delay. rewrite H. vm_compute. reflexivity.
  - intros E. rewrite real_delay_at_2. apply no_double_is_4000_sqrt2.
Qed.

(** C6, amended.  In every run of the wrapper there is one delay per failed
    attempt, and the delay after failed attempt number [n] (counted from 1)
    is the double [Math.min(Math.pow(n, 2.5), 60) * 1000], computed from the
    power the engine returns.  The seconds never exceed 60, and the delay is
    60000 ms exactly whenever the computed power is at least 60; it is
    1000 ms and 32000 ms at [n = 1] and [n = 4] when the engine computes
    these powers exactly.  Over the reals [n^2.5] is below 60 up to [n = 5]
    and at least 60 from [n = 6] on, where the formula gives 60000; and up to
    [n = 5], on an engine whose power is accurate to one unit in the last
    place, the delay is within a thousandth of a millisecond of
    [min(n^2.5, 60) * 1000]. *)
Theorem C6_backoff_delays (E : Environment) {T : Type}
    (parse : string -> option (ApiResult T)) (url key : string)
    (options : RequestOptions) (retries : nat) (w : World E) :
  let run := doRequestWithRetries parse url key options retries w in
  let failed := List.length (sleeps (trace_of run)) in
  let power n := env_pow E (Js.of_nat n) Js.two_and_a_half in
  sleeps (trace_of run) = map (backoff_delay E) (seq 1 failed)
  /\ List.length (fetches (trace_of run))
     = (failed + if returned (result_of run) then 1 else 0)%nat
  /\ (forall n, backoff_delay E n
                = Js.mul (Js.min (power n) (Js.of_Z 60)) (Js.of_Z 1000))
  /\ (forall n, Js.min (power n) (Js.of_Z 60) = Js.nan \/
                Js.le (Js.min (power n) (Js.of_Z 60)) (Js.of_Z 60) = true)
  /\ (forall n, Js.le (Js.of_Z 60) (power n) = true ->
                backoff_delay E n = Js.of_Z 60000)
  /\ (power 1%nat = Js.of_Z 1 -> backoff_delay E 1 = Js.of_Z 1000)
  /\ (power 4%nat = Js.of_Z 32 -> backoff_delay E 4 = Js.of_Z 32000)
  /\ (forall n, (1 <= n <= 5)%nat -> accurate_power E n ->
                exists r,
                  Js.real_value (backoff_delay E n) = Some r /\
                  (Rabs (r - Rmin (Rpower (INR n) (5 / 2)) 60 * 1000)
                   < 1 / 1000)%R)
  /\ (forall n, (1 <= n <= 5)%nat -> (Rpower (INR n) (5 / 2) < 60)%R)
  /\ (forall n, (6 <= n)%nat ->
                (60 <= Rpower (INR n) (5 / 2))%R /\
                (Rmin (Rpower (INR n) (5 / 2)) 60 * 1000 = 60000)%R).
Proof.
  cbv zeta. unfold doRequestWithRetries.
  destruct (retry_loop_sleeps E parse url key options retries 0
              ThrownUndefined w) as (Hs & Hf & _ & _).
  split; [exact Hs|]. split; [exact Hf|]. split; [reflexivity|].
  split; [intros n; apply min_at_most|].
  split; [intros n; apply backoff_capped|].
  split; [intros H; unfold backoff_delay; rewrite H; vm_compute; reflexivity|].
  split; [intros H; unfold backoff_delay; rewrite H; vm_compute; reflexivity|].
  split; [intros n; apply accurate_delay|].
  split; [exact real_power_below_60|].
  intros n Hn. split; [now apply real_power_from_6 | now apply real_delay_capped].
Qed.

Lemma C6_witness :
  let run := doRequestWithRetries (E := Scenario.scripted)
               (parse_unknown Scenario.platform) "/pages/assets/upload" "key"
               no_options default_retries
               (Scenario.start
                  [Scenario.down; Scenario.html "<h1>502</h1>"; Scenario.json "ok"]
                  []) in
  sleeps (trace_of run)
  = [Js.of_Z 1000; S754_finite false 6219777023950950 (-40)]
  /\ List.length (fetches (trace_of run)) = 3%nat
  /\ backoff_delay Scenario.scripted 4 = Js.of_Z 32000
  /\ backoff_delay Scenario.scripted 7 = Js.of_Z 60000.
Proof.
  cbv zeta.
  destruct (C6_backoff_delays Scenario.scripted
              (parse_unknown Scenario.platform) "/pages/assets/upload" "key"
              no_options default_retries
              (Scenario.start
                 [Scenario.down; Scenario.html "<h1>502</h1>"; Scenario.json "ok"]
                 [])) as (Hs & Hf & _ & _ & Hcap & _ & Hfour & _).
  split; [|split; [|split]].
  - etransitivity; [exact Hs|]. vm_compute. reflexivity.
  - etransitivity; [exact Hf | reflexivity].
  - apply Hfour. vm_compute. reflexivity.
  - apply Hcap. vm_compute. reflexivity.
Defined.

(* ================================================================== *)
(** * Token cache *)
(* ================================================================== *)

Lemma bind_run {E A B} (m : M E A) (k : A -> M E B) (w : World E) :
  bind m k w
  = match m w with
    | (inl e, w1, t1) => (inl e, w1, t1)
    | (inr a, w1, t1) =>
        (result_of (k a w1), world_of (k a w1), (t1 ++ trace_of (k a w1))%list)
    end.
Proof.
  unfold bind, result_of, world_of, trace_of.
  destruct (m w) as [[[e|a] w1] t1]; [reflexivity|].
  now destruct (k a w1) as [[r w2] t2].
Qed.

Lemma outcome_eta {E A} (o : Outcome E A) :
  o = (result_of o, world_of o, trace_of o).
Proof. now destruct o as [[r w] t]. Qed.

Lemma bind_ret {E A B} (a : A) (k : A -> M E B) (w : World E) :
  bind (ret a) k w = k a w.
Proof. unfold bind, ret. now destruct (k a w) as [[r w2] t2]. Qed.

Lemma bind_throw {E A B} (e : Thrown) (k : A -> M E B) (w : World E) :
  bind (throw e) k w = (inl e, w, []).
Proof. reflexivity. Qed.

Lemma bind_emit {E B} (ev : Event) (k : unit -> M E B) (w : World E) :
  bind (emit ev) k w
  = (result_of (k tt w), world_of (k tt w), ev :: trace_of (k tt w)).
Proof. unfold bind, emit. now destruct (k tt w) as [[r w2] t2]. Qed.

Lemma bind_read {E B} (k : option CachedJwt -> M E B) (w : World E) :
  bind read_jwt_field k w = k (jwt_field w) w.
Proof.
  unfold bind, read_jwt_field. now destruct (k (jwt_field w) w) as [[r w2] t2].
Qed.

Lemma bind_write {E B} (c : option CachedJwt) (k : unit -> M E B) (w : World E) :
  bind (write_jwt_field c) k w = k tt {| outside := outside w; jwt_field := c |}.
Proof.
  unfold bind, write_jwt_field.
  now destruct (k tt {| outside := outside w; jwt_field := c |}) as [[r w2] t2].
Qed.

Lemma bind_newDate {E B} (k : Z -> M E B) (w : World E) (now : Z)
    (o : EnvState E) :
  env_now E (outside w) = (now, o) ->
  let w' := {| outside := o; jwt_field := jwt_field w |} in
  bind newDate k w
  = (result_of (k now w'), world_of (k now w'), Clock now :: trace_of (k now w')).
Proof.
  intros Hnow. cbv zeta. unfold bind, newDate. rewrite Hnow.
  now destruct (k now _) as [[r w2] t2].
Qed.

Lemma bind_assoc {E A B C} (m : M E A) (f : A -> M E B) (g : B -> M E C)
    (w : World E) :
  bind (bind m f) g w = bind m (fun a => bind (f a) g) w.
Proof.
  unfold bind. destruct (m w) as [[[e|a] w1] t1]; [reflexivity|].
  destruct (f a w1) as [[[e|b] w2] t2]; [reflexivity|].
  destruct (g b w2) as [[r w3] t3]. now rewrite app_assoc.
Qed.

Section TokenCache.

Variable P : Platform.
Variable E : Environment.
Variable cfg : Config.



End TokenCache.




(* ================================================================== *)
(** * The steps of the index operations *)
(* ================================================================== *)

Section Quiet.

Variable E : Environment.

Lemma steps_bind {A B} (m : M E A) (k : A -> M E B) (w : World E) :
  steps (trace_of (bind m k w))
  = (steps (trace_of (m w))
     ++ match result_of (m w) with
        | inr a => steps (trace_of (k a (world_of (m w))))
        | inl _ => []
        end)%list.
Proof.
  rewrite bind_run. destruct (m w) as [[[e|a] w1] t1]; project.
  - now rewrite app_nil_r.
  - apply steps_app.
Qed.

Lemma quiet_ret {A} (a : A) : quiet (ret (E := E) a).
Proof. intros w. reflexivity. Qed.

Lemma quiet_throw {A} (e : Thrown) : quiet (throw (E := E) (A := A) e).
Proof. intros w. reflexivity. Qed.

Lemma quiet_bind {A B} (m : M E A) (k : A -> M E B) :
  quiet m -> (forall a, quiet (k a)) -> quiet (bind m k).
Proof.
  intros Hm Hk w. rewrite steps_bind, Hm.
  destruct (result_of (m w)); [reflexivity | apply Hk].
Qed.

Lemma quiet_emit (ev : Event) : step_of ev = [] -> quiet (emit (E := E) ev).
Proof. intros H w. cbn. now rewrite H. Qed.

Lemma quiet_newDate : quiet (newDate (E := E)).
Proof. intros w. unfold newDate. now destruct (env_now E (outside w)). Qed.

Lemma quiet_read : quiet (read_jwt_field (E := E)).
Proof. intros w. reflexivity. Qed.

Lemma quiet_write (c : option CachedJwt) : quiet (write_jwt_field (E := E) c).
Proof. intros w. reflexivity. Qed.

Lemma quiet_log (enabled : bool) (msg : string) : quiet (log_with E enabled msg).
Proof. destruct enabled; [now apply quiet_emit | apply quiet_ret]. Qed.

Lemma quiet_materialize (c : Content) : quiet (materialize E c).
Proof.
  destruct c as [b|[e|b]]; cbn;
    [apply quiet_ret | apply quiet_throw | apply quiet_ret].
Qed.

Lemma quiet_doRequestWithRetries {T} (parse : string -> option (ApiResult T))
    (url key : string) (options : RequestOptions) (retries : nat) :
  quiet (doRequestWithRetries (E := E) parse url key options retries).
Proof. intros w. apply retry_loop_steps. Qed.

Variable P : Platform.
Variable cfg : Config.

Lemma quiet_getJwt : quiet (getJwt P E cfg).
Proof.
  unfold getJwt. apply quiet_bind; [now apply quiet_emit|]. intros _.
  apply quiet_bind; [apply quiet_doRequestWithRetries|].
  intros [jwt|errors]; [apply quiet_ret | apply quiet_throw].
Qed.

Lemma quiet_JWTCache_get : quiet (JWTCache_get P E cfg).
Proof.
  unfold JWTCache_get. apply quiet_bind; [apply quiet_read|]. intros cached.
  apply quiet_bind.
  - destruct cached as [c|]; [|apply quiet_ret].
    apply quiet_bind; [apply quiet_newDate | intros now; apply quiet_ret].
  - intros [|].
    + apply quiet_bind; [apply quiet_getJwt|]. intros jwt.
      destruct (nth_error (Str.split "." jwt) 1) as [segment|];
        [|apply quiet_throw].
      cbv zeta.
      destruct (parse_claims P (base64_to_utf8 P segment)) as [exp|];
        [|apply quiet_throw].
      apply quiet_bind; [apply quiet_write | intros _; apply quiet_ret].
    + destruct cached; [apply quiet_ret | apply quiet_throw].
Qed.

(** An index operation: enter it, get the token, send the request. *)
Lemma steps_enter {A} (c : Call) (k : M E A) (w : World E) :
  quiet k ->
  steps (trace_of ((emit (Enter c) ;; k) w)) = step_of (Enter c).
Proof.
  intros Hk. rewrite bind_emit. project.
  change (steps (Enter c :: trace_of (k w)))
    with (step_of (Enter c) ++ steps (trace_of (k w)))%list.
  now rewrite Hk, app_nil_r.
Qed.

Lemma uploadFile_steps (files : list FileWithHash) (w : World E) :
  steps (trace_of (uploadFile P E files cfg w))
  = [UploadBlob (map fwh_hash files)].
Proof.
  unfold uploadFile. apply steps_enter. cbv zeta.
  apply quiet_bind; [apply quiet_JWTCache_get|]. intros token.
  apply quiet_bind; [apply quiet_doRequestWithRetries|].
  intros [u|errors]; [apply quiet_ret | apply quiet_throw].
Qed.

Lemma upsertHashes_steps (hs : list string) (w : World E) :
  steps (trace_of (upsertHashes P E hs cfg w)) = [Upsert hs].
Proof.
  unfold upsertHashes. apply steps_enter.
  apply quiet_bind; [apply quiet_JWTCache_get|]. intros token.
  apply quiet_bind; [apply quiet_doRequestWithRetries|].
  intros [u|errors]; [apply quiet_ret | apply quiet_throw].
Qed.

Lemma createDeployment_steps (body : FormData) (w : World E) :
  steps (trace_of (createDeployment P E body cfg w)) = [Deploy body].
Proof.
  unfold createDeployment. apply steps_enter.
  apply quiet_bind; [apply quiet_doRequestWithRetries|].
  intros [d|errors]; [apply quiet_ret | apply quiet_throw].
Qed.

Lemma getMissingHashes_steps (hs : list string) (w : World E) :
  steps (trace_of (getMissingHashes P E hs cfg w))
  = CheckMissing hs
    :: match result_of (getMissingHashes P E hs cfg w) with
       | inr missing => [Reported missing]
       | inl _ => []
       end.
Proof.
  unfold getMissingHashes. rewrite bind_emit. project.
  change (steps (Enter (CallCheckMissing hs) :: ?t))
    with (CheckMissing hs :: steps t).
  f_equal.
  rewrite steps_bind, quiet_JWTCache_get. cbn [app].
  rewrite bind_run.
  destruct (JWTCache_get P E cfg w) as [[[e|token] w1] t1]; project;
    [reflexivity|].
  rewrite steps_bind, quiet_doRequestWithRetries. cbn [app].
  rewrite bind_run.
  destruct (doRequestWithRetries _ _ _ _ _ w1) as [[[e|[missing|errors]] w2] t2];
    project; reflexivity.
Qed.

End Quiet.

(* ================================================================== *)
(** * The upload scheduler and the orchestrator *)
(* ================================================================== *)

Lemma result_bind {E A B} (m : M E A) (k : A -> M E B) (w : World E) :
  result_of (bind m k w)
  = match result_of (m w) with
    | inl e => inl e
    | inr a => result_of (k a (world_of (m w)))
    end.
Proof. rewrite bind_run. now destruct (m w) as [[[e|a] w1] t1]. Qed.

Section Scheduling.

Variable P : Platform.
Variable E : Environment.
Variable cfg : Config.

Lemma log_with_run (enabled : bool) (msg : string) (w : World E) :
  log_with E enabled msg w = (inr tt, w, if enabled then [Log msg] else []).
Proof. now destruct enabled. Qed.

(** The first loop of [deployFiles] touches nothing outside: no event, the
    same world, and a result that does not depend on the world. *)
Lemma hash_file_pure (file : DeploymentFile) (w w' : World E) :
  hash_file P E file w = (result_of (hash_file P E file w'), w, []).
Proof.
  unfold hash_file. cbv zeta.
  destruct (hash file) as [h|]; [destruct (Str.truthy h); [reflexivity|]|];
    destruct (content file) as [b|[e|b]]; reflexivity.
Qed.

Lemma hash_files_pure (files : list DeploymentFile) :
  forall w w' : World E,
    hash_files P E files w = (result_of (hash_files P E files w'), w, []).
Proof.
  induction files as [|file rest IH]; intros w w'; [reflexivity|].
  cbn [hash_files].
  pose proof (hash_file_pure file w w') as Hw.
  pose proof (hash_file_pure file w' w') as Hw'.
  destruct (hash_file P E file w') as [[r0 w0] t0] eqn:H0.
  project_in Hw. project_in Hw'. injection Hw' as -> ->.
  rewrite !bind_run, Hw, H0.
  destruct r0 as [e|f]; [reflexivity|].
  pose proof (IH w w') as Hr. pose proof (IH w' w') as Hr'.
  destruct (hash_files P E rest w') as [[r1 w1] t1] eqn:H1.
  project_in Hr. project_in Hr'. injection Hr' as -> ->.
  rewrite !bind_run, Hr, H1.
  destruct r1 as [e|fs]; reflexivity.
Qed.

End Scheduling.

Section Orchestration.

Variable P : Platform.
Variable E : Environment.
Variable cfg : Config.
Variable fs : list DeploymentFileWithHash.
Variable logging : bool.

(** One turn of a worker uploads the fingerprint it popped, unless it
    throws before reaching [uploadFile]. *)
Lemma upload_missing_steps (h : string) (w : World E) :
  let run := upload_missing P E cfg fs logging h w in
  steps (trace_of run) = [upload_of h]
  \/ (steps (trace_of run) = [] /\ returned (result_of run) = false).
Proof.
  cbv zeta. unfold upload_missing.
  destruct (find (fun x => String.eqb (wh_hash x) h) fs) as [file|] eqn:Hfind;
    [|right; now split].
  apply find_some in Hfind as [_ Hh]. apply String.eqb_eq in Hh.
  cbv zeta. rewrite steps_bind, result_bind, (quiet_log E logging).
  rewrite log_with_run. project. cbv iota. cbn [app].
  rewrite steps_bind, result_bind.
  match goal with
  | |- context [result_of (?m w)] => set (fetch_content := m)
  end.
  assert (Hq : quiet fetch_content).
  { unfold fetch_content. destruct (wh_contentBase64 file); [apply quiet_ret|].
    destruct (content (wh_file file)) as [b|p]; [apply quiet_throw|].
    apply quiet_bind; [apply quiet_materialize | intros buf; apply quiet_ret]. }
  rewrite Hq. cbn [app].
  destruct (result_of (fetch_content w)) as [e|c]; [right; now split|].
  left. rewrite steps_bind, uploadFile_steps. cbn [map fwh_hash].
  rewrite Hh.
  destruct (result_of (uploadFile _ _ _ _ _)); [reflexivity|].
  now rewrite (quiet_log E logging).
Qed.

(** A worker uploads the fingerprints of its stack from the top down; when
    it returns, it has uploaded them all and leaves the array empty. *)
Lemma upload_worker_steps (stack : list string) :
  forall w : World E,
    let run := upload_worker P E cfg fs logging stack w in
    exists done rest,
      stack = (done ++ rest)%list /\
      steps (trace_of run) = map upload_of done /\
      (returned (result_of run) = true ->
       rest = [] /\ result_of run = inr []).
Proof.
  induction stack as [|h stack IH]; intros w; cbv zeta.
  - exists [], []. now repeat split.
  - cbn [upload_worker]. rewrite steps_bind, result_bind.
    destruct (upload_missing_steps h w) as [Hup | [Hup Hfail]]; rewrite Hup.
    + destruct (result_of (upload_missing P E cfg fs logging h w)) as [e|u].
      * exists [h], stack. split; [reflexivity|]. split; [reflexivity|].
        discriminate.
      * destruct (IH (world_of (upload_missing P E cfg fs logging h w)))
          as (done & rest & Hsplit & Hsteps & Hret).
        exists (h :: done), rest. split; [now rewrite Hsplit|].
        split; [cbn [map app]; now rewrite Hsteps | exact Hret].
    + destruct (result_of (upload_missing P E cfg fs logging h w)) as [e|u];
        [|discriminate Hfail].
      exists [], (h :: stack). split; [reflexivity|]. split; [reflexivity|].
      discriminate.
Qed.

Lemma run_workers_empty (n : nat) (w : World E) :
  run_workers P E cfg fs logging n [] w = (inr [], w, []).
Proof.
  induction n as [|n IH]; [reflexivity|].
  cbn [run_workers upload_worker]. now rewrite bind_ret.
Qed.

(** The upload phase: what is uploaded is a prefix of the stack, and the
    whole stack when the phase completes with at least one worker. *)
Lemma run_workers_steps (n : nat) (stack : list string) (w : World E) :
  let run := run_workers P E cfg fs logging n stack w in
  exists done rest,
    stack = (done ++ rest)%list /\
    steps (trace_of run) = map upload_of done /\
    (returned (result_of run) = true ->
     done = match n with O => [] | S _ => stack end).
Proof.
  cbv zeta. destruct n as [|n].
  - exists [], stack. now repeat split.
  - cbn [run_workers]. rewrite steps_bind, result_bind.
    destruct (upload_worker_steps stack w)
      as (done & rest & Hsplit & Hsteps & Hret).
    exists done, rest. split; [exact Hsplit|].
    destruct (result_of (upload_worker P E cfg fs logging stack w))
      as [e|left] eqn:Hres.
    + split; [now rewrite app_nil_r|]. discriminate.
    + destruct (Hret eq_refl) as [-> Hleft]. injection Hleft as ->.
      rewrite run_workers_empty. project. rewrite app_nil_r in *.
      split; [exact Hsteps | now intros _].
Qed.

End Orchestration.

Section Deployment.

Variable P : Platform.
Variable E : Environment.
Variable cfg : Config.
Variable files : list DeploymentFile.
Variable options : option DeploymentOptions.

(** [deployFiles] phase by phase. *)
Lemma deployFiles_run (w : World E) :
  deployFiles P E cfg files options w
  = let w0 := fresh_cache w in
    match result_of (hash_files P E files w0) with
    | inl e => (inl e, w0, [])
    | inr fs =>
        let keys := distinct (map wh_hash fs) in
        match getMissingHashes P E keys cfg w0 with
        | (inl e, w1, t1) => (inl e, w1, t1)
        | (inr missing, w1, t1) =>
            match run_workers P E cfg fs (logging_of options)
                    (spawned_workers options) (rev missing) w1 with
            | (inl e, w2, t2) => (inl e, w2, (t1 ++ t2)%list)
            | (inr _, w2, t2) =>
                match upsert_phase P E cfg missing keys w2 with
                | (inl e, w3, t3) => (inl e, w3, (t1 ++ t2 ++ t3)%list)
                | (inr _, w3, t3) =>
                    match createDeployment P E (form_of P fs options) cfg w3 with
                    | (inl e, w4, t4) =>
                        (inl e, w4, (t1 ++ t2 ++ t3 ++ t4)%list)
                    | (inr d, w4, t4) =>
                        (inr {| id := snd d; url := fst d;
                                hashes := hashes_of fs |},
                         w4, (t1 ++ t2 ++ t3 ++ t4)%list)
                    end
                end
            end
        end
    end.
Proof.
  unfold deployFiles. rewrite bind_write. fold (fresh_cache w). cbv zeta.
  set (w0 := fresh_cache w).
  rewrite bind_run, (hash_files_pure P E files w0 w0).
  destruct (result_of (hash_files P E files w0)) as [e|fs]; [reflexivity|].
  project. cbn [app]. rewrite <- outcome_eta. rewrite bind_run.
  destruct (getMissingHashes P E _ cfg w0) as [[[e|missing] w1] t1];
    [reflexivity|].
  rewrite bind_run.
  destruct (run_workers P E cfg fs _ _ _ w1) as [[[e|left] w2] t2];
    project; [reflexivity|].
  rewrite bind_run.
  destruct (upsert_phase P E cfg missing _ w2) as [[[e|u] w3] t3]; project;
    [reflexivity|].
  rewrite bind_run.
  destruct (createDeployment P E _ cfg w3) as [[[e|d] w4] t4]; project;
    [reflexivity|].
  unfold ret. project. now rewrite app_nil_r.
Qed.

Lemma upsert_phase_steps (missing keys : list string) (w : World E) :
  steps (trace_of (upsert_phase P E cfg missing keys w))
  = if (0 <? List.length missing)%nat then [Upsert keys] else [].
Proof.
  unfold upsert_phase. destruct (0 <? List.length missing)%nat;
    [apply upsertHashes_steps | reflexivity].
Qed.

(** The steps of a run, by the phase in which it ends. *)
Lemma deployFiles_steps (w : World E) :
  let run := deployFiles P E cfg files options w in
  let st := steps (trace_of run) in
  let w0 := fresh_cache w in
  match result_of (hash_files P E files w0) with
  | inl e => st = [] /\ result_of run = inl e
  | inr fs =>
      let keys := distinct (map wh_hash fs) in
      match getMissingHashes P E keys cfg w0 with
      | (inl e, _, _) => st = [CheckMissing keys] /\ result_of run = inl e
      | (inr missing, w1, _) =>
          match run_workers P E cfg fs (logging_of options)
                  (spawned_workers options) (rev missing) w1 with
          | (inl e, _, _) =>
              (exists done rest,
                  rev missing = (done ++ rest)%list /\
                  st = CheckMissing keys :: Reported missing
                         :: map upload_of done)
              /\ result_of run = inl e
          | (inr _, w2, _) =>
              let so_far :=
                (CheckMissing keys :: Reported missing
                   :: map upload_of (scheduled options missing)
                   ++ if (0 <? List.length missing)%nat
                      then [Upsert keys] else [])%list in
              match upsert_phase P E cfg missing keys w2 with
              | (inl e, _, _) => st = so_far /\ result_of run = inl e
              | (inr _, w3, _) =>
                  st = (so_far ++ [Deploy (form_of P fs options)])%list /\
                  match createDeployment P E (form_of P fs options) cfg w3 with
                  | (inl e, w4, _) =>
                      result_of run = inl e /\ world_of run = w4
                  | (inr d, w4, _) =>
                      result_of run
                      = inr {| id := snd d; url := fst d;
                               hashes := hashes_of fs |} /\
                      world_of run = w4
                  end
              end
          end
      end
  end.
Proof.
  cbv zeta. rewrite deployFiles_run. cbv zeta.
  destruct (result_of (hash_files P E files (fresh_cache w))) as [e|fs];
    [now split|].
  pose proof (getMissingHashes_steps E P cfg (distinct (map wh_hash fs))
                (fresh_cache w)) as Hg.
  destruct (getMissingHashes P E _ cfg (fresh_cache w))
    as [[[e|missing] w1] t1]; project_in Hg; project; [now split|].
  pose proof (run_workers_steps P E cfg fs (logging_of options)
                (spawned_workers options) (rev missing) w1) as Hw.
  cbv zeta in Hw. destruct Hw as (done & rest & Hsplit & Hdone & Hall).
  destruct (run_workers P E cfg fs _ _ _ w1) as [[[e|left] w2] t2];
    project_in Hdone; project_in Hall; project.
  { split; [|reflexivity]. exists done, rest. split; [exact Hsplit|].
    rewrite steps_app, Hg, Hdone. reflexivity. }
  assert (Hsched : done = scheduled options missing)
    by (unfold scheduled; now apply Hall).
  subst done.
  pose proof (upsert_phase_steps missing (distinct (map wh_hash fs)) w2) as Hu.
  destruct (upsert_phase P E cfg missing (distinct (map wh_hash fs)) w2)
    as [[[e|u] w3] t3]; project_in Hu; project.
  { split; [|reflexivity]. rewrite !steps_app, Hg, Hdone, Hu. reflexivity. }
  pose proof (createDeployment_steps E P cfg (form_of P fs options) w3) as Hd.
  destruct (createDeployment P E _ cfg w3) as [[[e|d] w4] t4];
    project_in Hd; project;
    (split; [|now split]);
    rewrite !steps_app, Hg, Hdone, Hu, Hd; cbn [app];
    now rewrite <- !app_assoc.
Qed.

End Deployment.

(** ** Upsert *)

Lemma length_pos_iff {A} (l : list A) :
  (0 <? List.length l)%nat = true <-> l <> [].
Proof.
  destruct l as [|a l]; cbn; split; intros H; try reflexivity;
    try discriminate; try congruence.
Qed.

Lemma no_upsert_among_uploads (hs : list string) (l : list string) :
  ~ In (Upsert hs) (map upload_of l).
Proof. intros H. apply in_map_iff in H as (h & Hh & _). discriminate Hh. Qed.

(** Where an upsert can be in the steps of a run that reached that phase. *)
Lemma upsert_in_steps (keys missing ups : list string) (tail : list Step)
    (hs : list string) :
  (forall hs', ~ In (Upsert hs') tail) ->
  In (Upsert hs)
    ((CheckMissing keys :: Reported missing :: map upload_of ups
        ++ if (0 <? List.length missing)%nat then [Upsert keys] else [])
       ++ tail)%list
  <-> hs = keys /\ missing <> [].
Proof.
  intros Htail. split.
  - intros Hin. apply in_app_or in Hin as [Hin|Hin];
      [|now apply Htail in Hin].
    destruct Hin as [Hin|[Hin|Hin]]; try discriminate Hin.
    apply in_app_or in Hin as [Hin|Hin];
      [now apply no_upsert_among_uploads in Hin|].
    destruct (0 <? List.length missing)%nat eqn:Hlen; [|contradiction].
    destruct Hin as [Hin|[]]. injection Hin as <-.
    split; [reflexivity | now apply length_pos_iff].
  - intros [-> Hne]. apply length_pos_iff in Hne. rewrite Hne.
    apply in_or_app. left. right. right. apply in_or_app. right. now left.
Qed.

(** C8.  In every run of [deployFiles]: an upsert is entered only after
    [checkMissing] reported a non-empty list, with the full list of distinct
    fingerprints of the input files as its argument, after every upload of
    the run, and it is followed by nothing but the creation of the
    deployment; and once the upload phase has completed, an upsert is entered
    if and only if the reported list is non-empty. *)
Theorem C8_upsert_iff_missing (P : Platform) (E : Environment) (cfg : Config)
    (files : list DeploymentFile) (options : option DeploymentOptions)
    (w : World E) :
  let run := deployFiles P E cfg files options w in
  let st := steps (trace_of run) in
  (forall hs,
      In (Upsert hs) st ->
      exists fs missing tail,
        result_of (hash_files P E files (fresh_cache w)) = inr fs /\
        hs = distinct (map wh_hash fs) /\
        missing <> [] /\
        st = (CheckMissing hs :: Reported missing
                :: map upload_of (scheduled options missing)
                ++ Upsert hs :: tail)%list /\
        (tail = [] \/ tail = [Deploy (form_of P fs options)]))
  /\ (forall fs missing w1 t1 left w2 t2,
        result_of (hash_files P E files (fresh_cache w)) = inr fs ->
        getMissingHashes P E (distinct (map wh_hash fs)) cfg (fresh_cache w)
        = (inr missing, w1, t1) ->
        run_workers P E cfg fs (logging_of options) (spawned_workers options)
          (rev missing) w1 = (inr left, w2, t2) ->
        ((exists hs, In (Upsert hs) st) <-> missing <> []) /\
        (missing <> [] -> In (Upsert (distinct (map wh_hash fs))) st)).
Proof.
  cbv zeta. pose proof (deployFiles_steps P E cfg files options w) as Hshape.
  cbv zeta in Hshape. split.
  - intros hs Hin.
    destruct (result_of (hash_files P E files (fresh_cache w))) as [e|fs];
      [destruct Hshape as [Hst _]; rewrite Hst in Hin; contradiction|].
    destruct (getMissingHashes P E _ cfg (fresh_cache w))
      as [[[e|missing] w1] t1].
    { destruct Hshape as [Hst _]. rewrite Hst in Hin.
      destruct Hin as [Hin|[]]. discriminate Hin. }
    destruct (run_workers P E cfg fs _ _ _ w1) as [[[e|left] w2] t2].
    { destruct Hshape as [(done & rest & _ & Hst) _]. rewrite Hst in Hin.
      destruct Hin as [Hin|[Hin|Hin]]; try discriminate Hin.
      now apply no_upsert_among_uploads in Hin. }
    destruct (upsert_phase P E cfg missing _ w2) as [[[e|u] w3] t3].
    + destruct Hshape as [Hst _].
      rewrite <- (app_nil_r (_ :: _)) in Hst. rewrite Hst in Hin.
      apply upsert_in_steps in Hin as [-> Hne]; [|now intros hs' []].
      exists fs, missing, []. repeat split; try assumption; [|now left].
      rewrite Hst. apply length_pos_iff in Hne. rewrite Hne.
      now rewrite app_nil_r.
    + destruct Hshape as [Hst _]. rewrite Hst in Hin.
      apply upsert_in_steps in Hin as [-> Hne];
        [|intros hs' [Hx|[]]; discriminate Hx].
      exists fs, missing, [Deploy (form_of P fs options)].
      repeat split; try assumption; [|now right].
      rewrite Hst. apply length_pos_iff in Hne. rewrite Hne.
      cbn [app]. now rewrite <- app_assoc.
  - intros fs missing w1 t1 left w2 t2 Hhash Hget Hrun.
    rewrite Hhash, Hget, Hrun in Hshape.
    assert (Hst : exists tail,
               (forall hs', ~ In (Upsert hs') tail) /\
               steps (trace_of (deployFiles P E cfg files options w))
               = ((CheckMissing (distinct (map wh_hash fs)) :: Reported missing
                     :: map upload_of (scheduled options missing)
                     ++ if (0 <? List.length missing)%nat
                        then [Upsert (distinct (map wh_hash fs))] else [])
                    ++ tail)%list).
    { destruct (upsert_phase P E cfg missing _ w2) as [[[e|u] w3] t3].
      - exists []. split; [now intros hs' []|].
        destruct Hshape as [-> _]. now rewrite app_nil_r.
      - exists [Deploy (form_of P fs options)].
        split; [intros hs' [Hx|[]]; discriminate Hx|].
        now destruct Hshape as [-> _]. }
    destruct Hst as (tail & Htail & Hst). rewrite Hst. split; [split|].
    + intros [hs Hin]. now apply upsert_in_steps in Hin as [_ Hne].
    + intros Hne. exists (distinct (map wh_hash fs)).
      now apply upsert_in_steps.
    + intros Hne. now apply upsert_in_steps.
Qed.

Lemma C8_witness :
  let files := [Scenario.plain "index.html" "A"; Scenario.plain "style.css" "A";
                Scenario.plain "blog/index.html" "A"] in
  let keys := ["51513d3d68746d6c"; "51513d3d637373"] in
  let answers missing :=
    [Scenario.json "h.1700000000.s"; Scenario.json missing; Scenario.json "ok";
     Scenario.json "ok"; Scenario.json "ok"; Scenario.json "https://site.pages.dev"] in
  In (Upsert keys)
    (steps (trace_of (deployFiles Scenario.platform Scenario.scripted Scenario.cfg
                        files None
                        (Scenario.start (answers "51513d3d637373") [0%Z]))))
  /\ ~ (exists hs,
          In (Upsert hs)
            (steps (trace_of (deployFiles Scenario.platform Scenario.scripted
                                Scenario.cfg files None
                                (Scenario.start (answers EmptyString) [0%Z]))))).
Proof.
  cbv zeta. split.
  - edestruct (C8_upsert_iff_missing Scenario.platform Scenario.scripted
                 Scenario.cfg
                 [Scenario.plain "index.html" "A"; Scenario.plain "style.css" "A";
                  Scenario.plain "blog/index.html" "A"] None
                 (Scenario.start
                    [Scenario.json "h.1700000000.s"; Scenario.json "51513d3d637373";
                     Scenario.json "ok"; Scenario.json "ok"; Scenario.json "ok";
                     Scenario.json "https://site.pages.dev"] [0%Z]))
      as [_ H].
    edestruct H as [_ Hin]; [reflexivity | reflexivity | reflexivity |].
    apply Hin. discriminate.
  - edestruct (C8_upsert_iff_missing Scenario.platform Scenario.scripted
                 Scenario.cfg
                 [Scenario.plain "index.html" "A"; Scenario.plain "style.css" "A";
                  Scenario.plain "blog/index.html" "A"] None
                 (Scenario.start
                    [Scenario.json "h.1700000000.s"; Scenario.json EmptyString;
                     Scenario.json "ok"; Scenario.json "ok"; Scenario.json "ok";
                     Scenario.json "https://site.pages.dev"] [0%Z]))
      as [_ H].
    edestruct H as [Hiff _]; [reflexivity | reflexivity | reflexivity |].
    intros Hex. apply Hiff in Hex. now apply Hex.
Defined.

(** ** Uploads *)

Lemma uploaded_of_steps (t : list Event) (st : list Step) :
  steps t = st ->
  uploaded t = flat_map (fun s => match s with UploadBlob ks => ks | _ => [] end) st.
Proof. intros <-. reflexivity. Qed.

Lemma flat_map_upload_of (l : list string) :
  flat_map (fun s => match s with UploadBlob ks => ks | _ => [] end)
    (map upload_of l) = l.
Proof. induction l as [|h l IH]; [reflexivity|]. cbn. now rewrite IH. Qed.

Lemma flat_map_no_upload (l : list Step) :
  (forall s, In s l -> ~ is_upload s) ->
  flat_map (fun s => match s with UploadBlob ks => ks | _ => [] end) l = [].
Proof.
  induction l as [|s l IH]; intros H; [reflexivity|].
  cbn. rewrite IH by (intros s' Hs'; apply H; now right).
  destruct s; try reflexivity. exfalso. apply (H (UploadBlob keys)); [now left|].
  exact I.
Qed.

(** With a worker, a successful run uploads exactly the fingerprints
    [checkMissing] reported, each as often as it is reported, last to
    first. *)
Lemma uploads_with_a_worker (P : Platform) (E : Environment) (cfg : Config)
    (files : list DeploymentFile) (options : option DeploymentOptions)
    (w : World E) (dep : Deployment) :
  Js.lt (Js.of_Z 0) (requested_concurrency options) = true ->
  result_of (deployFiles P E cfg files options w) = inr dep ->
  exists missing,
    In (Reported missing) (steps (trace_of (deployFiles P E cfg files options w)))
    /\ uploaded (trace_of (deployFiles P E cfg files options w)) = rev missing
    /\ List.length (uploaded (trace_of (deployFiles P E cfg files options w)))
       = List.length missing
    /\ (missing <> [] ->
        uploaded (trace_of (deployFiles P E cfg files options w)) <> []).
Proof.
  intros Hreq Hok.
  pose proof (deployFiles_steps P E cfg files options w) as Hshape.
  cbv zeta in Hshape.
  destruct (result_of (hash_files P E files (fresh_cache w))) as [e|fs];
    [destruct Hshape as [_ Hr]; congruence|].
  destruct (getMissingHashes P E _ cfg (fresh_cache w)) as [[[e|missing] w1] t1];
    [destruct Hshape as [_ Hr]; congruence|].
  destruct (run_workers P E cfg fs _ _ _ w1) as [[[e|left] w2] t2];
    [destruct Hshape as [_ Hr]; congruence|].
  destruct (upsert_phase P E cfg missing _ w2) as [[[e|u] w3] t3];
    [destruct Hshape as [_ Hr]; congruence|].
  destruct Hshape as [Hst _].
  assert (Hsched : scheduled options missing = rev missing)
    by (unfold scheduled; now rewrite (spawned_workers_one options Hreq)).
  rewrite Hsched in Hst.
  assert (Hup : uploaded (trace_of (deployFiles P E cfg files options w))
                = rev missing).
  { rewrite (uploaded_of_steps _ _ Hst). cbn [app flat_map].
    rewrite !flat_map_app, flat_map_upload_of.
    rewrite (flat_map_no_upload
               (if (0 <? List.length missing)%nat then _ else _))
      by (destruct (0 <? List.length missing)%nat; intros s Hs;
          [destruct Hs as [<-|[]]; exact (fun x => x) | destruct Hs]).
    cbn. now rewrite !app_nil_r. }
  exists missing. rewrite Hup, Hst. split; [right; now left|].
  split; [reflexivity|]. split; [apply length_rev|].
  intros Hne Hrev. apply Hne. apply (f_equal (@rev string)) in Hrev.
  now rewrite rev_involutive in Hrev.
Qed.

(** When the reported list has no duplicate, each of its fingerprints is
    uploaded exactly once. *)
Corollary each_missing_uploaded_once (P : Platform) (E : Environment)
    (cfg : Config) (files : list DeploymentFile)
    (options : option DeploymentOptions) (w : World E) (dep : Deployment) :
  Js.lt (Js.of_Z 0) (requested_concurrency options) = true ->
  result_of (deployFiles P E cfg files options w) = inr dep ->
  exists missing,
    In (Reported missing) (steps (trace_of (deployFiles P E cfg files options w)))
    /\ (NoDup missing ->
        forall h, In h missing ->
          count_occ string_dec
            (uploaded (trace_of (deployFiles P E cfg files options w))) h = 1%nat).
Proof.
  intros Hreq Hok.
  destruct (uploads_with_a_worker P E cfg files options w dep Hreq Hok)
    as (missing & Hrep & Hup & _).
  exists missing. split; [exact Hrep|].
  intros Hnd h Hin. rewrite Hup.
  apply NoDup_count_occ'; [now apply NoDup_rev | now apply in_rev in Hin].
Qed.

(** C9 fails on this run.  With [concurrency: 0] the remote index reports
    the fingerprint of [index.html] missing; nothing is uploaded, the upsert
    and the deployment go ahead, and [deployFiles] returns a deployment. *)
Theorem C9_no_upload_at_concurrency_0 :
  let run := deployFiles Scenario.platform Scenario.scripted Scenario.cfg
               [Scenario.plain "index.html" "A"]
               (Some (Scenario.with_concurrency 0))
               (Scenario.start
                  [Scenario.json "h.1700000000.s"; Scenario.json "51513d3d68746d6c";
                   Scenario.json "ok"; Scenario.json "https://site.pages.dev"]
                  [0%Z]) in
  result_of run
  = inr {| id := "deployment-id"; url := "https://site.pages.dev";
           hashes := [("index.html", "51513d3d68746d6c")] |}
  /\ steps (trace_of run)
     = [CheckMissing ["51513d3d68746d6c"]; Reported ["51513d3d68746d6c"];
        Upsert ["51513d3d68746d6c"];
        Deploy [Field "manifest" "/index.html=51513d3d68746d6c"]]
  /\ uploaded (trace_of run) = []
  /\ List.length (uploaded (trace_of run)) <> List.length ["51513d3d68746d6c"].
Proof. cbv zeta. repeat split. discriminate. Qed.

(** The same input with the default concurrency uploads the blob. *)
Example upload_at_default_concurrency :
  let run := deployFiles Scenario.platform Scenario.scripted Scenario.cfg
               [Scenario.plain "index.html" "A"] None
               (Scenario.start
                  [Scenario.json "h.1700000000.s"; Scenario.json "51513d3d68746d6c";
                   Scenario.json "ok"; Scenario.json "ok";
                   Scenario.json "https://site.pages.dev"]
                  [0%Z]) in
  steps (trace_of run)
  = [CheckMissing ["51513d3d68746d6c"]; Reported ["51513d3d68746d6c"];
     UploadBlob ["51513d3d68746d6c"]; Upsert ["51513d3d68746d6c"];
     Deploy [Field "manifest" "/index.html=51513d3d68746d6c"]].
Proof. reflexivity. Qed.

(** ** No worker *)

Lemma scheduled_without_worker (options : option DeploymentOptions)
    (missing : list string) :
  spawned_workers options = 0%nat -> scheduled options missing = [].
Proof. intros H. unfold scheduled. now rewrite H. Qed.

(** C10.  When the caller passes a concurrency of 0 or less (any number that
    is not above 0, NaN included), no worker is spawned and no blob is
    uploaded in any run; the run nevertheless goes on:
    once [checkMissing] has reported a non-empty list the upsert is entered,
    and when the upsert and the creation of the deployment succeed
    [deployFiles] returns the deployment, its steps being the check, the
    upsert (if anything was missing) and the deployment. *)
Theorem C10_no_worker_still_deploys (P : Platform) (E : Environment)
    (cfg : Config) (files : list DeploymentFile) (o : DeploymentOptions)
    (c : Js.number) (w : World E) :
  concurrency o = Some c ->
  Js.lt (Js.of_Z 0) c = false ->
  let options := Some o in
  let run := deployFiles P E cfg files options w in
  let st := steps (trace_of run) in
  spawned_workers options = 0%nat
  /\ uploaded (trace_of run) = []
  /\ (forall fs missing w1 t1,
        result_of (hash_files P E files (fresh_cache w)) = inr fs ->
        getMissingHashes P E (distinct (map wh_hash fs)) cfg (fresh_cache w)
        = (inr missing, w1, t1) ->
        (missing <> [] -> In (Upsert (distinct (map wh_hash fs))) st) /\
        forall w2 t2 d w3 t3,
          upsert_phase P E cfg missing (distinct (map wh_hash fs)) w1
          = (inr tt, w2, t2) ->
          createDeployment P E (form_of P fs options) cfg w2 = (inr d, w3, t3) ->
          result_of run
          = inr {| id := snd d; url := fst d; hashes := hashes_of fs |} /\
          world_of run = w3 /\
          st = (CheckMissing (distinct (map wh_hash fs)) :: Reported missing
                  :: (if (0 <? List.length missing)%nat
                      then [Upsert (distinct (map wh_hash fs))] else [])
                  ++ [Deploy (form_of P fs options)])%list).
Proof.
  intros Hc Hle. cbv zeta.
  assert (Hzero : spawned_workers (Some o) = 0%nat).
  { apply spawned_workers_zero. unfold requested_concurrency. now rewrite Hc. }
  pose proof (deployFiles_steps P E cfg files (Some o) w) as Hshape.
  cbv zeta in Hshape.
  split; [exact Hzero|]. split.
  - destruct (result_of (hash_files P E files (fresh_cache w))) as [e|fs].
    { destruct Hshape as [Hst _]. now rewrite (uploaded_of_steps _ _ Hst). }
    destruct (getMissingHashes P E _ cfg (fresh_cache w))
      as [[[e|missing] w1] t1].
    { destruct Hshape as [Hst _]. now rewrite (uploaded_of_steps _ _ Hst). }
    rewrite Hzero in Hshape.
    cbv beta iota delta [run_workers ret] in Hshape.
    rewrite (scheduled_without_worker _ missing Hzero) in Hshape.
    cbn [map app] in Hshape.
    destruct (upsert_phase P E cfg missing _ w1) as [[[e|u] w2] t2];
      destruct Hshape as [Hst _];
      rewrite (uploaded_of_steps _ _ Hst);
      destruct (0 <? List.length missing)%nat; reflexivity.
  - intros fs missing w1 t1 Hhash Hget.
    rewrite Hhash, Hget, Hzero in Hshape.
    cbv beta iota delta [run_workers ret] in Hshape.
    rewrite (scheduled_without_worker _ missing Hzero) in Hshape.
    cbn [map app] in Hshape. split.
    + intros Hne. apply length_pos_iff in Hne. rewrite Hne in Hshape.
      destruct (upsert_phase P E cfg missing _ w1) as [[[e|u] w2] t2];
        destruct Hshape as [Hst _]; rewrite Hst; cbn; tauto.
    + intros w2 t2 d w3 t3 Hup Hdep. rewrite Hup, Hdep in Hshape.
      destruct Hshape as (Hst & Hres & Hw). now repeat split.
Qed.

Lemma C10_witness :
  let run := deployFiles Scenario.platform Scenario.scripted Scenario.cfg
               [Scenario.plain "index.html" "A"; Scenario.plain "style.css" "A"]
               (Some (Scenario.with_concurrency 0))
               (Scenario.start
                  [Scenario.json "h.1700000000.s";
                   Scenario.json "51513d3d637373,51513d3d68746d6c";
                   Scenario.json "ok"; Scenario.json "https://site.pages.dev"]
                  [0%Z]) in
  uploaded (trace_of run) = []
  /\ In (Upsert ["51513d3d68746d6c"; "51513d3d637373"]) (steps (trace_of run))
  /\ result_of run
     = inr {| id := "deployment-id"; url := "https://site.pages.dev";
              hashes := [("index.html", "51513d3d68746d6c");
                         ("style.css", "51513d3d637373")] |}.
Proof.
  cbv zeta.
  destruct (C10_no_worker_still_deploys Scenario.platform Scenario.scripted
              Scenario.cfg
              [Scenario.plain "index.html" "A"; Scenario.plain "style.css" "A"]
              (Scenario.with_concurrency 0) (Js.of_Z 0)
              (Scenario.start
                 [Scenario.json "h.1700000000.s";
                  Scenario.json "51513d3d637373,51513d3d68746d6c";
                  Scenario.json "ok"; Scenario.json "https://site.pages.dev"]
                 [0%Z])
              eq_refl eq_refl) as (_ & Hnone & Hgo).
  split; [exact Hnone|].
  edestruct Hgo as [Hupsert Hdone]; [reflexivity | reflexivity |].
  split; [apply Hupsert; discriminate|].
  edestruct Hdone as (Hres & _ & _); [reflexivity | reflexivity |].
  exact Hres.
Defined.

(* ================================================================== *)
(** * Further properties: the content hasher *)
(* ================================================================== *)

Lemma hex_digit_is_hex (n : N) : is_hex (Buffer.hex_digit n) = true.
Proof.
  unfold Buffer.hex_digit. generalize (N.to_nat n) as k. intros k.
  do 16 (destruct k as [|k]; [reflexivity|]). reflexivity.
Qed.

Lemma toHex_is_hex (b : Buffer.t) : all_chars is_hex (Buffer.toHex b) = true.
Proof.
  induction b as [|x r IH]; [reflexivity|].
  cbn [Buffer.toHex all_chars]. now rewrite !hex_digit_is_hex, IH.
Qed.

Lemma slice0_all_chars (p : ascii -> bool) (n : nat) (s : string) :
  all_chars p s = true -> all_chars p (Str.slice0 n s) = true.
Proof.
  revert s. induction n as [|n IH]; intros s H; [reflexivity|].
  destruct s as [|c r]; [reflexivity|]. cbn in *.
  apply andb_true_iff in H as [Hc Hr]. now rewrite Hc, IH.
Qed.

Lemma slice0_length_min (n : nat) (s : string) :
  String.length (Str.slice0 n s) = Nat.min n (String.length s).
Proof.
  revert s. induction n as [|n IH]; intros s; [reflexivity|].
  destruct s as [|c r]; [reflexivity|]. cbn. now rewrite IH.
Qed.

(** X1.  Whatever the hash function, a fingerprint consists of lowercase
    hexadecimal digits only and has two digits per byte of the hash, cut at
    32: exactly 32 characters as soon as the hash has 16 bytes, as BLAKE3
    has. *)
Theorem X1_fingerprint_shape (blake3hash : string -> Buffer.t)
    (b64 filename : string) :
  all_chars is_hex (computeHashB64 blake3hash b64 filename) = true
  /\ String.length (computeHashB64 blake3hash b64 filename)
     = Nat.min 32 (2 * List.length (blake3hash (hashInput b64 filename)))
  /\ String.length (computeHashB64 Blake3.hash b64 filename) = 32%nat.
Proof.
  unfold computeHashB64. split; [|split].
  - apply slice0_all_chars, toHex_is_hex.
  - now rewrite slice0_length_min, toHex_length.
  - rewrite slice0_length_min, toHex_length, blake3_length. reflexivity.
Qed.

(* ================================================================== *)
(** * Further properties: the request *)
(* ================================================================== *)

Lemma doRequest_sends (E : Environment) {T : Type}
    (parse : string -> option (ApiResult T)) (url key : string)
    (options : RequestOptions) (w : World E) :
  trace_of (doRequest parse url key options w)
  = [Fetch (request_for url key options)]
  /\ result_of (doRequest parse url key options w)
     = match fst (env_fetch E (request_for url key options) (outside w)) with
       | inl e => inl e
       | inr res =>
           if not_json (content_type res) then inl (ExpectingJson (text res))
           else match parse (text res) with
                | Some r => inr r
                | None => inl (SyntaxError (text res))
                end
       end.
Proof.
  unfold doRequest, request_for, bind, fetch.
  match goal with
  | |- context [env_fetch E ?r ?o] => destruct (env_fetch E r o) as [[e|res] o']
  end; [now split|].
  cbn [fst]. destruct (not_json (content_type res)); [now split|].
  destruct (parse (text res)); now split.
Qed.

Lemma prefix_iff (n h : string) :
  String.prefix n h = true <-> exists post, h = n ++ post.
Proof.
  revert h. induction n as [|c n IH]; intros [|d h]; cbn.
  - split; [intros _; now exists EmptyString | reflexivity].
  - split; [intros _; now exists (String d h) | reflexivity].
  - split; [discriminate | intros [post H]; discriminate H].
  - destruct (Ascii.ascii_dec c d) as [->|Hne].
    + rewrite IH. split; intros [post H]; exists post.
      * now rewrite H.
      * now injection H.
    + split; [discriminate|]. intros [post H]. injection H as H _. congruence.
Qed.

Lemma includes_iff (n h : string) :
  Str.includes n h = true <-> exists pre post, h = pre ++ n ++ post.
Proof.
  induction h as [|d h IH].
  - cbn [Str.includes]. rewrite orb_false_r, prefix_iff. split.
    + intros [post H]. now exists EmptyString, post.
    + intros (pre & post & H). destruct pre as [|c pre]; [|discriminate H].
      now exists post.
  - cbn [Str.includes]. rewrite orb_true_iff, prefix_iff, IH. split.
    + intros [[post H] | (pre & post & H)].
      * now exists EmptyString, post.
      * exists (String d pre), post. cbn. now rewrite H.
    + intros (pre & post & H). destruct pre as [|c pre].
      * left. now exists post.
      * right. cbn in H. injection H as _ H. now exists pre, post.
Qed.

Lemma not_json_iff (type : option string) :
  not_json type = false
  <-> exists pre post, type = Some (pre ++ "application/json" ++ post).
Proof.
  destruct type as [ty|]; cbn.
  - rewrite orb_false_iff, !negb_false_iff. split.
    + intros [_ H]. apply includes_iff in H as (pre & post & ->).
      now exists pre, post.
    + intros (pre & post & H). injection H as ->. split.
      * now destruct pre.
      * apply includes_iff. now exists pre, post.
  - split; [discriminate | intros (pre & post & H); discriminate H].
Qed.

(** X2.  When its request is answered, [doRequest] looks at nothing but the
    content type and the text: if the content type contains
    [application/json] anywhere, the parsed envelope is returned (or the
    error of [JSON.parse] thrown); in every other case, an absent or empty
    content type included, it throws the "expecting json" error carrying the
    text, however well-formed that text is. *)
Theorem X2_content_type_guard (E : Environment) {T : Type}
    (parse : string -> option (ApiResult T)) (url key : string)
    (options : RequestOptions) (w : World E) (res : Response) (o : EnvState E) :
  env_fetch E (request_for url key options) (outside w) = (inr res, o) ->
  let run := doRequest parse url key options w in
  ((exists pre post,
       content_type res = Some (pre ++ "application/json" ++ post)) ->
   result_of run = match parse (text res) with
                   | Some r => inr r
                   | None => inl (SyntaxError (text res))
                   end)
  /\ (~ (exists pre post,
           content_type res = Some (pre ++ "application/json" ++ post)) ->
      result_of run = inl (ExpectingJson (text res))).
Proof.
  intros Hfetch. cbv zeta.
  destruct (doRequest_sends E parse url key options w) as [_ Hres].
  rewrite Hfetch in Hres. cbn [fst] in Hres. rewrite Hres. split.
  - intros H. apply not_json_iff in H. now rewrite H.
  - intros H. destruct (not_json (content_type res)) eqn:Hn; [reflexivity|].
    apply not_json_iff in Hn. contradiction.
Qed.

Lemma X2_witness :
  result_of (doRequest (E := Scenario.scripted) (parse_unknown Scenario.platform)
               "/pages/assets/upload" "key" no_options
               (Scenario.start [Scenario.json "ok"] []))
  = inr (Success tt)
  /\ result_of (doRequest (E := Scenario.scripted)
                  (parse_unknown Scenario.platform)
                  "/pages/assets/upload" "key" no_options
                  (Scenario.start [Scenario.html "ok"] []))
     = inl (ExpectingJson "ok").
Proof.
  split.
  - destruct (X2_content_type_guard Scenario.scripted
                (parse_unknown Scenario.platform) "/pages/assets/upload" "key"
                no_options (Scenario.start [Scenario.json "ok"] [])
                {| content_type := Some "application/json; charset=UTF-8";
                   text := "ok" |}
                {| Scenario.answers := []; Scenario.clock := [] |} eq_refl)
      as [H _].
    apply H. now exists EmptyString, "; charset=UTF-8".
  - destruct (X2_content_type_guard Scenario.scripted
                (parse_unknown Scenario.platform) "/pages/assets/upload" "key"
                no_options (Scenario.start [Scenario.html "ok"] [])
                {| content_type := Some "text/html"; text := "ok" |}
                {| Scenario.answers := []; Scenario.clock := [] |} eq_refl)
      as [_ H].
    apply H. intros H'. apply not_json_iff in H'. discriminate H'.
Defined.

Lemma lookup_set (k k' v : string) (o : Obj.t) :
  lookup k (Obj.set k' v o) = if String.eqb k' k then Some v else lookup k o.
Proof.
  induction o as [|[k0 v0] r IH]; cbn.
  - reflexivity.
  - destruct (String.eqb k0 k') eqn:H0; cbn.
    + apply String.eqb_eq in H0. subst k0.
      now destruct (String.eqb k' k).
    + rewrite IH. destruct (String.eqb k0 k) eqn:H1; [|reflexivity].
      apply String.eqb_eq in H1. subst k0. rewrite String.eqb_sym in H0.
      now rewrite H0.
Qed.

Lemma lookup_absent (k : string) (o : Obj.t) :
  ~ In k (map fst o) -> lookup k o = None.
Proof.
  induction o as [|[k0 v0] r IH]; cbn; intros H; [reflexivity|].
  destruct (String.eqb k0 k) eqn:H0.
  - apply String.eqb_eq in H0. tauto.
  - apply IH. tauto.
Qed.

(** [{ ...o, ...extra }]: a key of [extra] wins over the same key of [o]. *)
Lemma lookup_spread (k : string) (extra : Obj.t) :
  NoDup (map fst extra) ->
  forall o, lookup k (Obj.spread o extra)
            = match lookup k extra with
              | Some v => Some v
              | None => lookup k o
              end.
Proof.
  unfold Obj.spread.
  induction extra as [|[k0 v0] r IH]; intros Hnd o; cbn; [reflexivity|].
  inversion Hnd as [|? ? Hnotin Hnd']; subst.
  rewrite (IH Hnd'), lookup_set. cbn [fst snd].
  destruct (String.eqb k0 k) eqn:H0; [|reflexivity].
  apply String.eqb_eq in H0. subst k0. now rewrite lookup_absent.
Qed.

(** X3.  The request [doRequest] sends goes to the base URL followed by the
    path; a header the caller supplies wins over the default [Authorization]
    (the API key) and [User-Agent]; a non-empty string body forces
    [Content-Type: application/json], also over a content type of the
    caller, while any other body adds no content type; and the method is
    [POST] exactly when the body is truthy. *)
Theorem X3_request_headers (E : Environment) {T : Type}
    (parse : string -> option (ApiResult T)) (url key : string)
    (options : RequestOptions) (w : World E) :
  NoDup (map fst (ro_headers options)) ->
  let req := request_for url key options in
  trace_of (doRequest parse url key options w) = [Fetch req]
  /\ req_url req = BASE_URL ++ url
  /\ lookup "Authorization" (req_headers req)
     = Some (match lookup "Authorization" (ro_headers options) with
             | Some v => v
             | None => "Bearer " ++ key
             end)
  /\ lookup "User-Agent" (req_headers req)
     = Some (match lookup "User-Agent" (ro_headers options) with
             | Some v => v
             | None => "@adamburgess/cloudflare-pages-direct-upload@0.0.1"
             end)
  /\ lookup "Content-Type" (req_headers req)
     = (if body_truthy_string (ro_body options)
        then Some "application/json"
        else lookup "Content-Type" (ro_headers options))
  /\ (req_method req = POST <-> body_truthy (ro_body options) = true).
Proof.
  intros Hnd. cbv zeta.
  split; [apply (doRequest_sends E parse url key options w)|].
  split; [reflexivity|].
  unfold request_for. cbn [req_headers req_method].
  assert (Hl : forall k,
             lookup k (if body_truthy_string (ro_body options)
                       then Obj.set "Content-Type" "application/json"
                              (Obj.spread
                                 [("Authorization", "Bearer " ++ key);
                                  ("User-Agent",
                                   "@adamburgess/cloudflare-pages-direct-upload@0.0.1")]
                                 (ro_headers options))
                       else Obj.spread
                              [("Authorization", "Bearer " ++ key);
                               ("User-Agent",
                                "@adamburgess/cloudflare-pages-direct-upload@0.0.1")]
                              (ro_headers options))
             = if body_truthy_string (ro_body options)
                  && String.eqb "Content-Type" k
               then Some "application/json"
               else match lookup k (ro_headers options) with
                    | Some v => Some v
                    | None =>
                        lookup k
                          [("Authorization", "Bearer " ++ key);
                           ("User-Agent",
                            "@adamburgess/cloudflare-pages-direct-upload@0.0.1")]
                    end).
  { intros k. destruct (body_truthy_string (ro_body options)); cbn [andb].
    - rewrite lookup_set. destruct (String.eqb "Content-Type" k); [reflexivity|].
      now apply lookup_spread.
    - now apply lookup_spread. }
  rewrite !Hl. repeat split.
  - rewrite andb_false_r.
    now destruct (lookup "Authorization" (ro_headers options)).
  - rewrite andb_false_r.
    now destruct (lookup "User-Agent" (ro_headers options)).
  - destruct (body_truthy_string (ro_body options)); cbn; [reflexivity|].
    now destruct (lookup "Content-Type" (ro_headers options)).
  - destruct (body_truthy (ro_body options)); [reflexivity | discriminate].
  - intros ->. reflexivity.
Qed.

Lemma X3_witness :
  let req := request_for "/pages/assets/upload" "key"
               (bearer_options "token" "[]") in
  req_url req = "https://api.cloudflare.com/client/v4/pages/assets/upload"
  /\ lookup "Authorization" (req_headers req) = Some "Bearer token"
  /\ lookup "Content-Type" (req_headers req) = Some "application/json"
  /\ req_method req = POST.
Proof.
  cbv zeta.
  destruct (X3_request_headers Scenario.scripted
              (parse_unknown Scenario.platform) "/pages/assets/upload" "key"
              (bearer_options "token" "[]") (Scenario.start [] []))
    as (_ & Hurl & Hauth & _ & Hct & Hm).
  - cbn. repeat constructor. intros [].
  - split; [exact Hurl|]. split; [exact Hauth|]. split; [exact Hct|].
    now apply Hm.
Defined.

(* ================================================================== *)
(** * Further properties: the retry budget *)
(* ================================================================== *)

Lemma retry_loop_fetches_le (E : Environment) {T : Type}
    (parse : string -> option (ApiResult T)) (url key : string)
    (options : RequestOptions) (remaining : nat) :
  forall (count : nat) (last : Thrown) (w : World E),
    (List.length
       (fetches (trace_of (retry_loop parse url key options remaining count last w)))
     <= remaining)%nat.
Proof.
  induction remaining as [|n IH]; intros count last w; [cbn; lia|].
  rewrite retry_loop_step.
  destruct (attempt_cases E parse url key options w) as (r & w1 & req & Hrun).
  rewrite Hrun. destruct r as [e|a]; [|cbn; lia].
  cbv zeta. project. rewrite !fetches_app, fetches_log.
  cbn [fetches flat_map app List.length].
  fold (fetches (trace_of (retry_loop parse url key options n (S count) e w1))).
  specialize (IH (S count) e w1). lia.
Qed.

(** X4.  The wrapper never sends more requests than its budget [retries];
    when it throws it has sent exactly [retries] requests and waited
    [retries] times, the last wait coming after the last attempt; and with a
    budget of 0 it throws [undefined] at once, without any request. *)
Theorem X4_retry_budget (E : Environment) {T : Type}
    (parse : string -> option (ApiResult T)) (url key : string)
    (options : RequestOptions) (retries : nat) (w : World E) :
  let run := doRequestWithRetries parse url key options retries w in
  (List.length (fetches (trace_of run)) <= retries)%nat
  /\ (returned (result_of run) = false ->
      List.length (fetches (trace_of run)) = retries /\
      List.length (sleeps (trace_of run)) = retries)
  /\ (returned (result_of run) = true ->
      S (List.length (sleeps (trace_of run)))
      = List.length (fetches (trace_of run)))
  /\ doRequestWithRetries parse url key options 0 w
     = (inl ThrownUndefined, w, []).
Proof.
  cbv zeta. unfold doRequestWithRetries.
  destruct (retry_loop_sleeps E parse url key options retries 0
              ThrownUndefined w) as (_ & Hf & _ & Hall).
  cbv zeta in Hf, Hall.
  split; [apply retry_loop_fetches_le|]. split; [|split; [|reflexivity]].
  - intros Hthrown. rewrite Hthrown in Hf. specialize (Hall Hthrown). lia.
  - intros Hret. rewrite Hret in Hf. lia.
Qed.

Lemma X4_witness :
  let run := doRequestWithRetries (E := Scenario.scripted)
               (parse_unknown Scenario.platform) "/pages/assets/upload" "key"
               no_options 2
               (Scenario.start
                  [Scenario.down; Scenario.down; Scenario.json "ok"] []) in
  List.length (fetches (trace_of run)) = 2%nat
  /\ List.length (sleeps (trace_of run)) = 2%nat.
Proof.
  cbv zeta.
  destruct (X4_retry_budget Scenario.scripted
              (parse_unknown Scenario.platform) "/pages/assets/upload" "key"
              no_options 2
              (Scenario.start
                 [Scenario.down; Scenario.down; Scenario.json "ok"] []))
    as (_ & H & _).
  apply H. reflexivity.
Defined.

(* ================================================================== *)
(** * Further properties: the token cache *)
(* ================================================================== *)

Lemma world_bind {E A B} (m : M E A) (k : A -> M E B) (w : World E) :
  world_of (bind m k w)
  = match result_of (m w) with
    | inl _ => world_of (m w)
    | inr a => world_of (k a (world_of (m w)))
    end.
Proof. rewrite bind_run. now destruct (m w) as [[[e|a] w1] t1]. Qed.

Section KeepsCache.

Variable E : Environment.

Lemma keeps_ret {A} (a : A) : keeps_cache (ret (E := E) a).
Proof. intros w. reflexivity. Qed.

Lemma keeps_throw {A} (e : Thrown) : keeps_cache (throw (E := E) (A := A) e).
Proof. intros w. reflexivity. Qed.

Lemma keeps_emit (ev : Event) : keeps_cache (emit (E := E) ev).
Proof. intros w. reflexivity. Qed.

Lemma keeps_bind {A B} (m : M E A) (k : A -> M E B) :
  keeps_cache m -> (forall a, keeps_cache (k a)) -> keeps_cache (bind m k).
Proof.
  intros Hm Hk w. rewrite world_bind.
  destruct (result_of (m w)); [apply Hm | now rewrite Hk, Hm].
Qed.

Lemma keeps_fetch (r : Request) : keeps_cache (fetch (E := E) r).
Proof.
  intros w. unfold fetch. now destruct (env_fetch E r (outside w)) as [[e|res] o].
Qed.

Lemma keeps_newDate : keeps_cache (newDate (E := E)).
Proof. intros w. unfold newDate. now destruct (env_now E (outside w)). Qed.

Lemma keeps_doRequest {T} (parse : string -> option (ApiResult T))
    (url key : string) (options : RequestOptions) :
  keeps_cache (doRequest (E := E) parse url key options).
Proof.
  unfold doRequest. apply keeps_bind; [apply keeps_fetch|]. intros res.
  destruct (not_json (content_type res)); [apply keeps_throw|].
  destruct (parse (text res)); [apply keeps_ret | apply keeps_throw].
Qed.

Lemma keeps_retry_loop {T} (parse : string -> option (ApiResult T))
    (url key : string) (options : RequestOptions) (remaining : nat) :
  forall count last,
    keeps_cache (retry_loop (E := E) parse url key options remaining count last).
Proof.
  induction remaining as [|n IH]; intros count last w; [reflexivity|].
  rewrite retry_loop_step.
  pose proof (keeps_doRequest parse url key options w) as Hd.
  destruct (doRequest parse url key options w) as [[[e|a] w1] t1];
    project_in Hd; [|now project].
  cbv zeta. project. now rewrite IH.
Qed.

Lemma keeps_doRequestWithRetries {T} (parse : string -> option (ApiResult T))
    (url key : string) (options : RequestOptions) (retries : nat) :
  keeps_cache (doRequestWithRetries (E := E) parse url key options retries).
Proof. apply keeps_retry_loop. Qed.

Variable P : Platform.
Variable cfg : Config.

Lemma keeps_getJwt : keeps_cache (getJwt P E cfg).
Proof.
  unfold getJwt. apply keeps_bind; [apply keeps_emit|]. intros _.
  apply keeps_bind; [apply keeps_doRequestWithRetries|].
  intros [jwt|errors]; [apply keeps_ret | apply keeps_throw].
Qed.

Lemma keeps_createDeployment (body : FormData) :
  keeps_cache (createDeployment P E body cfg).
Proof.
  unfold createDeployment. apply keeps_bind; [apply keeps_emit|]. intros _.
  apply keeps_bind; [apply keeps_doRequestWithRetries|].
  intros [d|errors]; [apply keeps_ret | apply keeps_throw].
Qed.

(** What [get] leaves in the cache. *)
Lemma get_cache (w : World E) :
  match result_of (JWTCache_get P E cfg w) with
  | inr jwt =>
      exists c, jwt_field (world_of (JWTCache_get P E cfg w)) = Some c /\
                cached_jwt c = jwt
  | inl _ => jwt_field (world_of (JWTCache_get P E cfg w)) = jwt_field w
  end.
Proof.
  assert (Hrefresh : forall w0 : World E,
    match result_of
            ((jwt <- getJwt P E cfg ;;
              match nth_error (Str.split "." jwt) 1 with
              | None => throw (TypeError "Buffer.from(undefined)")
              | Some segment =>
                  match parse_claims P (base64_to_utf8 P segment) with
                  | None => throw (SyntaxError (base64_to_utf8 P segment))
                  | Some exp =>
                      write_jwt_field
                        (Some {| cached_jwt := jwt;
                                 cached_expiry := exp * 1000 - 60000 |}) ;;
                      ret jwt
                  end
              end) w0) with
    | inr jwt =>
        exists c,
          jwt_field
            (world_of
               ((jwt <- getJwt P E cfg ;;
                 match nth_error (Str.split "." jwt) 1 with
                 | None => throw (TypeError "Buffer.from(undefined)")
                 | Some segment =>
                     match parse_claims P (base64_to_utf8 P segment) with
                     | None => throw (SyntaxError (base64_to_utf8 P segment))
                     | Some exp =>
                         write_jwt_field
                           (Some {| cached_jwt := jwt;
                                    cached_expiry := exp * 1000 - 60000 |}) ;;
                         ret jwt
                     end
                 end) w0)) = Some c /\ cached_jwt c = jwt
    | inl _ =>
        jwt_field
          (world_of
             ((jwt <- getJwt P E cfg ;;
               match nth_error (Str.split "." jwt) 1 with
               | None => throw (TypeError "Buffer.from(undefined)")
               | Some segment =>
                   match parse_claims P (base64_to_utf8 P segment) with
                   | None => throw (SyntaxError (base64_to_utf8 P segment))
                   | Some exp =>
                       write_jwt_field
                         (Some {| cached_jwt := jwt;
                                  cached_expiry := exp * 1000 - 60000 |}) ;;
                       ret jwt
                   end
               end) w0)) = jwt_field w0
    end).
  { intros w0. rewrite bind_run.
    pose proof (keeps_getJwt w0) as Hk.
    destruct (getJwt P E cfg w0) as [[[e|jwt] w1] t1]; project_in Hk;
      [now project|].
    destruct (nth_error (Str.split "." jwt) 1) as [segment|];
      [|now project].
    destruct (parse_claims P (base64_to_utf8 P segment)) as [exp|];
      [|now project].
    rewrite bind_write. unfold ret. project. cbn [jwt_field].
    eexists. split; reflexivity. }
  unfold JWTCache_get. cbv zeta. rewrite bind_read.
  destruct (jwt_field w) as [c|] eqn:Hc.
  - destruct (env_now E (outside w)) as [now o] eqn:Hnow.
    rewrite bind_assoc, (bind_newDate _ w now o Hnow), bind_ret, Hc. project.
    destruct (cached_expiry c <? now)%Z.
    + specialize (Hrefresh {| outside := o; jwt_field := Some c |}).
      cbn [jwt_field] in Hrefresh. exact Hrefresh.
    + unfold ret. project. cbn [jwt_field]. now exists c.
  - rewrite bind_ret. specialize (Hrefresh w). now rewrite Hc in Hrefresh.
Qed.

(** A cached token that has not expired is served from the cache. *)
Lemma cache_hit (w : World E) (c : CachedJwt) (now : Z) (o : EnvState E) :
  jwt_field w = Some c ->
  env_now E (outside w) = (now, o) ->
  (now <= cached_expiry c)%Z ->
  JWTCache_get P E cfg w
  = (inr (cached_jwt c), {| outside := o; jwt_field := Some c |}, [Clock now]).
Proof.
  intros Hsome Hnow Hle. unfold JWTCache_get.
  rewrite bind_read, Hsome, bind_assoc, (bind_newDate _ w now o Hnow).
  rewrite Hsome, bind_ret.
  assert (Hge : (cached_expiry c <? now)%Z = false) by (apply Z.ltb_ge; lia).
  now rewrite Hge.
Qed.

End KeepsCache.

(** The requests never touch the token cache: whatever the remote
    answers and however often the wrapper retries, [doRequestWithRetries],
    [getJwt] and [createDeployment] leave the cached token as it was. *)
Lemma requests_keep_cache (P : Platform) (E : Environment) (cfg : Config)
    {T : Type} (parse : string -> option (ApiResult T)) (url key : string)
    (options : RequestOptions) (retries : nat) (body : FormData) (w : World E) :
  jwt_field (world_of (doRequestWithRetries parse url key options retries w))
  = jwt_field w
  /\ jwt_field (world_of (getJwt P E cfg w)) = jwt_field w
  /\ jwt_field (world_of (createDeployment P E body cfg w)) = jwt_field w.
Proof.
  split; [apply keeps_doRequestWithRetries|].
  split; [apply keeps_getJwt | apply keeps_createDeployment].
Qed.

(** X7.  Whenever [get] returns a token, the cache holds that very token
    afterwards; whenever [get] throws (the token could not be fetched or
    decoded), the cache is left as it was. *)
Theorem X7_cache_after_get (P : Platform) (E : Environment) (cfg : Config)
    (w : World E) :
  let run := JWTCache_get P E cfg w in
  (forall jwt, result_of run = inr jwt ->
     exists c, jwt_field (world_of run) = Some c /\ cached_jwt c = jwt)
  /\ (forall e, result_of run = inl e ->
        jwt_field (world_of run) = jwt_field w).
Proof.
  cbv zeta. pose proof (get_cache E P cfg w) as H.
  split; intros x Hx; rewrite Hx in H.
  - exact H.
  - exact H.
Qed.

Lemma X7_witness :
  let run := JWTCache_get Scenario.platform Scenario.scripted Scenario.cfg
               (Scenario.start [Scenario.json "h.1700000000.s"] [0%Z]) in
  exists c, jwt_field (world_of run) = Some c /\ cached_jwt c = "h.1700000000.s".
Proof.
  cbv zeta.
  destruct (X7_cache_after_get Scenario.platform Scenario.scripted Scenario.cfg
              (Scenario.start [Scenario.json "h.1700000000.s"] [0%Z]))
    as [H _].
  apply H. reflexivity.
Defined.

(** X8.  A token [get] has returned is reused: a later [get] on the same
    cache, at any reading of the clock up to the stored expiry, returns the
    same token without any request. *)
Theorem X8_token_reused (P : Platform) (E : Environment) (cfg : Config)
    (w w1 : World E) (jwt : string) (t : list Event) :
  JWTCache_get P E cfg w = (inr jwt, w1, t) ->
  exists c,
    jwt_field w1 = Some c /\ cached_jwt c = jwt /\
    forall now o,
      env_now E (outside w1) = (now, o) ->
      (now <= cached_expiry c)%Z ->
      JWTCache_get P E cfg w1
      = (inr jwt, {| outside := o; jwt_field := Some c |}, [Clock now]).
Proof.
  intros Hrun. pose proof (get_cache E P cfg w) as H.
  rewrite Hrun in H. project_in H. destruct H as (c & Hc & Hjwt).
  exists c. split; [exact Hc|]. split; [exact Hjwt|].
  intros now o Hnow Hle. rewrite <- Hjwt. now apply cache_hit.
Qed.

Lemma X8_witness :
  let first := JWTCache_get Scenario.platform Scenario.scripted Scenario.cfg
                 (Scenario.start [Scenario.json "h.1700000000.s"] [0%Z; 7%Z]) in
  result_of (JWTCache_get Scenario.platform Scenario.scripted Scenario.cfg
               (world_of first)) = inr "h.1700000000.s"
  /\ fetches (trace_of (JWTCache_get Scenario.platform Scenario.scripted
                          Scenario.cfg (world_of first))) = [].
Proof.
  cbv zeta.
  edestruct (X8_token_reused Scenario.platform Scenario.scripted Scenario.cfg
               (Scenario.start [Scenario.json "h.1700000000.s"] [0%Z; 7%Z]))
    as (c & Hc & Hjwt & Hagain); [reflexivity|].
  injection Hc as <-.
  assert (Hg := fun H => Hagain 0%Z _ eq_refl H).
  specialize (Hg ltac:(cbn; lia)).
  split.
  - exact (f_equal result_of Hg).
  - exact (f_equal (fun o => fetches (trace_of o)) Hg).
Defined.

Lemma split_lacks (sep : ascii) (s : string) :
  Str.lacks sep s = true -> Str.split sep s = [s].
Proof.
  induction s as [|c r IH]; [reflexivity|]. cbn. intros H.
  apply andb_true_iff in H as [Hc Hr]. apply negb_true_iff in Hc.
  now rewrite Hc, (IH Hr).
Qed.


Lemma split_nonempty (sep : ascii) (s : string) : Str.split sep s <> [].
Proof.
  destruct s as [|c r]; cbn; [discriminate|].
  destruct (Ascii.eqb c sep); [discriminate|].
  destruct (Str.split sep r); discriminate.
Qed.

(** X9.  A token that cannot be decoded is never cached.  When the cache is
    empty and the token fetched has no dot, [get] throws a [TypeError]; when
    its second segment does not parse, [get] throws the error of
    [JSON.parse]; both times after the token request, and the cache stays
    empty, so that the next [get] fetches again. *)
Theorem X9_undecodable_token (P : Platform) (E : Environment) (cfg : Config)
    (w w1 : World E) (jwt : string) (t : list Event) :
  jwt_field w = None ->
  getJwt P E cfg w = (inr jwt, w1, t) ->
  (Str.lacks "." jwt = true ->
   JWTCache_get P E cfg w = (inl (TypeError "Buffer.from(undefined)"), w1, t))
  /\ (forall segment,
        nth_error (Str.split "." jwt) 1 = Some segment ->
        parse_claims P (base64_to_utf8 P segment) = None ->
        JWTCache_get P E cfg w
        = (inl (SyntaxError (base64_to_utf8 P segment)), w1, t))
  /\ jwt_field w1 = None.
Proof.
  intros Hnone Hget.
  assert (Hw1 : jwt_field w1 = None).
  { pose proof (keeps_getJwt E P cfg w) as Hk. rewrite Hget in Hk.
    project_in Hk. now rewrite Hk. }
  split; [|split; [|exact Hw1]].
  - intros Hlacks. unfold JWTCache_get.
    rewrite bind_read, Hnone, bind_ret, bind_run, Hget.
    rewrite (split_lacks "." jwt Hlacks). cbn [nth_error].
    unfold throw. project. now rewrite app_nil_r.
  - intros segment Hseg Hparse. unfold JWTCache_get.
    rewrite bind_read, Hnone, bind_ret, bind_run, Hget, Hseg. cbv zeta.
    rewrite Hparse. unfold throw. project. now rewrite app_nil_r.
Qed.

Lemma X9_witness :
  result_of (JWTCache_get Scenario.platform Scenario.scripted Scenario.cfg
               (Scenario.start [Scenario.json "opaque-token"] [0%Z]))
  = inl (TypeError "Buffer.from(undefined)")
  /\ result_of (JWTCache_get Scenario.platform Scenario.scripted Scenario.cfg
                  (Scenario.start [Scenario.json "h.claims.s"] [0%Z]))
     = inl (SyntaxError "claims").
Proof.
  split.
  - edestruct (X9_undecodable_token Scenario.platform Scenario.scripted
                 Scenario.cfg
                 (Scenario.start [Scenario.json "opaque-token"] [0%Z]))
      as (H & _ & _); [reflexivity | reflexivity |].
    rewrite H; reflexivity.
  - edestruct (X9_undecodable_token Scenario.platform Scenario.scripted
                 Scenario.cfg
                 (Scenario.start [Scenario.json "h.claims.s"] [0%Z]))
      as (_ & H & _); [reflexivity | reflexivity |].
    erewrite H; reflexivity.
Defined.


(* ================================================================== *)
(** * Further properties: how a deployment fails *)
(* ================================================================== *)

(** The wrapper returns what the first attempt returns. *)
Lemma doRequestWithRetries_first (E : Environment) {T : Type}
    (parse : string -> option (ApiResult T)) (url key : string)
    (options : RequestOptions) (w w' : World E) (r : ApiResult T)
    (t : list Event) :
  doRequest parse url key options w = (inr r, w', t) ->
  doRequestWithRetries parse url key options default_retries w = (inr r, w', t).
Proof.
  intros H. unfold doRequestWithRetries, default_retries.
  now rewrite retry_loop_step, H.
Qed.

(** X11.  A [success: false] answer to the check-missing request is not
    retried and aborts the deployment: [deployFiles] throws the "failed..."
    error carrying the error list of the answer, after that single request,
    and neither uploads, upserts nor creates a deployment. *)
Theorem X11_check_failure_aborts (P : Platform) (E : Environment) (cfg : Config)
    (files : list DeploymentFile) (options : option DeploymentOptions)
    (w w1 w2 : World E) (fs : list DeploymentFileWithHash) (token : string)
    (errors : list ApiError) (t1 t2 : list Event) :
  result_of (hash_files P E files (fresh_cache w)) = inr fs ->
  let keys := distinct (map wh_hash fs) in
  JWTCache_get P E cfg (fresh_cache w) = (inr token, w1, t1) ->
  doRequest (parse_hashes P) "/pages/assets/check-missing" (apiKey cfg)
    (bearer_options token (stringify_hashes P keys)) w1
  = (inr (Failure errors), w2, t2) ->
  deployFiles P E cfg files options w
  = (inl (FailedCheckMissing errors), w2,
     (Enter (CallCheckMissing keys) :: t1 ++ t2)%list)
  /\ steps (trace_of (deployFiles P E cfg files options w))
     = [CheckMissing keys].
Proof.
  intros Hhash keys Hget Hreq.
  assert (Hcheck : getMissingHashes P E keys cfg (fresh_cache w)
                   = (inl (FailedCheckMissing errors), w2,
                      (Enter (CallCheckMissing keys) :: t1 ++ t2)%list)).
  { unfold getMissingHashes. rewrite bind_emit, bind_run, Hget.
    rewrite bind_run, (doRequestWithRetries_first E _ _ _ _ _ _ _ _ Hreq).
    unfold throw. project. now rewrite app_nil_r. }
  assert (Hrun : deployFiles P E cfg files options w
                 = (inl (FailedCheckMissing errors), w2,
                    (Enter (CallCheckMissing keys) :: t1 ++ t2)%list)).
  { rewrite deployFiles_run. cbv zeta. rewrite Hhash. fold keys.
    now rewrite Hcheck. }
  split; [exact Hrun|].
  pose proof (getMissingHashes_steps E P cfg keys (fresh_cache w)) as Hst.
  rewrite Hcheck in Hst. project_in Hst. rewrite Hrun. project. exact Hst.
Qed.

Lemma X11_witness :
  let run := deployFiles Scenario.platform Scenario.scripted Scenario.cfg
               [Scenario.plain "index.html" "A"] None
               (Scenario.start
                  [Scenario.json "h.1700000000.s"; Scenario.json "!denied";
                   Scenario.json "unused"] [0%Z]) in
  result_of run
  = inl (FailedCheckMissing [{| code := 8000000; message := "!denied" |}])
  /\ steps (trace_of run) = [CheckMissing ["51513d3d68746d6c"]].
Proof.
  cbv zeta.
  edestruct (X11_check_failure_aborts Scenario.platform Scenario.scripted
               Scenario.cfg [Scenario.plain "index.html" "A"] None
               (Scenario.start
                  [Scenario.json "h.1700000000.s"; Scenario.json "!denied";
                   Scenario.json "unused"] [0%Z]))
    as [Hrun Hst]; [reflexivity | reflexivity | reflexivity |].
  split; [now rewrite Hrun | exact Hst].
Defined.

(** A file that cannot be hashed: no usable [hash], and a producer that
    rejects. *)
Lemma hash_files_rejects (P : Platform) (E : Environment)
    (files : list DeploymentFile) (w : World E) :
  (exists f e, In f files /\ truthy_opt (hash f) = false /\
               content f = Producer (inl e)) ->
  exists f e, In f files /\ truthy_opt (hash f) = false /\
              content f = Producer (inl e) /\
              result_of (hash_files P E files w) = inl e.
Proof.
  induction files as [|file rest IH]; intros (f & e & Hin & Hf & Hc);
    [destruct Hin|].
  cbn [hash_files]. rewrite result_bind.
  rewrite (hash_file_pure P E file w w). project.
  destruct (result_of (hash_file P E file w)) as [e0|f0] eqn:Hfile.
  - exists file, e0. split; [now left|].
    unfold hash_file in Hfile. cbv zeta in Hfile. unfold truthy_opt.
    destruct (hash file) as [h|].
    + destruct (Str.truthy h); [discriminate Hfile|].
      destruct (content file) as [b|[e1|b]]; try discriminate Hfile.
      injection Hfile as ->. now repeat split.
    + destruct (content file) as [b|[e1|b]]; try discriminate Hfile.
      injection Hfile as ->. now repeat split.
  - assert (Hrest : exists f e, In f rest /\ truthy_opt (hash f) = false /\
                                content f = Producer (inl e)).
    { destruct Hin as [<-|Hin]; [|now exists f, e].
      exfalso. unfold hash_file in Hfile. cbv zeta in Hfile.
      unfold truthy_opt in Hf. rewrite Hc in Hfile.
      destruct (hash file) as [h|]; [rewrite Hf in Hfile|]; discriminate Hfile. }
    destruct (IH Hrest) as (f' & e' & Hin' & Hf' & Hc' & Hres).
    exists f', e'. split; [now right|]. split; [exact Hf'|].
    split; [exact Hc'|].
    rewrite result_bind, Hres. reflexivity.
Qed.

(** X12.  When an input file has no usable [hash] and its content producer
    rejects, [deployFiles] re-throws the rejection of such a file before
    anything is sent: the run has no event at all. *)
Theorem X12_unreadable_file_aborts (P : Platform) (E : Environment)
    (cfg : Config) (files : list DeploymentFile)
    (options : option DeploymentOptions) (w : World E)
    (f : DeploymentFile) (e : Thrown) :
  In f files ->
  truthy_opt (hash f) = false ->
  content f = Producer (inl e) ->
  exists f' e',
    In f' files /\ truthy_opt (hash f') = false /\
    content f' = Producer (inl e') /\
    deployFiles P E cfg files options w = (inl e', fresh_cache w, []).
Proof.
  intros Hin Hf Hc.
  destruct (hash_files_rejects P E files (fresh_cache w))
    as (f' & e' & Hin' & Hf' & Hc' & Hres); [now exists f, e|].
  exists f', e'. repeat split; try assumption.
  rewrite deployFiles_run. cbv zeta. now rewrite Hres.
Qed.

Lemma X12_witness :
  deployFiles Scenario.platform Scenario.scripted Scenario.cfg
    [Scenario.plain "index.html" "A";
     {| filename := "big.zip"; content := Producer (inl (Rejected "ENOENT"));
        contentType := None; hash := None |}]
    None (Scenario.start [Scenario.json "h.1700000000.s"] [0%Z])
  = (inl (Rejected "ENOENT"),
     fresh_cache (Scenario.start [Scenario.json "h.1700000000.s"] [0%Z]), []).
Proof.
  destruct (X12_unreadable_file_aborts Scenario.platform Scenario.scripted
              Scenario.cfg
              [Scenario.plain "index.html" "A";
               {| filename := "big.zip";
                  content := Producer (inl (Rejected "ENOENT"));
                  contentType := None; hash := None |}]
              None (Scenario.start [Scenario.json "h.1700000000.s"] [0%Z])
              {| filename := "big.zip";
                 content := Producer (inl (Rejected "ENOENT"));
                 contentType := None; hash := None |}
              (Rejected "ENOENT"))
    as (f' & e' & Hin & _ & Hc & Hrun);
    [right; left; reflexivity | reflexivity | reflexivity |].
  rewrite Hrun. destruct Hin as [<-|[<-|[]]]; [discriminate Hc|].
  injection Hc as <-. reflexivity.
Defined.

Lemma no_deploy_among_uploads (body : FormData) (l : list string) :
  ~ In (Deploy body) (map upload_of l).
Proof. intros H. apply in_map_iff in H as (h & Hh & _). discriminate Hh. Qed.

Lemma no_deploy_so_far (body : FormData) (keys missing ups : list string) :
  ~ In (Deploy body)
      (CheckMissing keys :: Reported missing :: map upload_of ups
         ++ if (0 <? List.length missing)%nat then [Upsert keys] else [])%list.
Proof.
  intros [H|[H|H]]; try discriminate H.
  apply in_app_or in H as [H|H]; [now apply no_deploy_among_uploads in H|].
  destruct (0 <? List.length missing)%nat; [|destruct H].
  destruct H as [H|[]]. discriminate H.
Qed.

(** X13.  A deployment is created at most once, as the last step of the run
    and only when everything before it went through: whenever
    [createDeployment] is entered, the run consists of the check, the uploads
    of everything scheduled, the upsert (if anything was missing) and then
    the deployment, whose form is the one built from all the input files;
    and a run that returns has created the deployment. *)
Theorem X13_deployment_is_last (P : Platform) (E : Environment) (cfg : Config)
    (files : list DeploymentFile) (options : option DeploymentOptions)
    (w : World E) :
  let run := deployFiles P E cfg files options w in
  let st := steps (trace_of run) in
  (forall body,
      In (Deploy body) st ->
      exists fs missing,
        result_of (hash_files P E files (fresh_cache w)) = inr fs /\
        body = form_of P fs options /\
        st = ((CheckMissing (distinct (map wh_hash fs)) :: Reported missing
                 :: map upload_of (scheduled options missing)
                 ++ if (0 <? List.length missing)%nat
                    then [Upsert (distinct (map wh_hash fs))] else [])
                ++ [Deploy body])%list)
  /\ (forall dep,
        result_of run = inr dep ->
        exists fs,
          result_of (hash_files P E files (fresh_cache w)) = inr fs /\
          In (Deploy (form_of P fs options)) st /\
          hashes dep = hashes_of fs).
Proof.
  cbv zeta. pose proof (deployFiles_steps P E cfg files options w) as Hshape.
  cbv zeta in Hshape.
  destruct (result_of (hash_files P E files (fresh_cache w))) as [e|fs].
  { destruct Hshape as [Hst Hr]. rewrite Hst, Hr.
    split; [intros body [] | intros dep H; discriminate H]. }
  destruct (getMissingHashes P E _ cfg (fresh_cache w)) as [[[e|missing] w1] t1].
  { destruct Hshape as [Hst Hr]. rewrite Hst, Hr. split.
    - intros body [H|[]]. discriminate H.
    - intros dep H. discriminate H. }
  destruct (run_workers P E cfg fs _ _ _ w1) as [[[e|left] w2] t2].
  { destruct Hshape as [(done & rest & _ & Hst) Hr]. rewrite Hst, Hr. split.
    - intros body [H|[H|H]]; try discriminate H.
      now apply no_deploy_among_uploads in H.
    - intros dep H. discriminate H. }
  destruct (upsert_phase P E cfg missing _ w2) as [[[e|u] w3] t3].
  { destruct Hshape as [Hst Hr]. rewrite Hst, Hr. split.
    - intros body H. now apply no_deploy_so_far in H.
    - intros dep H. discriminate H. }
  destruct Hshape as [Hst Hres]. rewrite Hst. split.
  - intros body H. apply in_app_or in H as [H|H];
      [now apply no_deploy_so_far in H|].
    destruct H as [H|[]]. injection H as <-.
    exists fs, missing. now repeat split.
  - intros dep Hdep. exists fs. split; [reflexivity|].
    split; [apply in_or_app; right; now left|].
    destruct (createDeployment P E _ cfg w3) as [[[e|d] w4] t4];
      destruct Hres as [Hr _]; rewrite Hr in Hdep; [discriminate Hdep|].
    now injection Hdep as <-.
Qed.

Lemma X13_witness :
  let run := deployFiles Scenario.platform Scenario.scripted Scenario.cfg
               [Scenario.plain "index.html" "A"] None
               (Scenario.start
                  [Scenario.json "h.1700000000.s"; Scenario.json EmptyString;
                   Scenario.json "https://site.pages.dev"] [0%Z]) in
  exists fs,
    In (Deploy (form_of Scenario.platform fs None)) (steps (trace_of run))
    /\ hashes_of fs = [("index.html", "51513d3d68746d6c")].
Proof.
  cbv zeta.
  destruct (X13_deployment_is_last Scenario.platform Scenario.scripted
              Scenario.cfg [Scenario.plain "index.html" "A"] None
              (Scenario.start
                 [Scenario.json "h.1700000000.s"; Scenario.json EmptyString;
                  Scenario.json "https://site.pages.dev"] [0%Z]))
    as [_ H].
  edestruct H as (fs & Hfs & Hin & Hh); [reflexivity|].
  exists fs. split; [exact Hin|]. now rewrite <- Hh.
Defined.

(* ================================================================== *)
(** * Further properties: what is uploaded *)
(* ================================================================== *)

Section UploadErrors.

Variable P : Platform.
Variable E : Environment.
Variable cfg : Config.
Variable fs : list DeploymentFileWithHash.
Variable logging : bool.

Lemma upload_missing_unknown (h : string) (w : World E) :
  find (fun x => String.eqb (wh_hash x) h) fs = None ->
  upload_missing P E cfg fs logging h w
  = (inl (TypeError "file is undefined"), w, []).
Proof. intros H. unfold upload_missing. now rewrite H. Qed.

Lemma upload_missing_buffer (h : string) (file : DeploymentFileWithHash)
    (b : Buffer.t) (w : World E) :
  find (fun x => String.eqb (wh_hash x) h) fs = Some file ->
  wh_contentBase64 file = None ->
  content (wh_file file) = Buf b ->
  exists t,
    upload_missing P E cfg fs logging h w
    = (inl (TypeError "file.content is not a function"), w, t)
    /\ steps t = [].
Proof.
  intros Hfind Hnone Hbuf. unfold upload_missing. rewrite Hfind. cbv zeta.
  rewrite bind_run, log_with_run, Hnone, Hbuf, bind_throw. project.
  eexists. split; [reflexivity|]. now destruct logging.
Qed.

(** The first turn of the only worker fails: the upload phase fails. *)
Lemma run_workers_first_fails (n : nat) (h : string) (stack : list string)
    (w : World E) (e : Thrown) (t : list Event) :
  upload_missing P E cfg fs logging h w = (inl e, w, t) ->
  run_workers P E cfg fs logging (S n) (h :: stack) w = (inl e, w, t).
Proof.
  intros H. cbn [run_workers upload_worker]. now rewrite bind_assoc, bind_run, H.
Qed.

End UploadErrors.

(** X14.  With a worker, the fingerprint reported last is taken first; if no
    input file has that fingerprint, or if the first file that has it came
    with a precomputed hash and a [Buffer] as content (so that nothing was
    cached for it), [deployFiles] throws a [TypeError] right after the check:
    nothing is uploaded, upserted or deployed. *)
Theorem X14_upload_type_errors (P : Platform) (E : Environment) (cfg : Config)
    (files : list DeploymentFile) (options : option DeploymentOptions)
    (w w1 : World E) (fs : list DeploymentFileWithHash)
    (others : list string) (h : string) (t1 : list Event) :
  Js.lt (Js.of_Z 0) (requested_concurrency options) = true ->
  result_of (hash_files P E files (fresh_cache w)) = inr fs ->
  getMissingHashes P E (distinct (map wh_hash fs)) cfg (fresh_cache w)
  = (inr (others ++ [h])%list, w1, t1) ->
  let run := deployFiles P E cfg files options w in
  let aborted :=
    steps (trace_of run)
    = [CheckMissing (distinct (map wh_hash fs)); Reported (others ++ [h])%list] in
  (find (fun x => String.eqb (wh_hash x) h) fs = None ->
   result_of run = inl (TypeError "file is undefined") /\ aborted)
  /\ (forall file b,
        find (fun x => String.eqb (wh_hash x) h) fs = Some file ->
        wh_contentBase64 file = None ->
        content (wh_file file) = Buf b ->
        result_of run = inl (TypeError "file.content is not a function") /\
        aborted).
Proof.
  intros Hreq Hhash Hget. cbv zeta.
  pose proof (getMissingHashes_steps E P cfg (distinct (map wh_hash fs))
                (fresh_cache w)) as Hst.
  rewrite Hget in Hst. project_in Hst.
  assert (Hrun : forall e t,
             upload_missing P E cfg fs (logging_of options) h w1 = (inl e, w1, t) ->
             deployFiles P E cfg files options w = (inl e, w1, (t1 ++ t)%list)).
  { intros e t Hup. rewrite deployFiles_run. cbv zeta. rewrite Hhash, Hget.
    rewrite (spawned_workers_one options Hreq), rev_app_distr. cbn [rev app].
    now rewrite (run_workers_first_fails P E cfg fs _ 0 h _ w1 e t Hup). }
  split.
  - intros Hfind.
    rewrite (Hrun _ _ (upload_missing_unknown P E cfg fs _ h w1 Hfind)).
    project. split; [reflexivity|]. now rewrite app_nil_r.
  - intros file b Hfind Hnone Hbuf.
    destruct (upload_missing_buffer P E cfg fs (logging_of options) h file b w1
                Hfind Hnone Hbuf) as (t & Hup & Hquiet).
    rewrite (Hrun _ _ Hup). project. split; [reflexivity|].
    now rewrite steps_app, Hst, Hquiet.
Qed.

Lemma X14_witness :
  result_of
    (deployFiles Scenario.platform Scenario.scripted Scenario.cfg
       [{| filename := "big.zip"; content := Buf (Buffer.of_string "zip");
           contentType := None; hash := Some "0123" |}]
       None
       (Scenario.start
          [Scenario.json "h.1700000000.s"; Scenario.json "0123";
           Scenario.json "unused"] [0%Z]))
  = inl (TypeError "file.content is not a function")
  /\ result_of
       (deployFiles Scenario.platform Scenario.scripted Scenario.cfg
          [Scenario.plain "index.html" "A"] None
          (Scenario.start
             [Scenario.json "h.1700000000.s"; Scenario.json "ffff";
              Scenario.json "unused"] [0%Z]))
     = inl (TypeError "file is undefined").
Proof.
  split.
  - edestruct (fun w1 fs =>
                 X14_upload_type_errors Scenario.platform Scenario.scripted
                 Scenario.cfg
                 [{| filename := "big.zip";
                     content := Buf (Buffer.of_string "zip");
                     contentType := None; hash := Some "0123" |}]
                 None
                 (Scenario.start
                    [Scenario.json "h.1700000000.s"; Scenario.json "0123";
                     Scenario.json "unused"] [0%Z])
                 w1 fs [] "0123")
      as [_ H]; [reflexivity | reflexivity | reflexivity |].
    edestruct H as [Hr _]; [reflexivity | reflexivity | reflexivity |].
    exact Hr.
  - edestruct (fun w1 fs =>
                 X14_upload_type_errors Scenario.platform Scenario.scripted
                 Scenario.cfg [Scenario.plain "index.html" "A"] None
                 (Scenario.start
                    [Scenario.json "h.1700000000.s"; Scenario.json "ffff";
                     Scenario.json "unused"] [0%Z])
                 w1 fs [] "ffff")
      as [H _]; [reflexivity | reflexivity | reflexivity |].
    destruct H as [Hr _]; [reflexivity|]. exact Hr.
Defined.

(** ** The list sent to the remote index *)

Lemma distinct_In (x : string) (l : list string) :
  In x (distinct l) <-> In x l.
Proof.
  induction l as [|k r IH]; [reflexivity|].
  cbn [distinct In]. rewrite filter_In, IH, negb_true_iff, String.eqb_neq.
  destruct (string_dec k x) as [->|Hne]; [tauto|].
  split; [tauto|]. intros [H|H]; [tauto|]. right. split; [exact H|]. congruence.
Qed.

Lemma distinct_NoDup (l : list string) : NoDup (distinct l).
Proof.
  induction l as [|k r IH]; [constructor|].
  cbn [distinct]. constructor.
  - rewrite filter_In, negb_true_iff, String.eqb_neq. tauto.
  - now apply NoDup_filter.
Qed.

Lemma distinct_length (l : list string) :
  (List.length (distinct l) <= List.length l)%nat.
Proof.
  induction l as [|k r IH]; [reflexivity|]. cbn [distinct List.length].
  pose proof (filter_length_le (fun k' => negb (String.eqb k' k)) (distinct r)).
  lia.
Qed.

Lemma hash_files_length (P : Platform) (E : Environment)
    (files : list DeploymentFile) :
  forall (w : World E) fs,
    result_of (hash_files P E files w) = inr fs ->
    List.length fs = List.length files.
Proof.
  induction files as [|file rest IH]; intros w fs H.
  - injection H as <-. reflexivity.
  - cbn [hash_files] in H. rewrite result_bind in H.
    rewrite (hash_file_pure P E file w w) in H. project_in H.
    destruct (result_of (hash_file P E file w)) as [e|f]; [discriminate H|].
    rewrite result_bind in H.
    rewrite (hash_files_pure P E rest w w) in H. project_in H.
    destruct (result_of (hash_files P E rest w)) as [e|fs'] eqn:Hrest;
      [discriminate H|].
    injection H as <-. cbn. f_equal. now apply (IH w).
Qed.

Lemma check_in_steps (hs keys missing ups : list string) (tail : list Step) :
  (forall s, In s tail -> match s with CheckMissing _ => False | _ => True end) ->
  In (CheckMissing hs)
    (CheckMissing keys :: Reported missing :: map upload_of ups ++ tail)%list ->
  hs = keys.
Proof.
  intros Htail [H|[H|H]]; [now injection H | discriminate H|].
  apply in_app_or in H as [H|H].
  - apply in_map_iff in H as (h & Hh & _). discriminate Hh.
  - now apply Htail in H.
Qed.

(** X16.  The remote index is asked about each fingerprint once: the list of
    a check-missing call has no duplicate, holds exactly the fingerprints of
    the input files, and is never longer than the list of files.  (The keys
    of [groupBy] are taken as in [distinct]: each key once, in the order of
    first occurrence.) *)
Theorem X16_check_list_distinct (P : Platform) (E : Environment) (cfg : Config)
    (files : list DeploymentFile) (options : option DeploymentOptions)
    (w : World E) (hs : list string) :
  In (CheckMissing hs) (steps (trace_of (deployFiles P E cfg files options w))) ->
  exists fs,
    result_of (hash_files P E files (fresh_cache w)) = inr fs /\
    NoDup hs /\
    (forall h, In h hs <-> exists f, In f fs /\ wh_hash f = h) /\
    (List.length hs <= List.length files)%nat.
Proof.
  intros Hin.
  pose proof (deployFiles_steps P E cfg files options w) as Hshape.
  cbv zeta in Hshape.
  destruct (result_of (hash_files P E files (fresh_cache w))) as [e|fs] eqn:Hhash;
    [destruct Hshape as [Hst _]; rewrite Hst in Hin; destruct Hin|].
  assert (Hhs : hs = distinct (map wh_hash fs)).
  { destruct (getMissingHashes P E _ cfg (fresh_cache w))
      as [[[e|missing] w1] t1].
    { destruct Hshape as [Hst _]. rewrite Hst in Hin.
      destruct Hin as [H|[]]. now injection H. }
    destruct (run_workers P E cfg fs _ _ _ w1) as [[[e|left] w2] t2].
    { destruct Hshape as [(done & rest & _ & Hst) _]. rewrite Hst in Hin.
      rewrite <- (app_nil_r (map upload_of done)) in Hin.
      apply check_in_steps in Hin; [exact Hin | intros s []]. }
    destruct (upsert_phase P E cfg missing _ w2) as [[[e|u] w3] t3];
      destruct Hshape as [Hst _]; rewrite Hst in Hin.
    - apply check_in_steps in Hin; [exact Hin|].
      intros s Hs. destruct (0 <? List.length missing)%nat; [|destruct Hs].
      destruct Hs as [<-|[]]. exact I.
    - cbn [app] in Hin. rewrite <- app_assoc in Hin.
      apply check_in_steps in Hin; [exact Hin|].
      intros s Hs. apply in_app_or in Hs as [Hs|Hs].
      + destruct (0 <? List.length missing)%nat; [|destruct Hs].
        destruct Hs as [<-|[]]. exact I.
      + destruct Hs as [<-|[]]. exact I. }
  exists fs. split; [reflexivity|]. subst hs.
  split; [apply distinct_NoDup|]. split.
  - intros h. rewrite distinct_In, in_map_iff.
    split; intros (f & H1 & H2); exists f; split; assumption.
  - rewrite <- (hash_files_length P E files _ fs Hhash), <- (length_map wh_hash fs).
    apply distinct_length.
Qed.

Lemma X16_witness :
  In (CheckMissing ["51513d3d68746d6c"; "51513d3d637373"])
    (steps (trace_of
              (deployFiles Scenario.platform Scenario.scripted Scenario.cfg
                 [Scenario.plain "index.html" "A"; Scenario.plain "style.css" "A";
                  Scenario.plain "blog/index.html" "A"] None
                 (Scenario.start [] [0%Z]))))
  /\ NoDup ["51513d3d68746d6c"; "51513d3d637373"].
Proof.
  assert (Hin : In (CheckMissing ["51513d3d68746d6c"; "51513d3d637373"])
                  (steps (trace_of
                            (deployFiles Scenario.platform Scenario.scripted
                               Scenario.cfg
                               [Scenario.plain "index.html" "A";
                                Scenario.plain "style.css" "A";
                                Scenario.plain "blog/index.html" "A"] None
                               (Scenario.start [] [0%Z])))))
    by (left; reflexivity).
  split; [exact Hin|].
  destruct (X16_check_list_distinct _ _ _ _ _ _ _ Hin) as (fs & _ & Hnd & _).
  exact Hnd.
Defined.

(** ** The blobs sent *)

Lemma payloads_app (t1 t2 : list Event) :
  payloads (t1 ++ t2) = (payloads t1 ++ payloads t2)%list.
Proof. apply flat_map_app. Qed.

Lemma payloads_uploaded (t : list Event) :
  map fwh_hash (payloads t) = uploaded t.
Proof.
  unfold uploaded, payloads, steps.
  induction t as [|e t IH]; [reflexivity|].
  cbn [flat_map]. rewrite map_app, flat_map_app, IH. f_equal.
  destruct e as [r|ms|u d e|msg|now|c|hs]; try reflexivity.
  destruct c as [|hs|files|hs|body]; try reflexivity.
  cbn [step_of flat_map]. now rewrite app_nil_r.
Qed.

Lemma payloads_none (t : list Event) : uploaded t = [] -> payloads t = [].
Proof.
  rewrite <- payloads_uploaded. destruct (payloads t) as [|f l]; [reflexivity|].
  discriminate.
Qed.

Lemma payloads_quiet (t : list Event) : steps t = [] -> payloads t = [].
Proof. intros H. apply payloads_none. unfold uploaded. now rewrite H. Qed.

Section Payloads.

Variable P : Platform.
Variable E : Environment.
Variable cfg : Config.

Lemma payloads_bind {A B} (m : M E A) (k : A -> M E B) (w : World E) :
  payloads (trace_of (bind m k w))
  = (payloads (trace_of (m w))
     ++ match result_of (m w) with
        | inr a => payloads (trace_of (k a (world_of (m w))))
        | inl _ => []
        end)%list.
Proof.
  rewrite bind_run. destruct (m w) as [[[e|a] w1] t1]; project.
  - now rewrite app_nil_r.
  - apply payloads_app.
Qed.

Lemma uploadFile_payloads (files : list FileWithHash) (w : World E) :
  payloads (trace_of (uploadFile P E files cfg w)) = files.
Proof.
  unfold uploadFile. rewrite bind_emit. project.
  change (payloads (Enter (CallUpload files) :: ?t))
    with (files ++ payloads t)%list.
  rewrite payloads_quiet; [apply app_nil_r|]. cbv zeta.
  apply quiet_bind; [apply quiet_JWTCache_get|]. intros token.
  apply quiet_bind; [apply quiet_doRequestWithRetries|].
  intros [u|errors]; [apply quiet_ret | apply quiet_throw].
Qed.

Lemma hash_file_recorded (file : DeploymentFile) (w : World E)
    (x : DeploymentFileWithHash) :
  result_of (hash_file P E file w) = inr x -> recorded P file x.
Proof.
  unfold hash_file, recorded, truthy_opt. cbv zeta.
  destruct (hash file) as [h|]; [destruct (Str.truthy h) eqn:Ht|].
  - intros H. injection H as <-. cbn.
    split; [reflexivity|]. split; [discriminate|].
    intros h' Hh _. injection Hh as <-. now split.
  - destruct (content file) as [b|[e|b]]; cbn; intros H;
      try discriminate H; injection H as <-; cbn;
      (split; [reflexivity|]);
      (split; [intros _; exists b; split; [tauto | now split]|]);
      intros h' Hh Ht'; injection Hh as <-; congruence.
  - destruct (content file) as [b|[e|b]]; cbn; intros H;
      try discriminate H; injection H as <-; cbn;
      (split; [reflexivity|]);
      (split; [intros _; exists b; split; [tauto | now split]|]);
      intros h' Hh; discriminate Hh.
Qed.

Lemma hash_files_recorded (files : list DeploymentFile) :
  forall (w : World E) fs,
    result_of (hash_files P E files w) = inr fs ->
    forall x, In x fs -> exists file, In file files /\ recorded P file x.
Proof.
  induction files as [|file rest IH]; intros w fs H x Hx.
  - injection H as <-. destruct Hx.
  - cbn [hash_files] in H. rewrite result_bind in H.
    rewrite (hash_file_pure P E file w w) in H. project_in H.
    destruct (result_of (hash_file P E file w)) as [e|f] eqn:Hf;
      [discriminate H|].
    rewrite result_bind in H.
    rewrite (hash_files_pure P E rest w w) in H. project_in H.
    destruct (result_of (hash_files P E rest w)) as [e|fs'] eqn:Hrest;
      [discriminate H|].
    injection H as <-. destruct Hx as [<-|Hx].
    + exists file. split; [now left|]. exact (hash_file_recorded file w f Hf).
    + destruct (IH w fs' Hrest x Hx) as (file' & Hin & Hrec).
      exists file'. split; [now right | exact Hrec].
Qed.

Variable fs : list DeploymentFileWithHash.
Variable logging : bool.

Lemma upload_missing_payloads (h : string) (w : World E) (p : FileWithHash) :
  In p (payloads (trace_of (upload_missing P E cfg fs logging h w))) ->
  sent_for P fs p.
Proof.
  unfold upload_missing.
  destruct (find (fun x => String.eqb (wh_hash x) h) fs) as [file|] eqn:Hfind;
    [|intros []].
  apply find_some in Hfind as [Hin _].
  cbv zeta. rewrite payloads_bind, (payloads_quiet _ (quiet_log E logging _ w)).
  rewrite log_with_run. project. cbv iota. cbn [app].
  rewrite payloads_bind.
  match goal with
  | |- context [result_of (?m w)] => set (fetch_content := m)
  end.
  assert (Hq : quiet fetch_content).
  { unfold fetch_content. destruct (wh_contentBase64 file); [apply quiet_ret|].
    destruct (content (wh_file file)) as [b|q]; [apply quiet_throw|].
    apply quiet_bind; [apply quiet_materialize | intros buf; apply quiet_ret]. }
  rewrite (payloads_quiet _ (Hq w)). cbn [app].
  destruct (result_of (fetch_content w)) as [e|c] eqn:Hc; [intros []|].
  rewrite payloads_bind, uploadFile_payloads.
  assert (Hrest : forall l : list FileWithHash,
             In p ([{| fwh_contentBase64 := c; fwh_hash := wh_hash file;
                       fwh_contentType := content_type_of P (wh_file file) |}]
                   ++ l)%list -> l = [] -> sent_for P fs p).
  { intros l Hp ->. destruct Hp as [<-|[]]. exists file. cbn.
    split; [exact Hin|]. split; [reflexivity|]. split; [reflexivity|].
    intros c' Hc'. unfold fetch_content in Hc. rewrite Hc' in Hc.
    now injection Hc as ->. }
  intros Hp. apply (Hrest _ Hp).
  destruct (result_of (uploadFile _ _ _ _ _)); [reflexivity|].
  apply payloads_quiet, quiet_log.
Qed.

Lemma upload_worker_payloads (stack : list string) :
  forall (w : World E) (p : FileWithHash),
    In p (payloads (trace_of (upload_worker P E cfg fs logging stack w))) ->
    sent_for P fs p.
Proof.
  induction stack as [|h stack IH]; intros w p; [intros []|].
  cbn [upload_worker]. rewrite payloads_bind. intros Hp.
  apply in_app_or in Hp as [Hp|Hp]; [exact (upload_missing_payloads h w p Hp)|].
  destruct (result_of (upload_missing P E cfg fs logging h w)); [destruct Hp|].
  exact (IH _ p Hp).
Qed.

Lemma run_workers_payloads (n : nat) :
  forall (stack : list string) (w : World E) (p : FileWithHash),
    In p (payloads (trace_of (run_workers P E cfg fs logging n stack w))) ->
    sent_for P fs p.
Proof.
  induction n as [|n IH]; intros stack w p; [intros []|].
  cbn [run_workers]. rewrite payloads_bind. intros Hp.
  apply in_app_or in Hp as [Hp|Hp]; [exact (upload_worker_payloads stack w p Hp)|].
  destruct (result_of (upload_worker P E cfg fs logging stack w)); [destruct Hp|].
  exact (IH _ _ p Hp).
Qed.

End Payloads.

(** The blobs of a deployment are those of its upload phase. *)
Lemma deployFiles_payloads (P : Platform) (E : Environment) (cfg : Config)
    (files : list DeploymentFile) (options : option DeploymentOptions)
    (w : World E) (p : FileWithHash) :
  In p (payloads (trace_of (deployFiles P E cfg files options w))) ->
  exists fs stack w1,
    result_of (hash_files P E files (fresh_cache w)) = inr fs /\
    In p (payloads (trace_of (run_workers P E cfg fs (logging_of options)
                                (spawned_workers options) stack w1))).
Proof.
  rewrite deployFiles_run. cbv zeta.
  destruct (result_of (hash_files P E files (fresh_cache w))) as [e|fs];
    [intros []|].
  pose proof (getMissingHashes_steps E P cfg (distinct (map wh_hash fs))
                (fresh_cache w)) as Hg.
  destruct (getMissingHashes P E _ cfg (fresh_cache w))
    as [[[e|missing] w1] t1]; project_in Hg; project.
  { rewrite payloads_none; [intros []|]. unfold uploaded. now rewrite Hg. }
  assert (H1 : payloads t1 = []).
  { apply payloads_none. unfold uploaded. now rewrite Hg. }
  intros Hp. exists fs, (rev missing), w1. split; [reflexivity|].
  destruct (run_workers P E cfg fs _ _ _ w1) as [[[e|left] w2] t2]; project.
  { project_in Hp. now rewrite payloads_app, H1 in Hp. }
  pose proof (upsert_phase_steps P E cfg missing (distinct (map wh_hash fs)) w2)
    as Hu.
  assert (H3 : payloads (trace_of (upsert_phase P E cfg missing
                                     (distinct (map wh_hash fs)) w2)) = []).
  { apply payloads_none. unfold uploaded. rewrite Hu.
    now destruct (0 <? List.length missing)%nat. }
  destruct (upsert_phase P E cfg missing _ w2) as [[[e|u] w3] t3];
    project_in H3.
  { project_in Hp. rewrite !payloads_app, H1, H3, app_nil_r in Hp. exact Hp. }
  pose proof (createDeployment_steps E P cfg (form_of P fs options) w3) as Hd.
  assert (H4 : payloads (trace_of (createDeployment P E (form_of P fs options)
                                     cfg w3)) = []).
  { apply payloads_none. unfold uploaded. now rewrite Hd. }
  destruct (createDeployment P E _ cfg w3) as [[[e|d] w4] t4];
    project_in H4; project_in Hp;
    rewrite !payloads_app, H1, H3, H4, !app_nil_r in Hp; exact Hp.
Qed.

(** X15.  Every blob [deployFiles] uploads belongs to one of the input
    files: it is stored under that file's fingerprint, with the file's own
    content type, else the one [mime] gives for its name, else
    [application/octet-stream].  For a file the uploader hashed itself the
    content sent is the base64 text of the file's bytes and the key is
    what [computeHash] gives for these bytes and the file's name; for a file
    that came with a hash, the key is that hash. *)
Theorem X15_blob_matches_its_key (P : Platform) (E : Environment) (cfg : Config)
    (files : list DeploymentFile) (options : option DeploymentOptions)
    (w : World E) (p : FileWithHash) :
  In p (payloads (trace_of (deployFiles P E cfg files options w))) ->
  exists file,
    In file files /\
    fwh_contentType p = content_type_of P file /\
    (truthy_opt (hash file) = false ->
     exists b, (content file = Buf b \/ content file = Producer (inr b)) /\
               fwh_contentBase64 p = Buffer.toBase64 b /\
               fwh_hash p = computeHash (blake3hash P) b (filename file)) /\
    (forall h, hash file = Some h -> Str.truthy h = true -> fwh_hash p = h).
Proof.
  intros Hp.
  destruct (deployFiles_payloads P E cfg files options w p Hp)
    as (fs & stack & w1 & Hhash & Hin).
  destruct (run_workers_payloads P E cfg fs _ _ stack w1 p Hin)
    as (x & Hx & Hkey & Htype & Hcontent).
  destruct (hash_files_recorded P E files _ fs Hhash x Hx)
    as (file & Hfile & Hwh & Hown & Hgiven).
  exists file. split; [exact Hfile|]. rewrite Hwh in Htype.
  split; [exact Htype|]. split.
  - intros Hfalsy. destruct (Hown Hfalsy) as (b & Hb & Hc & Hh).
    exists b. split; [exact Hb|]. split; [exact (Hcontent _ Hc)|].
    now rewrite Hkey.
  - intros h Hh Ht. rewrite Hkey. now apply (Hgiven h Hh Ht).
Qed.

Lemma X15_witness :
  exists file,
    In file [Scenario.plain "index.html" "A"] /\
    fwh_contentType
      {| fwh_contentBase64 := "QQ=="; fwh_hash := "51513d3d68746d6c";
         fwh_contentType := "application/octet-stream" |}
    = content_type_of Scenario.platform file /\
    (truthy_opt (hash file) = false ->
     exists b, (content file = Buf b \/ content file = Producer (inr b)) /\
               "QQ==" = Buffer.toBase64 b /\
               "51513d3d68746d6c"
               = computeHash (blake3hash Scenario.platform) b (filename file)) /\
    (forall h, hash file = Some h -> Str.truthy h = true ->
               "51513d3d68746d6c" = h).
Proof.
  apply (X15_blob_matches_its_key Scenario.platform Scenario.scripted
           Scenario.cfg [Scenario.plain "index.html" "A"] None
           (Scenario.start
              [Scenario.json "h.1700000000.s"; Scenario.json "51513d3d68746d6c";
               Scenario.json "stored"; Scenario.json "upserted";
               Scenario.json "https://site.pages.dev"] [0%Z])
           {| fwh_contentBase64 := "QQ=="; fwh_hash := "51513d3d68746d6c";
              fwh_contentType := "application/octet-stream" |}).
  left. reflexivity.
Defined.

(* ================================================================== *)
(** * Further properties: which credential goes where *)
(* ================================================================== *)

Section AssetRequests.

Variable P : Platform.
Variable E : Environment.
Variable cfg : Config.

Lemma fetches_bind {A B} (m : M E A) (k : A -> M E B) (w : World E) :
  fetches (trace_of (bind m k w))
  = (fetches (trace_of (m w))
     ++ match result_of (m w) with
        | inr a => fetches (trace_of (k a (world_of (m w))))
        | inl _ => []
        end)%list.
Proof.
  rewrite bind_run. destruct (m w) as [[[e|a] w1] t1]; project.
  - now rewrite app_nil_r.
  - apply fetches_app.
Qed.

(** A retry sends the very same request again. *)
Lemma retry_loop_same_request {T} (parse : string -> option (ApiResult T))
    (url key : string) (options : RequestOptions) (remaining : nat) :
  forall (count : nat) (last : Thrown) (w : World E),
    exists k,
      (k <= remaining)%nat /\ (1 <= remaining -> 1 <= k)%nat /\
      fetches (trace_of (retry_loop parse url key options remaining count last w))
      = repeat (request_for url key options) k.
Proof.
  induction remaining as [|n IH]; intros count last w.
  - exists 0%nat. split; [lia|]. split; [lia | reflexivity].
  - rewrite retry_loop_step.
    destruct (doRequest_sends E parse url key options w) as [Htrace _].
    destruct (doRequest parse url key options w) as [[[e|a] w1] t1];
      project_in Htrace; subst t1.
    + cbv zeta. project. rewrite !fetches_app, fetches_log.
      destruct (IH (S count) e w1) as (k & Hle & _ & Hk).
      exists (S k). split; [lia|]. split; [lia|].
      cbn [fetches flat_map app repeat]. f_equal. exact Hk.
    + exists 1%nat. split; [lia|]. split; [lia | reflexivity].
Qed.

(** The shape the three asset operations share. *)
Lemma asset_call {T A} (c : Call) (parse : string -> option (ApiResult T))
    (path body : string) (k : ApiResult T -> M E A) (w : World E) :
  (forall r w', fetches (trace_of (k r w')) = []) ->
  asset_requests P cfg path body w
    ((emit (Enter c) ;;
      token <- JWTCache_get P E cfg ;;
      res <- doRequestWithRetries parse path (apiKey cfg)
               (bearer_options token body) default_retries ;;
      k res) w).
Proof.
  intros Hk. unfold asset_requests. cbv zeta.
  rewrite bind_emit. project.
  change (fetches (Enter c :: ?t)) with (fetches t).
  rewrite fetches_bind, result_bind.
  destruct (result_of (JWTCache_get P E cfg w)) as [e|jwt].
  - split; [reflexivity | now rewrite app_nil_r].
  - rewrite fetches_bind.
    destruct (retry_loop_same_request parse path (apiKey cfg)
                (bearer_options jwt body) default_retries 0 ThrownUndefined
                (world_of (JWTCache_get P E cfg w)))
      as (n & Hle & Hpos & Hn).
    exists n. split; [split; [apply Hpos; unfold default_retries; lia | exact Hle]|].
    f_equal. unfold doRequestWithRetries. rewrite Hn.
    destruct (result_of (retry_loop _ _ _ _ _ _ _ _)) as [e|r];
      [|rewrite Hk]; now rewrite app_nil_r.
Qed.

End AssetRequests.

(** X17.  The three asset operations authorise their request with the
    upload token, not with the API key: whatever the token cache sends comes
    first; if the cache throws, so does the operation, without a request of
    its own; otherwise the operation sends between one and five requests,
    all identical, to its own endpoint, each carrying the token the cache
    returned as its [Authorization] header and the JSON text as its body.  A
    retry therefore re-sends the same token and never asks the cache
    again. *)
Theorem X17_asset_requests_use_token (P : Platform) (E : Environment)
    (cfg : Config) (w : World E) :
  (forall hs,
      asset_requests P cfg "/pages/assets/check-missing" (stringify_hashes P hs) w
        (getMissingHashes P E hs cfg w))
  /\ (forall files,
         asset_requests P cfg "/pages/assets/upload" (stringify_payload P files) w
           (uploadFile P E files cfg w))
  /\ (forall hs,
         asset_requests P cfg "/pages/assets/upsert-hashes"
           (stringify_hashes P hs) w (upsertHashes P E hs cfg w))
  /\ (forall path jwt body,
         let r := request_for path (apiKey cfg) (bearer_options jwt body) in
         req_url r = BASE_URL ++ path /\
         lookup "Authorization" (req_headers r) = Some ("Bearer " ++ jwt) /\
         req_body r = Some (StringBody body)).
Proof.
  split; [|split; [|split]].
  - intros hs. unfold getMissingHashes. apply asset_call.
    intros [result|errors] w'; reflexivity.
  - intros files. unfold uploadFile. cbv zeta. apply asset_call.
    intros [u|errors] w'; reflexivity.
  - intros hs. unfold upsertHashes. apply asset_call.
    intros [u|errors] w'; reflexivity.
  - intros path jwt body. cbv zeta. split; [reflexivity|]. split; [|reflexivity].
    unfold request_for, bearer_options. cbn.
    destruct (Str.truthy body); reflexivity.
Qed.

(** X18.  The token request and the deployment request are authorised with
    the API key itself.  [getJwt] sends between one and five identical [GET]
    requests, without a body, to the [upload-token] endpoint of the project;
    [createDeployment] sends between one and five identical [POST] requests
    to its [deployments] endpoint, whose body is the form and which set no
    [Content-Type] of their own. *)
Theorem X18_account_requests_use_api_key (P : Platform) (E : Environment)
    (cfg : Config) (w : World E) :
  let project :=
    "/accounts/" ++ accountId cfg ++ "/pages/projects/" ++ projectName cfg in
  (exists k token,
      (1 <= k <= default_retries)%nat /\
      fetches (trace_of (getJwt P E cfg w)) = repeat token k /\
      req_url token = BASE_URL ++ project ++ "/upload-token" /\
      req_headers token
      = [("Authorization", "Bearer " ++ apiKey cfg);
         ("User-Agent", "@adamburgess/cloudflare-pages-direct-upload@0.0.1")] /\
      req_method token = GET /\
      req_body token = None)
  /\ (forall body,
         exists k deploy,
           (1 <= k <= default_retries)%nat /\
           fetches (trace_of (createDeployment P E body cfg w)) = repeat deploy k /\
           req_url deploy = BASE_URL ++ project ++ "/deployments" /\
           req_headers deploy
           = [("Authorization", "Bearer " ++ apiKey cfg);
              ("User-Agent", "@adamburgess/cloudflare-pages-direct-upload@0.0.1")] /\
           req_method deploy = POST /\
           req_body deploy = Some (FormBody body)).
Proof.
  cbv zeta. split.
  - unfold getJwt. rewrite bind_emit. project.
    change (fetches (Enter CallGetJwt :: ?t)) with (fetches t).
    rewrite fetches_bind. unfold doRequestWithRetries.
    match goal with
    | |- context [retry_loop ?parse ?url ?key ?o _ _ _ w] =>
        destruct (retry_loop_same_request E parse url key o default_retries 0
                    ThrownUndefined w) as (k & Hle & Hpos & Hk);
        exists k, (request_for url key o)
    end.
    split; [split; [apply Hpos; unfold default_retries; lia | exact Hle]|].
    split; [|now rewrite <- !append_assoc].
    rewrite Hk.
    destruct (result_of (retry_loop _ _ _ _ _ _ _ _)) as [e|[jwt|errors]];
      now rewrite app_nil_r.
  - intros body. unfold createDeployment. rewrite bind_emit. project.
    change (fetches (Enter (CallCreateDeployment body) :: ?t)) with (fetches t).
    rewrite fetches_bind. unfold doRequestWithRetries.
    match goal with
    | |- context [retry_loop ?parse ?url ?key ?o _ _ _ w] =>
        destruct (retry_loop_same_request E parse url key o default_retries 0
                    ThrownUndefined w) as (k & Hle & Hpos & Hk);
        exists k, (request_for url key o)
    end.
    split; [split; [apply Hpos; unfold default_retries; lia | exact Hle]|].
    split; [|now rewrite <- !append_assoc].
    rewrite Hk.
    destruct (result_of (retry_loop _ _ _ _ _ _ _ _)) as [e|[d|errors]];
      now rewrite app_nil_r.
Qed.


(* ================================================================== *)
(** * Further properties: directory mode *)
(* ================================================================== *)

Lemma resolve_resolve (path name rest : string) :
  Path.nonroot path = true ->
  Path.resolve (Path.resolve path name) rest
  = Path.resolve path (name ++ "/" ++ rest).
Proof.
  intros Hpath.
  rewrite (resolve_nonroot _ rest (nonroot_resolve path name Hpath)).
  rewrite !(resolve_nonroot path _ Hpath). now rewrite !append_assoc.
Qed.

Lemma readDirEntry_listing (dirent : Dirent) :
  forall path,
    Path.nonroot path = true ->
    readDirEntry path dirent = map (below path) (listEntry dirent).
Proof.
  revert dirent. fix listed 1.
  intros [name d | name entries] path Hpath; [reflexivity|].
  cbn [readDirEntry listEntry]. rewrite map_map.
  induction entries as [|e es IH]; [reflexivity|].
  cbn [flat_map].
  rewrite map_app, IH, (listed e _ (nonroot_resolve path name Hpath)). f_equal.
  apply map_ext. intros [rel data]. unfold below. cbn [fst snd].
  now rewrite resolve_resolve.
Qed.

Lemma readDirRecursive_listing (base : string) (root : list Dirent) :
  Path.nonroot base = true ->
  readDirRecursive base root = map (below base) (listing root).
Proof.
  intros Hbase. unfold readDirRecursive, listing.
  induction root as [|e es IH]; [reflexivity|].
  cbn [flat_map]. now rewrite map_app, IH, readDirEntry_listing.
Qed.

(** On a listing below [base], the loop of [deployDirectory] sees the
    relative paths: what it does depends on them alone. *)
Lemma collect_below (P : Platform) (base : string)
    (l : list (string * Buffer.t)) :
  Path.nonroot base = true ->
  forall options,
    map (fun f => (snd (fst f), snd f))
      (snd (collect P base (map (below base) l) options))
    = filter (fun rd => negb (special (fst rd))) l
    /\ forall base',
         Path.nonroot base' = true ->
         fst (collect P base (map (below base) l) options)
         = fst (collect P base' (map (below base') l) options).
Proof.
  intros Hbase.
  induction l as [|[rel data] l IH]; intros o; [now split|].
  cbn [map below fst snd collect filter]. unfold below at 1. cbn [fst snd].
  rewrite (relative_to_resolve base rel Hbase). unfold special.
  destruct (String.eqb rel "_headers") eqn:H1.
  { cbn [orb negb]. destruct (IH (if negb (truthy_opt (headers o))
                                  then set_headers o (utf8 P data) else o))
      as [Hf Ho].
    split; [exact Hf|]. intros base' Hbase'. unfold below at 2. cbn [fst snd].
    rewrite (relative_to_resolve base' rel Hbase'), H1. now apply Ho. }
  destruct (String.eqb rel "_redirects") eqn:H2.
  { cbn [orb negb]. destruct (IH (if negb (truthy_opt (redirects o))
                                  then set_redirects o (utf8 P data) else o))
      as [Hf Ho].
    split; [exact Hf|]. intros base' Hbase'. unfold below at 2. cbn [fst snd].
    rewrite (relative_to_resolve base' rel Hbase'), H1, H2. now apply Ho. }
  destruct (String.eqb rel "_worker.js") eqn:H3.
  { cbn [orb negb]. destruct (IH (if negb (truthy_opt (worker o))
                                  then set_worker o (utf8 P data) else o))
      as [Hf Ho].
    split; [exact Hf|]. intros base' Hbase'. unfold below at 2. cbn [fst snd].
    rewrite (relative_to_resolve base' rel Hbase'), H1, H2, H3. now apply Ho. }
  cbn [orb negb]. destruct (IH o) as [Hf Ho]. split.
  - destruct (collect P base (map (below base) l) o) as [o' files].
    cbn [snd map fst] in *. now rewrite Hf.
  - intros base' Hbase'. unfold below at 2. cbn [fst snd].
    rewrite (relative_to_resolve base' rel Hbase'), H1, H2, H3.
    specialize (Ho base' Hbase').
    destruct (collect P base (map (below base) l) o) as [o1 f1].
    destruct (collect P base' (map (below base') l) o) as [o2 f2].
    exact Ho.
Qed.

(** [deployDirectory] deploys the files of the tree under their relative
    paths, the three root-level names left out. *)
Lemma deployDirectory_files (P : Platform) (E : Environment) (cfg : Config)
    (base : string) (root : list Dirent) (options : option DeploymentOptions) :
  Path.nonroot base = true ->
  deployDirectory P E cfg base root options
  = deployFiles P E cfg
      (map directory_file
         (filter (fun rd => negb (special (fst rd))) (listing root)))
      (Some (fst (collect P base (readDirRecursive base root)
                    match options with
                    | Some o => o
                    | None => empty_options
                    end))).
Proof.
  intros Hbase. unfold deployDirectory.
  destruct (collect_below P base (listing root) Hbase
              match options with Some o => o | None => empty_options end)
    as [Hf _].
  rewrite <- (readDirRecursive_listing base root Hbase) in Hf.
  destruct (collect P base (readDirRecursive base root) _) as [o' files].
  cbn [fst snd] in *. f_equal. rewrite <- Hf, map_map. reflexivity.
Qed.

(** X19.  Directory mode does not depend on where the directory lives, as
    long as it is not the root of the file system.  The path
    [deployDirectory] cuts out of each absolute path is then the path of the
    file relative to the directory; the files it deploys are the files of
    the tree under these relative paths (the three root-level names left
    out), each with a producer of its bytes as content and neither a content
    type nor a hash; and the same tree at another such location gives the
    same run.  At the root itself the path cut out of an entry is its name
    without the first character. *)
Theorem X19_directory_location_free (P : Platform) (E : Environment)
    (cfg : Config) (base : string) (root : list Dirent)
    (options : option DeploymentOptions) :
  Path.nonroot base = true ->
  map (fun fd => (relative_to base (fst fd), snd fd)) (readDirRecursive base root)
  = listing root
  /\ (exists options',
         deployDirectory P E cfg base root options
         = deployFiles P E cfg
             (map directory_file
                (filter (fun rd => negb (special (fst rd))) (listing root)))
             (Some options'))
  /\ (forall base',
         Path.nonroot base' = true ->
         deployDirectory P E cfg base' root options
         = deployDirectory P E cfg base root options)
  /\ (forall name,
         relative_to "/" (Path.resolve "/" name) = Str.substring1 name).
Proof.
  intros Hbase. split; [|split; [|split]].
  - rewrite (readDirRecursive_listing base root Hbase), map_map.
    rewrite <- (map_id (listing root)) at 2. apply map_ext.
    intros [rel data]. unfold below. cbn [fst snd].
    now rewrite (relative_to_resolve base rel Hbase).
  - eexists. now apply deployDirectory_files.
  - intros base' Hbase'.
    rewrite (deployDirectory_files P E cfg base root options Hbase).
    rewrite (deployDirectory_files P E cfg base' root options Hbase').
    f_equal. f_equal.
    rewrite (readDirRecursive_listing base root Hbase).
    rewrite (readDirRecursive_listing base' root Hbase').
    destruct (collect_below P base' (listing root) Hbase'
                match options with Some o => o | None => empty_options end)
      as [_ Ho].
    now apply Ho.
  - exact relative_at_root.
Qed.

Lemma X19_witness :
  deployDirectory Scenario.platform Scenario.scripted Scenario.cfg "/srv/site"
    [FileEntry "_headers" (Buffer.of_string "/* X: 1");
     DirEntry "blog" [FileEntry "index.html" (Buffer.of_string "A")]] None
  = deployDirectory Scenario.platform Scenario.scripted Scenario.cfg "/home/me/www"
      [FileEntry "_headers" (Buffer.of_string "/* X: 1");
       DirEntry "blog" [FileEntry "index.html" (Buffer.of_string "A")]] None.
Proof.
  destruct (X19_directory_location_free Scenario.platform Scenario.scripted
              Scenario.cfg "/home/me/www"
              [FileEntry "_headers" (Buffer.of_string "/* X: 1");
               DirEntry "blog" [FileEntry "index.html" (Buffer.of_string "A")]]
              None eq_refl) as (_ & _ & H & _).
  exact (H "/srv/site" eq_refl).
Defined.

(** X20.  In directory mode on a directory other than the root of the file
    system, every blob uploaded is a file of the tree other than the three
    root-level names: its content is the base64 text of the file's bytes,
    its key what [computeHash] gives for these bytes and the relative path,
    and its content type the one [mime] gives for that path, else
    [application/octet-stream]. *)
Theorem X20_directory_blobs (P : Platform) (E : Environment) (cfg : Config)
    (base : string) (root : list Dirent) (options : option DeploymentOptions)
    (w : World E) (p : FileWithHash) :
  Path.nonroot base = true ->
  In p (payloads (trace_of (deployDirectory P E cfg base root options w))) ->
  exists relative data,
    In (relative, data) (listing root) /\
    special relative = false /\
    fwh_contentBase64 p = Buffer.toBase64 data /\
    fwh_hash p = computeHash (blake3hash P) data relative /\
    fwh_contentType p = match getType P relative with
                        | Some t => t
                        | None => "application/octet-stream"
                        end.
Proof.
  intros Hbase. rewrite (deployDirectory_files P E cfg base root options Hbase).
  intros Hp.
  destruct (deployFiles_payloads P E cfg _ _ w p Hp)
    as (fs & stack & w1 & Hhash & Hin).
  destruct (run_workers_payloads P E cfg fs _ _ stack w1 p Hin)
    as (x & Hx & Hkey & Htype & Hcontent).
  destruct (hash_files_recorded P E _ _ fs Hhash x Hx)
    as (file & Hfile & Hwh & Hown & _).
  apply in_map_iff in Hfile as ([rel data] & <- & Hrd).
  apply filter_In in Hrd as [Hrd Hs]. apply negb_true_iff in Hs.
  destruct (Hown eq_refl) as (b & Hb & Hc & Hh).
  assert (b = data) as ->.
  { destruct Hb as [Hb|Hb]; [discriminate Hb | now injection Hb]. }
  exists rel, data. cbn [fst] in Hs.
  split; [exact Hrd|]. split; [exact Hs|]. split; [exact (Hcontent _ Hc)|].
  split; [now rewrite Hkey|]. now rewrite Htype, Hwh.
Qed.

Lemma X20_witness :
  exists relative data,
    In (relative, data)
      (listing [FileEntry "_headers" (Buffer.of_string "/* X: 1");
                DirEntry "blog" [FileEntry "index.html" (Buffer.of_string "A")]]) /\
    special relative = false /\
    "QQ==" = Buffer.toBase64 data /\
    "51513d3d68746d6c"
    = computeHash (blake3hash Scenario.platform) data relative /\
    "application/octet-stream"
    = match getType Scenario.platform relative with
      | Some t => t
      | None => "application/octet-stream"
      end.
Proof.
  apply (X20_directory_blobs Scenario.platform Scenario.scripted Scenario.cfg
           "/srv/site"
           [FileEntry "_headers" (Buffer.of_string "/* X: 1");
            DirEntry "blog" [FileEntry "index.html" (Buffer.of_string "A")]]
           None
           (Scenario.start
              [Scenario.json "h.1700000000.s"; Scenario.json "51513d3d68746d6c";
               Scenario.json "stored"; Scenario.json "upserted";
               Scenario.json "https://site.pages.dev"] [0%Z])
           {| fwh_contentBase64 := "QQ=="; fwh_hash := "51513d3d68746d6c";
              fwh_contentType := "application/octet-stream" |}
           eq_refl).
  left. reflexivity.
Defined.

(* ================================================================== *)
(** * Further properties: the manifest and the form *)
(* ================================================================== *)

Lemma lookup_app (k : string) (a b : Obj.t) :
  lookup k (a ++ b)%list
  = match lookup k a with
    | Some v => Some v
    | None => lookup k b
    end.
Proof.
  induction a as [|[k0 v0] a IH]; [reflexivity|]. cbn.
  now destruct (String.eqb k0 k).
Qed.

(** [{ ...o, ...extra }], whatever the keys of [extra]: the last entry of a
    key wins. *)
Lemma lookup_spread_last (k : string) (extra : Obj.t) :
  forall o, lookup k (Obj.spread o extra)
            = match lookup k (rev extra) with
              | Some v => Some v
              | None => lookup k o
              end.
Proof.
  unfold Obj.spread.
  induction extra as [|[k0 v0] r IH]; intros o; [reflexivity|].
  cbn [fold_left rev fst snd]. rewrite IH, lookup_app, lookup_set.
  destruct (lookup k (rev r)); [reflexivity|]. cbn.
  now destruct (String.eqb k0 k).
Qed.

Lemma keys_set (k v k' : string) (o : Obj.t) :
  In k' (map fst (Obj.set k v o)) <-> k' = k \/ In k' (map fst o).
Proof.
  induction o as [|[k0 v0] r IH]; cbn.
  - split; intros [H|[]]; left; congruence.
  - destruct (String.eqb k0 k) eqn:H0; cbn.
    + apply String.eqb_eq in H0. subst k0. split; [intros [H|H]|intros [H|[H|H]]];
        auto.
    + rewrite IH. split; [intros [H|[H|H]]|intros [H|[H|H]]]; auto.
Qed.

Lemma NoDup_set (k v : string) (o : Obj.t) :
  NoDup (map fst o) -> NoDup (map fst (Obj.set k v o)).
Proof.
  induction o as [|[k0 v0] r IH]; cbn; intros H.
  - constructor; [intros [] | constructor].
  - inversion H as [|? ? Hnotin Hnd]; subst.
    destruct (String.eqb k0 k) eqn:H0; cbn.
    + apply String.eqb_eq in H0. subst k0. now constructor.
    + constructor; [|now apply IH].
      rewrite keys_set. intros [->|Hin]; [|contradiction].
      now rewrite String.eqb_refl in H0.
Qed.

Lemma NoDup_spread (extra : Obj.t) :
  forall o, NoDup (map fst o) -> NoDup (map fst (Obj.spread o extra)).
Proof.
  unfold Obj.spread.
  induction extra as [|[k0 v0] r IH]; intros o H; [exact H|].
  cbn [fold_left]. apply IH. now apply NoDup_set.
Qed.

Lemma slash_inj (a b : string) : "/" ++ a = "/" ++ b -> a = b.
Proof. intros H. now injection H. Qed.

(** The entry of a path in the reversed list of entries: that of the last
    file of that name. *)
Lemma lookup_last_file (k v : string) (fs : list DeploymentFileWithHash) :
  lookup k (rev (map (fun f => ("/" ++ filename (wh_file f), wh_hash f)) fs))
  = Some v
  <-> exists pre f post,
        fs = (pre ++ f :: post)%list /\
        k = "/" ++ filename (wh_file f) /\
        v = wh_hash f /\
        (forall g, In g post ->
                   filename (wh_file g) <> filename (wh_file f)).
Proof.
  induction fs as [|f fs' IH] using rev_ind.
  - cbn. split; [discriminate|]. intros (pre & f & post & H & _).
    now destruct pre.
  - rewrite map_app, rev_app_distr. cbn [map rev app lookup].
    destruct (String.eqb ("/" ++ filename (wh_file f)) k) eqn:Hk.
    + apply String.eqb_eq in Hk. split.
      * intros H. injection H as <-. exists fs', f, [].
        split; [reflexivity|]. split; [now symmetry|]. split; [reflexivity|].
        intros g [].
      * intros (pre & f0 & post & Hsplit & Hk0 & Hv & Hlast).
        destruct post as [|l post'] using rev_ind.
        -- apply app_inj_tail in Hsplit as [_ <-]. now rewrite Hv.
        -- clear IHpost'. rewrite app_comm_cons, app_assoc in Hsplit.
           apply app_inj_tail in Hsplit as [_ <-].
           exfalso. apply (Hlast f); [apply in_or_app; right; now left|].
           apply slash_inj. congruence.
    + apply String.eqb_neq in Hk. rewrite IH. split.
      * intros (pre & f0 & post & Hsplit & Hk0 & Hv & Hlast).
        exists pre, f0, (post ++ [f])%list.
        split; [subst fs'; now rewrite <- app_assoc|].
        split; [exact Hk0|]. split; [exact Hv|].
        intros g Hg. apply in_app_or in Hg as [Hg|[<-|[]]]; [now apply Hlast|].
        intros Heq. apply Hk. now rewrite Heq.
      * intros (pre & f0 & post & Hsplit & Hk0 & Hv & Hlast).
        destruct post as [|l post'] using rev_ind.
        -- apply app_inj_tail in Hsplit as [_ <-]. congruence.
        -- clear IHpost'. rewrite app_comm_cons, app_assoc in Hsplit.
           apply app_inj_tail in Hsplit as [Hfs <-].
           exists pre, f0, post'. split; [exact Hfs|]. split; [exact Hk0|].
           split; [exact Hv|]. intros g Hg. apply Hlast, in_or_app. now left.
Qed.

(** X21.  The manifest has one entry per path: its keys are distinct, and a
    path [/name] maps to a fingerprint exactly when that is the fingerprint
    of the last input file called [name].  When two files share a name, the
    later one replaces the earlier one in the manifest. *)
Theorem X21_manifest_last_file_wins (fs : list DeploymentFileWithHash) :
  NoDup (map fst (manifest_of fs))
  /\ forall k v,
       lookup k (manifest_of fs) = Some v
       <-> exists pre f post,
             fs = (pre ++ f :: post)%list /\
             k = "/" ++ filename (wh_file f) /\
             v = wh_hash f /\
             (forall g, In g post ->
                        filename (wh_file g) <> filename (wh_file f)).
Proof.
  unfold manifest_of, Obj.fromEntries. split.
  - apply NoDup_spread. constructor.
  - intros k v. rewrite lookup_spread_last, <- lookup_last_file.
    now destruct (lookup k (rev _)).
Qed.

Lemma in_append_field (x : FormPart) (name : string) (value : option string)
    (f : FormData) :
  In x (append_field name value f)
  <-> In x f \/ exists v, value = Some v /\ Str.truthy v = true /\ x = Field name v.
Proof.
  unfold append_field. destruct value as [v|].
  - destruct (Str.truthy v) eqn:Ht.
    + rewrite in_app_iff. cbn [In]. split.
      * intros [H|[<-|[]]]; [now left|]. right. now exists v.
      * intros [H|(v' & Hv & _ & ->)]; [now left|]. injection Hv as <-. auto.
    + split; [now left|]. intros [H|(v' & Hv & Ht' & _)]; [exact H|].
      injection Hv as <-. congruence.
  - split; [now left|]. intros [H|(v' & Hv & _)]; [exact H | discriminate Hv].
Qed.

Lemma in_append_blob (x : FormPart) (name : string) (value : option string)
    (f : FormData) :
  In x (append_blob name value f)
  <-> In x f \/
      exists v, value = Some v /\ Str.truthy v = true /\ x = BlobPart name v name.
Proof.
  unfold append_blob. destruct value as [v|].
  - destruct (Str.truthy v) eqn:Ht.
    + rewrite in_app_iff. cbn [In]. split.
      * intros [H|[<-|[]]]; [now left|]. right. now exists v.
      * intros [H|(v' & Hv & _ & ->)]; [now left|]. injection Hv as <-. auto.
    + split; [now left|]. intros [H|(v' & Hv & Ht' & _)]; [exact H|].
      injection Hv as <-. congruence.
  - split; [now left|]. intros [H|(v' & Hv & _)]; [exact H | discriminate Hv].
Qed.

Lemma hd_append_field (name : string) (value : option string) (f : FormData) :
  f <> [] ->
  append_field name value f <> [] /\
  hd_error (append_field name value f) = hd_error f.
Proof.
  intros H. unfold append_field. destruct f as [|x f]; [contradiction|].
  destruct value as [v|]; [destruct (Str.truthy v)|]; now split.
Qed.

Lemma hd_append_blob (name : string) (value : option string) (f : FormData) :
  f <> [] ->
  append_blob name value f <> [] /\
  hd_error (append_blob name value f) = hd_error f.
Proof.
  intros H. unfold append_blob. destruct f as [|x f]; [contradiction|].
  destruct value as [v|]; [destruct (Str.truthy v)|]; now split.
Qed.

(** X22.  The deployment form starts with the manifest, and has a part for
    an option exactly when that option is a non-empty string: [branch],
    [commit_message] and [commit_hash] as fields, [_headers], [_redirects]
    and [_worker.js] as blobs whose file name is their own name.  An option
    given as the empty string is left out like an absent one. *)
Theorem X22_form_parts (P : Platform) (fs : list DeploymentFileWithHash)
    (options : option DeploymentOptions) (x : FormPart) :
  let given (field : DeploymentOptions -> option string) (part : string -> FormPart) :=
    exists v, option_of options field = Some v /\ Str.truthy v = true /\
              x = part v in
  hd_error (form_of P fs options)
  = Some (Field "manifest" (stringify_manifest P (manifest_of fs)))
  /\ (In x (form_of P fs options)
      <-> x = Field "manifest" (stringify_manifest P (manifest_of fs))
          \/ given branch (Field "branch")
          \/ given commitMessage (Field "commit_message")
          \/ given commitHash (Field "commit_hash")
          \/ given headers (fun v => BlobPart "_headers" v "_headers")
          \/ given redirects (fun v => BlobPart "_redirects" v "_redirects")
          \/ given worker (fun v => BlobPart "_worker.js" v "_worker.js")).
Proof.
  cbv zeta. unfold form_of. split.
  - set (f0 := [Field "manifest" (stringify_manifest P (manifest_of fs))]).
    assert (H0 : f0 <> []) by discriminate.
    destruct (hd_append_field "branch" (option_of options branch) f0 H0)
      as [H1 E1].
    destruct (hd_append_field "commit_message"
                (option_of options commitMessage) _ H1) as [H2 E2].
    destruct (hd_append_field "commit_hash" (option_of options commitHash) _ H2)
      as [H3 E3].
    destruct (hd_append_blob "_headers" (option_of options headers) _ H3)
      as [H4 E4].
    destruct (hd_append_blob "_redirects" (option_of options redirects) _ H4)
      as [H5 E5].
    destruct (hd_append_blob "_worker.js" (option_of options worker) _ H5)
      as [_ E6].
    cbv zeta. now rewrite E6, E5, E4, E3, E2, E1.
  - cbv zeta. rewrite !in_append_blob, !in_append_field. cbn [In].
    split.
    + intros [[[[[[[H|[]]|H]|H]|H]|H]|H]|H]; auto 10.
    + intros [H|[H|[H|[H|[H|[H|H]]]]]]; auto 10.
Qed.


(* ================================================================== *)
(** * Further properties: one cache per deployment *)
(* ================================================================== *)

Section FreshToken.

Variable P : Platform.
Variable E : Environment.
Variable cfg : Config.

Lemma getJwt_fetches (w : World E) :
  exists k, fetches (trace_of (getJwt P E cfg w)) = repeat (token_request cfg) (S k).
Proof.
  unfold getJwt. rewrite bind_emit. project.
  change (fetches (Enter CallGetJwt :: ?t)) with (fetches t).
  rewrite fetches_bind. unfold doRequestWithRetries.
  match goal with
  | |- context [retry_loop ?parse ?url ?key ?o _ _ _ w] =>
      destruct (retry_loop_same_request E parse url key o default_retries 0
                  ThrownUndefined w) as (k & _ & Hpos & Hk)
  end.
  rewrite Hk. destruct k as [|k]; [unfold default_retries in Hpos; lia|].
  exists k. unfold token_request.
  destruct (result_of (retry_loop _ _ _ _ _ _ _ _)) as [e|[jwt|errors]];
    now rewrite app_nil_r.
Qed.

(** On an empty cache, [get] starts with the token request. *)
Lemma get_on_empty_cache (w : World E) :
  jwt_field w = None ->
  exists rest,
    fetches (trace_of (JWTCache_get P E cfg w)) = token_request cfg :: rest.
Proof.
  intros Hnone. unfold JWTCache_get.
  rewrite bind_read, Hnone, bind_ret, fetches_bind.
  destruct (getJwt_fetches w) as [k ->]. cbn [repeat app]. eauto.
Qed.

Lemma asset_call_on_empty_cache {A} (path body : string) (w : World E)
    (run : Outcome E A) :
  jwt_field w = None ->
  asset_requests P cfg path body w run ->
  exists rest, fetches (trace_of run) = token_request cfg :: rest.
Proof.
  intros Hnone Hrun. unfold asset_requests in Hrun. cbv zeta in Hrun.
  destruct (get_on_empty_cache w Hnone) as [rest Hget].
  destruct (result_of (JWTCache_get P E cfg w)) as [e|jwt].
  - destruct Hrun as [_ ->]. eauto.
  - destruct Hrun as (k & _ & ->). rewrite Hget. cbn [app]. eauto.
Qed.

End FreshToken.

(** X6.  Every call of [deployFiles] works with a token cache of its own:
    whatever an earlier deployment left in a cache, as soon as the files are
    hashed the first request of the run is the token request, sent to the
    [upload-token] endpoint of the project with the API key. *)
Theorem X6_fresh_token_per_deployment (P : Platform) (E : Environment)
    (cfg : Config) (files : list DeploymentFile)
    (options : option DeploymentOptions) (w : World E)
    (fs : list DeploymentFileWithHash) :
  result_of (hash_files P E files (fresh_cache w)) = inr fs ->
  exists rest,
    fetches (trace_of (deployFiles P E cfg files options w))
    = token_request cfg :: rest.
Proof.
  intros Hhash. rewrite deployFiles_run. cbv zeta. rewrite Hhash.
  destruct (asset_call_on_empty_cache P E cfg "/pages/assets/check-missing"
              (stringify_hashes P (distinct (map wh_hash fs))) (fresh_cache w)
              (getMissingHashes P E (distinct (map wh_hash fs)) cfg (fresh_cache w))
              eq_refl)
    as [rest Hfirst].
  { unfold getMissingHashes. apply asset_call.
    intros [result|errors] w'; reflexivity. }
  destruct (getMissingHashes P E _ cfg (fresh_cache w))
    as [[[e|missing] w1] t1]; project_in Hfirst; [project; eauto|].
  destruct (run_workers P E cfg fs _ _ _ w1) as [[[e|left] w2] t2]; project.
  { rewrite fetches_app, Hfirst. cbn [app]. eauto. }
  destruct (upsert_phase P E cfg missing _ w2) as [[[e|u] w3] t3]; project.
  { rewrite fetches_app, Hfirst. cbn [app]. eauto. }
  destruct (createDeployment P E _ cfg w3) as [[[e|d] w4] t4]; project;
    rewrite fetches_app, Hfirst; cbn [app]; eauto.
Qed.

Lemma X6_witness :
  exists rest,
    fetches
      (trace_of
         (deployFiles Scenario.platform Scenario.scripted Scenario.cfg
            [Scenario.plain "index.html" "A"] None
            (Scenario.holding
               {| cached_jwt := "cached"; cached_expiry := 5000 |}
               [Scenario.json "h.1700000000.s"; Scenario.json EmptyString;
                Scenario.json "https://site.pages.dev"] [0%Z])))
    = token_request Scenario.cfg :: rest.
Proof.
  eapply (X6_fresh_token_per_deployment Scenario.platform Scenario.scripted
            Scenario.cfg [Scenario.plain "index.html" "A"] None
            (Scenario.holding
               {| cached_jwt := "cached"; cached_expiry := 5000 |}
               [Scenario.json "h.1700000000.s"; Scenario.json EmptyString;
                Scenario.json "https://site.pages.dev"] [0%Z])).
  reflexivity.
Defined.


(* ================================================================== *)
(** * Further properties: failed attempts are not reported *)
(* ================================================================== *)

Lemma retry_messages_app (t1 t2 : list Event) :
  retry_messages (t1 ++ t2) = (retry_messages t1 ++ retry_messages t2)%list.
Proof. apply flat_map_app. Qed.

Section Unlogged.

Variable P : Platform.
Variable E : Environment.
Variable cfg : Config.

Lemma unlogged_ret {A} (a : A) : unlogged (ret (E := E) a).
Proof. intros w. reflexivity. Qed.

Lemma unlogged_throw {A} (e : Thrown) : unlogged (throw (E := E) (A := A) e).
Proof. intros w. reflexivity. Qed.

Lemma unlogged_bind {A B} (m : M E A) (k : A -> M E B) :
  unlogged m -> (forall a, unlogged (k a)) -> unlogged (bind m k).
Proof.
  intros Hm Hk w. rewrite bind_run. specialize (Hm w).
  destruct (m w) as [[[e|a] w1] t1]; project_in Hm; project; [exact Hm|].
  now rewrite retry_messages_app, Hm, Hk.
Qed.

Lemma unlogged_emit (ev : Event) :
  retry_messages [ev] = [] -> unlogged (emit (E := E) ev).
Proof. intros H w. exact H. Qed.

Lemma unlogged_log (enabled : bool) (msg : string) :
  unlogged (log_with E enabled msg).
Proof. destruct enabled; [now apply unlogged_emit | apply unlogged_ret]. Qed.

Lemma unlogged_materialize (c : Content) : unlogged (materialize E c).
Proof.
  destruct c as [b|[e|b]]; cbn;
    [apply unlogged_ret | apply unlogged_throw | apply unlogged_ret].
Qed.

(** Without a [log] among its options, the wrapper waits and retries in
    silence. *)
Lemma unlogged_retry_loop {T} (parse : string -> option (ApiResult T))
    (url key : string) (options : RequestOptions) (remaining : nat) :
  ro_log options = false ->
  forall count last,
    unlogged (retry_loop (E := E) parse url key options remaining count last).
Proof.
  intros Hlog. induction remaining as [|n IH]; intros count last w;
    [reflexivity|].
  rewrite retry_loop_step.
  destruct (doRequest_sends E parse url key options w) as [Htrace _].
  destruct (doRequest parse url key options w) as [[[e|a] w1] t1];
    project_in Htrace; subst t1; [|reflexivity].
  cbv zeta. project. rewrite Hlog, !retry_messages_app.
  cbn [retry_messages flat_map app]. apply IH.
Qed.

Lemma unlogged_getJwt : unlogged (getJwt P E cfg).
Proof.
  unfold getJwt. apply unlogged_bind; [now apply unlogged_emit|]. intros _.
  apply unlogged_bind; [now apply unlogged_retry_loop|].
  intros [jwt|errors]; [apply unlogged_ret | apply unlogged_throw].
Qed.

Lemma unlogged_JWTCache_get : unlogged (JWTCache_get P E cfg).
Proof.
  unfold JWTCache_get. apply unlogged_bind; [intros w; reflexivity|].
  intros cached. apply unlogged_bind.
  - destruct cached as [c|]; [|apply unlogged_ret].
    apply unlogged_bind; [|intros now; apply unlogged_ret].
    intros w. unfold newDate. now destruct (env_now E (outside w)).
  - intros [|].
    + apply unlogged_bind; [apply unlogged_getJwt|]. intros jwt.
      destruct (nth_error (Str.split "." jwt) 1) as [segment|];
        [|apply unlogged_throw].
      cbv zeta.
      destruct (parse_claims P (base64_to_utf8 P segment)) as [exp|];
        [|apply unlogged_throw].
      apply unlogged_bind; [intros w; reflexivity | intros _; apply unlogged_ret].
    + destruct cached; [apply unlogged_ret | apply unlogged_throw].
Qed.

Lemma unlogged_asset_call {T A} (c : Call)
    (parse : string -> option (ApiResult T)) (path : string)
    (body : string) (k : ApiResult T -> M E A) :
  (forall r, unlogged (k r)) ->
  unlogged (emit (Enter c) ;;
            token <- JWTCache_get P E cfg ;;
            res <- doRequestWithRetries parse path (apiKey cfg)
                     (bearer_options token body) default_retries ;;
            k res).
Proof.
  intros Hk. apply unlogged_bind; [now apply unlogged_emit|]. intros _.
  apply unlogged_bind; [apply unlogged_JWTCache_get|]. intros token.
  apply unlogged_bind; [now apply unlogged_retry_loop | exact Hk].
Qed.

Lemma unlogged_getMissingHashes (hs : list string) :
  unlogged (getMissingHashes P E hs cfg).
Proof.
  unfold getMissingHashes. apply unlogged_asset_call.
  intros [result|errors]; [|apply unlogged_throw].
  apply unlogged_bind; [now apply unlogged_emit | intros _; apply unlogged_ret].
Qed.

Lemma unlogged_uploadFile (files : list FileWithHash) :
  unlogged (uploadFile P E files cfg).
Proof.
  unfold uploadFile. cbv zeta. apply unlogged_asset_call.
  intros [u|errors]; [apply unlogged_ret | apply unlogged_throw].
Qed.

Lemma unlogged_upsertHashes (hs : list string) :
  unlogged (upsertHashes P E hs cfg).
Proof.
  unfold upsertHashes. apply unlogged_asset_call.
  intros [u|errors]; [apply unlogged_ret | apply unlogged_throw].
Qed.

Lemma unlogged_createDeployment (body : FormData) :
  unlogged (createDeployment P E body cfg).
Proof.
  unfold createDeployment. apply unlogged_bind; [now apply unlogged_emit|].
  intros _. apply unlogged_bind; [now apply unlogged_retry_loop|].
  intros [d|errors]; [apply unlogged_ret | apply unlogged_throw].
Qed.

Lemma unlogged_upload_missing (fs : list DeploymentFileWithHash)
    (logging : bool) (h : string) :
  unlogged (upload_missing P E cfg fs logging h).
Proof.
  unfold upload_missing.
  destruct (find (fun x => String.eqb (wh_hash x) h) fs) as [file|];
    [|apply unlogged_throw].
  cbv zeta. apply unlogged_bind; [apply unlogged_log|]. intros _.
  apply unlogged_bind.
  - destruct (wh_contentBase64 file); [apply unlogged_ret|].
    destruct (content (wh_file file)) as [b|q]; [apply unlogged_throw|].
    apply unlogged_bind; [apply unlogged_materialize|].
    intros buf. apply unlogged_ret.
  - intros c. apply unlogged_bind; [apply unlogged_uploadFile|].
    intros _. apply unlogged_log.
Qed.

Lemma unlogged_upload_worker (fs : list DeploymentFileWithHash)
    (logging : bool) (stack : list string) :
  unlogged (upload_worker P E cfg fs logging stack).
Proof.
  induction stack as [|h stack IH]; [apply unlogged_ret|].
  cbn [upload_worker]. apply unlogged_bind; [apply unlogged_upload_missing|].
  intros _. exact IH.
Qed.

Lemma unlogged_run_workers (fs : list DeploymentFileWithHash)
    (logging : bool) (n : nat) :
  forall stack, unlogged (run_workers P E cfg fs logging n stack).
Proof.
  induction n as [|n IH]; intros stack; [apply unlogged_ret|].
  cbn [run_workers]. apply unlogged_bind; [apply unlogged_upload_worker|].
  exact IH.
Qed.

Lemma unlogged_deployFiles (files : list DeploymentFile)
    (options : option DeploymentOptions) :
  unlogged (deployFiles P E cfg files options).
Proof.
  unfold deployFiles. apply unlogged_bind; [intros w; reflexivity|]. intros _.
  cbv zeta. apply unlogged_bind.
  { intros w. now rewrite (hash_files_pure P E files w w). }
  intros fs. apply unlogged_bind; [apply unlogged_getMissingHashes|].
  intros missing. apply unlogged_bind; [apply unlogged_run_workers|].
  intros _. apply unlogged_bind.
  { unfold upsert_phase. destruct (0 <? List.length missing)%nat;
      [apply unlogged_upsertHashes | apply unlogged_ret]. }
  intros _. apply unlogged_bind; [apply unlogged_createDeployment|].
  intros d. apply unlogged_ret.
Qed.

End Unlogged.

(** X23.  The [log] callback of a deployment never hears of a failed
    request.  [doRequestWithRetries] reports each failed attempt to the [log]
    of its own options, with the path, the delay and the error; but no
    operation passes a [log] on, so that a deployment, through [deployFiles]
    or [deployDirectory] and with or without a [log] callback, waits and
    retries in silence. *)
Theorem X23_retries_are_silent (P : Platform) (E : Environment) (cfg : Config)
    (options : option DeploymentOptions) (w : World E) :
  (forall files,
      retry_messages (trace_of (deployFiles P E cfg files options w)) = [])
  /\ (forall base root,
         retry_messages (trace_of (deployDirectory P E cfg base root options w))
         = [])
  /\ (forall {T} (parse : string -> option (ApiResult T)) url key o e w1 t,
         ro_log o = true ->
         doRequest parse url key o w = (inl e, w1, t) ->
         exists rest,
           retry_messages
             (trace_of (doRequestWithRetries parse url key o default_retries w))
           = (url, backoff_delay E 1, e) :: rest).
Proof.
  split; [|split].
  - intros files. apply unlogged_deployFiles.
  - intros base root. unfold deployDirectory.
    destruct (collect P base (readDirRecursive base root) _) as [o' files].
    apply unlogged_deployFiles.
  - intros T parse url key o e w1 t Hlog Hfail.
    unfold doRequestWithRetries, default_retries. rewrite retry_loop_step.
    destruct (doRequest_sends E parse url key o w) as [Htrace _].
    rewrite Hfail in *. project_in Htrace. subst t. cbv zeta. project.
    rewrite Hlog. cbn [retry_messages flat_map app]. eauto.
Qed.


(* ================================================================== *)
(** * Further properties: the longest wait *)
(* ================================================================== *)

(** X5.  With the default budget, on an engine whose [Math.pow] is accurate
    to one unit in the last place at the five attempt numbers, a request
    whose five attempts all fail makes the wrapper wait five times, about
    1, 5.7, 15.6, 32 and 55.9 seconds: between 110146 and 110148 ms in all
    before it re-throws, more than 55.9 seconds of which come after the
    fifth and last attempt. *)
Theorem X5_worst_case_wait (E : Environment) {T : Type}
    (parse : string -> option (ApiResult T)) (url key : string)
    (options : RequestOptions) (w w5 : World E) (e5 : Thrown) :
  after_failures parse url key options 5 w ThrownUndefined = Some (w5, e5) ->
  (forall n, (1 <= n <= 5)%nat -> accurate_power E n) ->
  let run := doRequestWithRetries parse url key options default_retries w in
  exists waits : list R,
    map Js.real_value (sleeps (trace_of run)) = map Some waits
    /\ List.length waits = 5%nat
    /\ (110146 < total_delay waits < 110148)%R
    /\ (55901 < last waits 0 < 55902)%R.
Proof.
  intros Hfail Hacc. cbv zeta. unfold doRequestWithRetries, default_retries.
  destruct (retry_loop_throws E parse url key options 5 0 ThrownUndefined
              w w5 e5 Hfail) as (_ & _ & _ & Hs).
  rewrite Hs. cbn [seq map].
  destruct (accurate_delay_1 E (Hacc 1%nat ltac:(lia))) as (r1 & -> & H1).
  destruct (accurate_delay_2 E (Hacc 2%nat ltac:(lia))) as (r2 & -> & H2).
  destruct (accurate_delay_3 E (Hacc 3%nat ltac:(lia))) as (r3 & -> & H3).
  destruct (accurate_delay_4 E (Hacc 4%nat ltac:(lia))) as (r4 & -> & H4).
  destruct (accurate_delay_5 E (Hacc 5%nat ltac:(lia))) as (r5 & -> & H5).
  exists [r1; r2; r3; r4; r5]. split; [reflexivity|]. split; [reflexivity|].
  cbn [total_delay fold_right last]. split; lra.
Qed.

Lemma X5_witness :
  let run := doRequestWithRetries (E := Scenario.scripted)
               (parse_unknown Scenario.platform) "/pages/assets/upload" "key"
               no_options default_retries
               (Scenario.start
                  [Scenario.down; Scenario.down; Scenario.down; Scenario.down;
                   Scenario.down] []) in
  exists waits : list R,
    map Js.real_value (sleeps (trace_of run)) = map Some waits
    /\ List.length waits = 5%nat
    /\ (110146 < total_delay waits < 110148)%R
    /\ (55901 < last waits 0 < 55902)%R.
Proof.
  cbv zeta.
  eapply (X5_worst_case_wait Scenario.scripted
            (parse_unknown Scenario.platform) "/pages/assets/upload" "key"
            no_options
            (Scenario.start
               [Scenario.down; Scenario.down; Scenario.down; Scenario.down;
                Scenario.down] [])).
  - reflexivity.
  - intros n Hn. right. left.
    assert (Hcases : n = 1%nat \/ n = 2%nat \/ n = 3%nat \/ n = 4%nat
                     \/ n = 5%nat) by lia.
    destruct Hcases as [->|[->|[->|[->| ->]]]]; vm_compute; reflexivity.
Defined.
